(** * Auto-Guardian code analyzer: scanning and aggregation engine

    A shallow embedding of [.github/scripts/code-analyzer.py]: the issue
    model, the two pattern detectors ([scan_python], [scan_javascript]),
    the linter adapters ([run_linters]) and the aggregator ([analyze]),
    followed by the properties of the specification that concern them.

    Text is a list of Unicode code points.  The regular expressions of the
    source are syntax trees interpreted by a matcher that returns every end
    position of a match starting at a given position, which decides
    [re.search] and [re.match] for the constructs the source uses. *)

From Stdlib Require Import ZArith NArith List String Ascii Lia Bool DecimalString.
From stdpp Require Import base option list gmap strings fin_maps.

Set Default Proof Using "Type".

(** ** Text *)

Abbreviation text := (list N).

(** The code points of an ASCII literal. *)
Definition codes (s : string) : text :=
  List.map N_of_ascii (list_ascii_of_string s).

Definition NL : N := 10.
Definition DQUOTE : N := 34.
Definition SQUOTE : N := 39.
Definition UNDERSCORE : N := 95.

(** [Py_UNICODE_ISSPACE]: the whitespace code points of CPython, used both by
    [str.strip()] and by the class [\s] of a str pattern. *)
Definition Py_UNICODE_ISSPACE (c : N) : bool :=
  ((9 <=? c) && (c <=? 13) || (28 <=? c) && (c <=? 32) ||
   (c =? 133) || (c =? 160) || (c =? 5760) ||
   (8192 <=? c) && (c <=? 8202) || (c =? 8232) || (c =? 8233) ||
   (c =? 8239) || (c =? 8287) || (c =? 12288))%N.

Definition ascii_alnum (c : N) : bool :=
  ((48 <=? c) && (c <=? 57) || (65 <=? c) && (c <=? 90) ||
   (97 <=? c) && (c <=? 122))%N.

(** [str.startswith] *)
Fixpoint startswith (sub s : text) : bool :=
  match sub, s with
  | [], _ => true
  | _ :: _, [] => false
  | a :: sub', b :: s' => (a =? b)%N && startswith sub' s'
  end.

(** [str.find]: the lowest index at which [sub] occurs in [s], [-1] when
    it does not occur. *)
Fixpoint find (sub s : text) : Z :=
  if startswith sub s then 0%Z
  else match s with
       | [] => (-1)%Z
       | _ :: t => let r := find sub t in
                   if (r <? 0)%Z then (-1)%Z else (r + 1)%Z
       end.

(** [str.split(sep)] for a one-character separator. *)
Fixpoint split (sep : N) (s : text) : list text :=
  match s with
  | [] => [[]]
  | c :: t =>
      if (c =? sep)%N then [] :: split sep t
      else match split sep t with
           | l :: ls => (c :: l) :: ls
           | [] => [[c]]
           end
  end.

Fixpoint lstrip (s : text) : text :=
  match s with
  | c :: t => if Py_UNICODE_ISSPACE c then lstrip t else s
  | [] => []
  end.

Definition rstrip (s : text) : text := rev (lstrip (rev s)).

(** [str.strip()] *)
Definition strip (s : text) : text := rstrip (lstrip s).

(** [enumerate(l, start)] *)
Fixpoint enumerate {A} (l : list A) (start : Z) : list (Z * A) :=
  match l with
  | [] => []
  | x :: t => (start, x) :: enumerate t (start + 1)
  end.

(** ** Regular expressions *)

Inductive cclass :=
| Lit (c : N)               (* a literal character *)
| Space                     (* \s *)
| Word                      (* \w *)
| OneOf (cs : list N)       (* [...] *)
| NoneOf (cs : list N).     (* [^...] *)

Inductive regex :=
| Cls (cl : cclass)
| Eps
| Cat (r1 r2 : regex)
| Alt (r1 r2 : regex)
| Star (r : regex)
| Bol                       (* ^ without re.MULTILINE *)
| Eol                       (* $ without re.MULTILINE *)
| WordB.                    (* \b *)

Definition Plus (r : regex) : regex := Cat r (Star r).
Definition Opt (r : regex) : regex := Alt r Eps.

(** A literal string. *)
Definition lit (w : text) : regex :=
  foldr (fun c r => Cat (Cls (Lit c)) r) Eps w.

Definition mem (c : N) (cs : list N) : bool :=
  existsb (fun x => (x =? c)%N) cs.

(** One round of [*]: every position strictly to the right that the body
    reaches, then again from there.  The subject bounds the number of
    rounds, so [fuel] above its length never runs out. *)
Fixpoint star_ends (step : nat -> list nat) (fuel : nat) (i : nat) : list nat :=
  match fuel with
  | 0 => [i]
  | S fuel' =>
      i :: flat_map (fun j => if i <? j then star_ends step fuel' j else [])
                    (step i)
  end.

Section Matcher.

(** [Py_UNICODE_ISALNUM] on the code points above ASCII: the table of the
    Unicode database, which the analyzer takes from the interpreter. *)
Variable uni_alnum : N -> bool.

Definition Py_UNICODE_ISALNUM (c : N) : bool :=
  if (c <? 128)%N then ascii_alnum c else uni_alnum c.

(** [\w] of a str pattern. *)
Definition is_word (c : N) : bool :=
  Py_UNICODE_ISALNUM c || (c =? UNDERSCORE)%N.

Definition in_class (cl : cclass) (c : N) : bool :=
  match cl with
  | Lit a => (a =? c)%N
  | Space => Py_UNICODE_ISSPACE c
  | Word => is_word c
  | OneOf cs => mem c cs
  | NoneOf cs => negb (mem c cs)
  end.

Definition word_at (s : text) (i : nat) : bool :=
  match s !! i with Some c => is_word c | None => false end.

(** [ends s r i]: the positions at which a match of [r] that starts at
    position [i] of the subject [s] can end. *)
Fixpoint ends (s : text) (r : regex) : nat -> list nat :=
  match r with
  | Cls cl => fun i =>
      match s !! i with
      | Some c => if in_class cl c then [S i] else []
      | None => []
      end
  | Eps => fun i => [i]
  | Cat r1 r2 => fun i => flat_map (ends s r2) (ends s r1 i)
  | Alt r1 r2 => fun i => ends s r1 i ++ ends s r2 i
  | Star r1 => fun i => star_ends (ends s r1) (S (length s)) i
  | Bol => fun i => if i =? 0 then [i] else []
  | Eol => fun i =>
      if (i =? length s) ||
         ((S i =? length s) && bool_decide (s !! i = Some NL))
      then [i] else []
  | WordB => fun i =>
      let before := match i with 0 => false | S k => word_at s k end in
      if xorb before (word_at s i) then [i] else []
  end.

Definition matches_at (r : regex) (s : text) (i : nat) : bool :=
  match ends s r i with [] => false | _ :: _ => true end.

(** [re.match(r, s)] as a truth value. *)
Definition re_match (r : regex) (s : text) : bool := matches_at r s 0.

(** [re.search(r, s)] as a truth value. *)
Definition re_search (r : regex) (s : text) : bool :=
  existsb (matches_at r s) (seq 0 (S (length s))).

End Matcher.

(** ** Issue model *)

Inductive Severity := CRITICAL | HIGH | MEDIUM | LOW | INFO.

Inductive IssueType :=
| SYNTAX_ERROR | LINTING_ERROR | SECURITY_VULNERABILITY | CODE_SMELL
| DEPRECATED_USAGE | PERFORMANCE_ISSUE | STYLE_VIOLATION | TYPE_ERROR
| UNUSED_CODE | IMPORT_ERROR.

Definition Severity_value (s : Severity) : string :=
  match s with
  | CRITICAL => "critical" | HIGH => "high" | MEDIUM => "medium"
  | LOW => "low" | INFO => "info"
  end.

Definition IssueType_value (t : IssueType) : string :=
  match t with
  | SYNTAX_ERROR => "syntax_error"
  | LINTING_ERROR => "linting_error"
  | SECURITY_VULNERABILITY => "security_vulnerability"
  | CODE_SMELL => "code_smell"
  | DEPRECATED_USAGE => "deprecated_usage"
  | PERFORMANCE_ISSUE => "performance_issue"
  | STYLE_VIOLATION => "style_violation"
  | TYPE_ERROR => "type_error"
  | UNUSED_CODE => "unused_code"
  | IMPORT_ERROR => "import_error"
  end.

#[global] Instance Severity_eq_dec : EqDecision Severity.
Proof. solve_decision. Defined.

#[global] Instance IssueType_eq_dec : EqDecision IssueType.
Proof. solve_decision. Defined.

(** The dataclass [CodeIssue], each field with the type its annotation
    gives it. *)
Record CodeIssue := {
  file : string;
  line : Z;
  column : Z;
  severity : Severity;
  issue_type : IssueType;
  message : string;
  rule_id : option string;
  suggestion : option string;
  fixable : bool
}.

#[global] Instance CodeIssue_eq_dec : EqDecision CodeIssue.
Proof. solve_decision. Defined.

(** [CodeIssue.to_dict]: severity and type become their string tags. *)
Record IssueDict := {
  d_file : string;
  d_line : Z;
  d_column : Z;
  d_severity : string;
  d_type : string;
  d_message : string;
  d_rule_id : option string;
  d_suggestion : option string;
  d_fixable : bool
}.

Definition CodeIssue_to_dict (i : CodeIssue) : IssueDict :=
  {| d_file := file i; d_line := line i; d_column := column i;
     d_severity := Severity_value (severity i);
     d_type := IssueType_value (issue_type i);
     d_message := message i; d_rule_id := rule_id i;
     d_suggestion := suggestion i; d_fixable := fixable i |}.

Record ScanResult := {
  timestamp : string;
  files_scanned : Z;
  issues_found : Z;
  issues_by_severity : gmap string Z;
  issues_by_type : gmap string Z;
  critical_issues : list CodeIssue;
  auto_fixable_issues : list CodeIssue;
  issues : list CodeIssue
}.

Record Summary := {
  s_files_scanned : Z;
  total_issues : Z;
  by_severity : gmap string Z;
  by_type : gmap string Z;
  critical_count : Z;
  auto_fixable_count : Z
}.

Record ResultDict := {
  r_timestamp : string;
  summary : Summary;
  r_critical_issues : list IssueDict;
  r_auto_fixable_issues : list IssueDict;
  all_issues : list IssueDict
}.

Definition len {A} (l : list A) : Z := Z.of_nat (length l).

(** [ScanResult.to_dict] *)
Definition ScanResult_to_dict (r : ScanResult) : ResultDict :=
  {| r_timestamp := timestamp r;
     summary :=
       {| s_files_scanned := files_scanned r;
          total_issues := issues_found r;
          by_severity := issues_by_severity r;
          by_type := issues_by_type r;
          critical_count := len (critical_issues r);
          auto_fixable_count := len (auto_fixable_issues r) |};
     r_critical_issues := List.map CodeIssue_to_dict (critical_issues r);
     r_auto_fixable_issues := List.map CodeIssue_to_dict (auto_fixable_issues r);
     all_issues := List.map CodeIssue_to_dict (issues r) |}.

(** The sum of the values of a count dictionary. *)
Definition sum_values (m : gmap string Z) : Z :=
  map_fold (fun _ v acc => (v + acc)%Z) 0%Z m.

(** ** The project tree and the external tools *)

(** A path found by [rglob]; [read_text] is [None] when reading it raises
    (a directory, a permission or a decoding error). *)
Record SrcFile := {
  path : string;
  read_text : option text
}.

(** What [ast.parse(content)] does. *)
Inductive ParseOutcome :=
| Parsed
| RaisedSyntaxError (lineno offset : option Z) (msg : string)
| RaisedOther.              (* ValueError, RecursionError, MemoryError *)

(** What [subprocess.run] followed by [json.loads] gives an adapter. *)
Inductive Stdout (A : Type) :=
| StdoutEmpty                       (* falsy stdout: data = [] *)
| StdoutUnparseable                 (* json.loads raises *)
| StdoutData (data : list A).

Arguments StdoutEmpty {A}.
Arguments StdoutUnparseable {A}.
Arguments StdoutData {A} data.

Inductive ToolRun (A : Type) :=
| RunRaised                         (* not installed, OSError, timeout *)
| RunCompleted (returncode : Z) (stdout : Stdout A).

Arguments RunRaised {A}.
Arguments RunCompleted {A} returncode stdout.

(** One element of flake8's report; a field is [None] when the key is
    absent, so that subscripting it raises [KeyError].  [f8_type] and
    [f8_id] distinguish an absent key ([None]) from a null value
    ([Some None]); the other fields, when present, hold a value of the type
    flake8 writes. *)
Record Flake8Item := {
  f8_filename : option string;
  f8_line_number : option Z;
  f8_column_number : option Z;
  f8_type : option (option string);
  f8_text : option string;
  f8_id : option (option string)
}.

(** One message of eslint's report.  [e_ruleId] distinguishes an absent key
    ([None]) from a null value ([Some None]); [e_fix] says whether
    [msg.get('fix')] is not [None]; the other fields, when present, hold a
    value of the type eslint writes. *)
Record EslintMessage := {
  e_line : option Z;
  e_column : option Z;
  e_severity : option Z;
  e_message : option string;
  e_ruleId : option (option string);
  e_fix : bool
}.

(** One per-file object of eslint's report; [e_messages] is
    [item.get('messages', [])]. *)
Record EslintItem := {
  e_filePath : option string;
  e_messages : list EslintMessage
}.

(** What is found under the project root during one run. *)
Record Project := {
  rglob_py : list SrcFile;
  rglob_js : list SrcFile;
  rglob_ts : list SrcFile;
  flake8 : ToolRun Flake8Item;
  eslint : ToolRun EslintItem
}.

Record CodeAnalyzer := {
  project_root : Project;
  self_issues : list CodeIssue;
  result : ScanResult
}.

(** [ScanResult()] created at time [now]. *)
Definition ScanResult_new (now : string) : ScanResult :=
  {| timestamp := now; files_scanned := 0; issues_found := 0;
     issues_by_severity := ∅; issues_by_type := ∅;
     critical_issues := []; auto_fixable_issues := []; issues := [] |}.

(** [CodeAnalyzer.__init__] *)
Definition CodeAnalyzer_init (root : Project) (now : string) : CodeAnalyzer :=
  {| project_root := root; self_issues := []; result := ScanResult_new now |}.

(** ** The patterns of the source *)

Definition cat_all (rs : list regex) : regex := foldr Cat Eps rs.

(** [print\s*\([^)]*\)] *)
Definition print_re : regex :=
  cat_all [lit (codes "print"); Star (Cls Space); Cls (Lit 40);
           Star (Cls (NoneOf [41%N])); Cls (Lit 41)].

(** [^\s*_+\w*$] *)
Definition unused_re : regex :=
  cat_all [Bol; Star (Cls Space); Plus (Cls (Lit UNDERSCORE));
           Star (Cls Word); Eol].

(** [[^=!]==[^=]] *)
Definition loose_eq_re : regex :=
  cat_all [Cls (NoneOf [61%N; 33%N]); lit (codes "==");
           Cls (NoneOf [61%N])].

(** [\bvar\s+\w+] *)
Definition var_re : regex :=
  cat_all [WordB; lit (codes "var"); Plus (Cls Space); Plus (Cls Word)].

(** [console\.(log|debug|info)] *)
Definition console_re : regex :=
  cat_all [lit (codes "console.");
           Alt (lit (codes "log")) (Alt (lit (codes "debug")) (lit (codes "info")))].

Definition quote : regex := Cls (OneOf [SQUOTE; DQUOTE]).

(** [os\.environ\[['\"]\w+['\"]\]] *)
Definition environ_re : regex :=
  cat_all [lit (codes "os.environ["); quote; Plus (Cls Word); quote;
           Cls (Lit 93)].

(** [(pattern, desc, severity, fixable)] in the order of the source. *)
Definition security_patterns : list (regex * string * Severity * bool) :=
  [ (environ_re, "Direct environment variable access", HIGH, true);
    (cat_all [lit (codes "eval"); Star (Cls Space); Cls (Lit 40)],
      "Unsafe eval() usage", CRITICAL, false);
    (cat_all [lit (codes "exec"); Star (Cls Space); Cls (Lit 40)],
      "Unsafe exec() usage", CRITICAL, false);
    (lit (codes "pickle.load"), "pickle.load may be unsafe", MEDIUM, true);
    (lit (codes "yaml.load"), "yaml.load without SafeLoader", HIGH, true);
    (cat_all [lit (codes "password"); Star (Cls Space); Cls (Lit 61)],
      "Password in code", HIGH, false);
    (cat_all [lit (codes "secret"); Star (Cls Space); Cls (Lit 61)],
      "Secret key in code", HIGH, false);
    (cat_all [lit (codes "api"); Opt (Cls (OneOf [UNDERSCORE; 45%N]));
              lit (codes "key"); Star (Cls Space); Cls (Lit 61)],
      "API key in code", HIGH, false) ].

(** [x or d] on an optional integer: [None] and [0] are falsy. *)
Definition or_default (x : option Z) (d : Z) : Z :=
  match x with
  | Some z => if (z =? 0)%Z then d else z
  | None => d
  end.

(** ** Pattern detectors *)

Section Detectors.

Variable uni_alnum : N -> bool.

(** [ast.parse], as the interpreter running the analyzer provides it. *)
Variable ast_parse : text -> ParseOutcome.

(** [_find_line_with_pattern] *)
Fixpoint find_line_from (lines : list text) (pattern : regex) (line_num : Z) : option Z :=
  match lines with
  | [] => None
  | l :: rest =>
      if re_search uni_alnum pattern l then Some line_num
      else find_line_from rest pattern (line_num + 1)
  end.

Definition _find_line_with_pattern (lines : list text) (pattern : regex) : Z :=
  match find_line_from lines pattern 1 with
  | Some n => n
  | None => 1
  end.

Definition print_issue (p : string) (line_num : Z) (l : text) : CodeIssue :=
  {| file := p; line := line_num; column := find (codes "print") l;
     severity := LOW; issue_type := CODE_SMELL;
     message := "print() usage for debugging"; rule_id := None;
     suggestion := Some "Use logger instead of print"; fixable := true |}.

Definition unused_issue (p : string) (line_num : Z) : CodeIssue :=
  {| file := p; line := line_num; column := 0;
     severity := INFO; issue_type := UNUSED_CODE;
     message := "Unused variable"; rule_id := None;
     suggestion := None; fixable := true |}.

(** The body of the loop over the lines of a Python file. *)
Definition py_line_issues (p : string) (line_num : Z) (l : text) : list CodeIssue :=
  (if re_search uni_alnum print_re l then [print_issue p line_num l] else []) ++
  (if re_match uni_alnum unused_re (strip l) then [unused_issue p line_num] else []).

Definition syntax_issue (p : string) (lineno offset : option Z) (msg : string) : CodeIssue :=
  {| file := p; line := or_default lineno 1; column := or_default offset 0;
     severity := CRITICAL; issue_type := SYNTAX_ERROR;
     message := "Syntax error: " +:+ msg; rule_id := None;
     suggestion := Some "Review syntax on this line"; fixable := false |}.

Definition security_issue (p : string) (lines : list text)
    (entry : regex * string * Severity * bool) : CodeIssue :=
  let '(pattern, desc, sev, fx) := entry in
  {| file := p; line := _find_line_with_pattern lines pattern; column := 0;
     severity := sev; issue_type := SECURITY_VULNERABILITY;
     message := "Security: " +:+ desc; rule_id := None;
     suggestion := Some "Move to .env file"; fixable := fx |}.

Definition security_issues (p : string) (content : text) (lines : list text)
    : list CodeIssue :=
  flat_map (fun entry =>
              if re_search uni_alnum (entry.1.1.1) content
              then [security_issue p lines entry] else [])
           security_patterns.

Definition line_issues (body : string -> Z -> text -> list CodeIssue)
    (p : string) (lines : list text) : list CodeIssue :=
  flat_map (fun nl => body p nl.1 nl.2) (enumerate lines 1).

(** The body of the loop over the Python files: what it appends to
    [issues].  An exception leaves the loop body and is swallowed by the
    handler, which keeps what was appended before it. *)
Definition scan_python_file (f : SrcFile) : list CodeIssue :=
  match read_text f with
  | None => []
  | Some content =>
      let lines := split NL content in
      line_issues py_line_issues (path f) lines ++
      match ast_parse content with
      | Parsed => security_issues (path f) content lines
      | RaisedSyntaxError lineno offset msg =>
          syntax_issue (path f) lineno offset msg ::
          security_issues (path f) content lines
      | RaisedOther => []
      end
  end.

Definition add_files_scanned (n : Z) (r : ScanResult) : ScanResult :=
  {| timestamp := timestamp r; files_scanned := files_scanned r + n;
     issues_found := issues_found r;
     issues_by_severity := issues_by_severity r;
     issues_by_type := issues_by_type r;
     critical_issues := critical_issues r;
     auto_fixable_issues := auto_fixable_issues r; issues := issues r |}.

(** [scan_python]: the issues and the analyzer after the call. *)
Definition scan_python (self : CodeAnalyzer) : list CodeIssue * CodeAnalyzer :=
  let py_files := rglob_py (project_root self) in
  let self' :=
    {| project_root := project_root self; self_issues := self_issues self;
       result := add_files_scanned (len py_files) (result self) |} in
  (flat_map scan_python_file py_files, self').

Definition loose_eq_issue (p : string) (line_num : Z) (l : text) : CodeIssue :=
  {| file := p; line := line_num; column := find (codes "==") l;
     severity := MEDIUM; issue_type := CODE_SMELL;
     message := "Use === instead of =="; rule_id := None;
     suggestion := Some "Use === for strict comparison"; fixable := true |}.

Definition var_issue (p : string) (line_num : Z) (l : text) : CodeIssue :=
  {| file := p; line := line_num; column := find (codes "var") l;
     severity := LOW; issue_type := DEPRECATED_USAGE;
     message := "Use let/const instead of var"; rule_id := None;
     suggestion := Some "Use let or const"; fixable := true |}.

Definition console_issue (p : string) (line_num : Z) (l : text) : CodeIssue :=
  {| file := p; line := line_num; column := find (codes "console") l;
     severity := INFO; issue_type := CODE_SMELL;
     message := "Remaining console.log statement"; rule_id := None;
     suggestion := Some "Remove or use logger"; fixable := true |}.

(** The body of the loop over the lines of a JavaScript file. *)
Definition js_line_issues (p : string) (line_num : Z) (l : text) : list CodeIssue :=
  (if re_search uni_alnum loose_eq_re l then [loose_eq_issue p line_num l] else []) ++
  (if re_search uni_alnum var_re l then [var_issue p line_num l] else []) ++
  (if re_search uni_alnum console_re l then [console_issue p line_num l] else []).

Definition scan_javascript_file (f : SrcFile) : list CodeIssue :=
  match read_text f with
  | None => []
  | Some content => line_issues js_line_issues (path f) (split NL content)
  end.

(** [scan_javascript]; it leaves the analyzer as it is. *)
Definition scan_javascript (self : CodeAnalyzer) : list CodeIssue :=
  let js_files := rglob_js (project_root self) ++ rglob_ts (project_root self) in
  flat_map scan_javascript_file js_files.

End Detectors.

(** ** Linter adapters *)

(** [_map_flake8_severity]; [code] is [None] for the null value, which is
    falsy like the empty string. *)
Definition _map_flake8_severity (code : option string) : Severity :=
  let prefix := match code with
                | Some (String c _) => c
                | Some EmptyString | None => "W"%char
                end in
  if Ascii.eqb prefix "E" then HIGH
  else if Ascii.eqb prefix "F" then CRITICAL
  else if Ascii.eqb prefix "W" then LOW
  else MEDIUM.

(** [_map_eslint_severity] *)
Definition _map_eslint_severity (sev : Z) : Severity :=
  if (sev =? 2)%Z then HIGH
  else if (sev =? 1)%Z then MEDIUM
  else LOW.

(** The issue built from one flake8 finding; [None] when a subscript
    raises [KeyError]. *)
Definition flake8_issue (item : Flake8Item) : option CodeIssue :=
  fname ← f8_filename item;
  ln ← f8_line_number item;
  col ← f8_column_number item;
  ty ← f8_type item;
  txt ← f8_text item;
  id ← f8_id item;
  Some {| file := fname; line := ln; column := col;
          severity := _map_flake8_severity ty; issue_type := LINTING_ERROR;
          message := txt; rule_id := id; suggestion := None;
          fixable := true |}.

(** The issue built from one eslint message of the file object [item]. *)
Definition eslint_issue (item : EslintItem) (msg : EslintMessage) : option CodeIssue :=
  fname ← e_filePath item;
  ln ← e_line msg;
  col ← e_column msg;
  sev ← e_severity msg;
  txt ← e_message msg;
  rule ← e_ruleId msg;
  Some {| file := fname; line := ln; column := col;
          severity := _map_eslint_severity sev; issue_type := LINTING_ERROR;
          message := txt; rule_id := rule; suggestion := None;
          fixable := e_fix msg |}.

(** A loop that appends one issue per element and is left by the first
    exception: what it appended, and whether it ran to its end. *)
Fixpoint append_each {A} (build : A -> option CodeIssue) (l : list A)
    : list CodeIssue * bool :=
  match l with
  | [] => ([], true)
  | x :: rest =>
      match build x with
      | None => ([], false)
      | Some i => let '(done_, finished) := append_each build rest in
                  (i :: done_, finished)
      end
  end.

Fixpoint eslint_items (data : list EslintItem) : list CodeIssue * bool :=
  match data with
  | [] => ([], true)
  | item :: rest =>
      let '(here, finished) := append_each (eslint_issue item) (e_messages item) in
      if finished
      then let '(later, finished') := eslint_items rest in (here ++ later, finished')
      else (here, false)
  end.

(** What the body of an adapter's [try] appends to [issues]. *)
Definition adapter_issues {A} (translate : list A -> list CodeIssue * bool)
    (run : ToolRun A) : list CodeIssue :=
  match run with
  | RunRaised => []
  | RunCompleted returncode stdout =>
      if (returncode =? 0)%Z then []
      else match stdout with
           | StdoutEmpty => (translate []).1
           | StdoutUnparseable => []
           | StdoutData data => (translate data).1
           end
  end.

(** [run_linters] *)
Definition run_linters (self : CodeAnalyzer) : list CodeIssue :=
  adapter_issues (append_each flake8_issue) (flake8 (project_root self)) ++
  adapter_issues eslint_items (eslint (project_root self)).

(** ** Aggregator *)

Definition bump (key : string) (m : gmap string Z) : gmap string Z :=
  <[key := (default 0 (m !! key) + 1)%Z]> m.

(** The body of the categorisation loop of [analyze]. *)
Definition categorize (r : ScanResult) (issue : CodeIssue) : ScanResult :=
  {| timestamp := timestamp r;
     files_scanned := files_scanned r;
     issues_found := issues_found r;
     issues_by_severity :=
       bump (Severity_value (severity issue)) (issues_by_severity r);
     issues_by_type :=
       bump (IssueType_value (issue_type issue)) (issues_by_type r);
     critical_issues :=
       if decide (severity issue = CRITICAL)
       then critical_issues r ++ [issue] else critical_issues r;
     auto_fixable_issues :=
       if fixable issue
       then auto_fixable_issues r ++ [issue] else auto_fixable_issues r;
     issues := issues r |}.

Definition set_issues (all : list CodeIssue) (r : ScanResult) : ScanResult :=
  {| timestamp := timestamp r; files_scanned := files_scanned r;
     issues_found := len all;
     issues_by_severity := issues_by_severity r;
     issues_by_type := issues_by_type r;
     critical_issues := critical_issues r;
     auto_fixable_issues := auto_fixable_issues r; issues := all |}.

Section Analyze.

Variable uni_alnum : N -> bool.
Variable ast_parse : text -> ParseOutcome.

(** [analyze]: the analyzer after the call; the value returned is its
    [result]. *)
Definition analyze (self : CodeAnalyzer) : CodeAnalyzer :=
  let '(python_issues, self1) := scan_python uni_alnum ast_parse self in
  let js_issues := scan_javascript uni_alnum self1 in
  let linter_issues := run_linters self1 in
  let all := python_issues ++ js_issues ++ linter_issues in
  {| project_root := project_root self1;
     self_issues := all;
     result := fold_left categorize all (set_issues all (result self1)) |}.

(** One run of the engine: a fresh analyzer, one call of [analyze]. *)
Definition run (root : Project) (now : string) : ScanResult :=
  result (analyze (CodeAnalyzer_init root now)).

End Analyze.

(** The gate signal of [main]: the exit code. *)
Definition exit_code (r : ScanResult) : Z :=
  if (len (critical_issues r) >? 0)%Z then 1%Z else 0%Z.

(** ** Inputs used in the statements below *)

(** The invocation of an adapter raises before anything is translated:
    [subprocess.run] raises, or [json.loads] raises on the output. *)
Definition invocation_raises {A} (r : ToolRun A) : Prop :=
  r = RunRaised ∨
  ∃ returncode, returncode ≠ 0%Z ∧ r = RunCompleted returncode StdoutUnparseable.

(** The classification of the code points above ASCII used where a
    statement is evaluated on ASCII text, which never consults it. *)
Definition ascii_only : N -> bool := fun _ => false.

Definition parses_everything : text -> ParseOutcome := fun _ => Parsed.

Definition with_timestamp (now : string) (r : ScanResult) : ScanResult :=
  {| timestamp := now; files_scanned := files_scanned r;
     issues_found := issues_found r;
     issues_by_severity := issues_by_severity r;
     issues_by_type := issues_by_type r;
     critical_issues := critical_issues r;
     auto_fixable_issues := auto_fixable_issues r; issues := issues r |}.

(** A tree with one JavaScript file and no linter installed. *)
Definition one_js_file : Project :=
  {| rglob_py := [];
     rglob_js := [ {| path := "app.js";
                      read_text := Some (codes "if (a != b) {}") |} ];
     rglob_ts := []; flake8 := RunRaised; eslint := RunRaised |}.

(** Everything the pattern detectors emit for a tree. *)
Definition pattern_issues (uni_alnum : N -> bool) (ast_parse : text -> ParseOutcome)
    (root : Project) : list CodeIssue :=
  flat_map (scan_python_file uni_alnum ast_parse) (rglob_py root) ++
  flat_map (scan_javascript_file uni_alnum) (rglob_js root ++ rglob_ts root).

(** Everything the linter adapters emit for a tree. *)
Definition linter_issues (root : Project) : list CodeIssue :=
  adapter_issues (append_each flake8_issue) (flake8 root) ++
  adapter_issues eslint_items (eslint root).

(** [issue.severity == Severity.CRITICAL] *)
Definition is_critical (i : CodeIssue) : bool :=
  bool_decide (severity i = CRITICAL).

(** [i["severity"] == "critical"] on a serialized issue. *)
Definition dict_is_critical (i : IssueDict) : bool :=
  String.eqb (d_severity i) "critical".

(** The character at position [k] of [s] is in the class [cl]. *)
Definition class_at (uni_alnum : N -> bool) (s : text) (cl : cclass) (k : nat) : Prop :=
  ∃ c, s !! k = Some c ∧ in_class uni_alnum cl c = true.

(** The parser reports no negative column. *)
Definition offsets_nonnegative (ast_parse : text -> ParseOutcome) : Prop :=
  ∀ content lineno offset msg,
    ast_parse content = RaisedSyntaxError lineno (Some offset) msg → (0 <= offset)%Z.

Definition at_line (n : Z) (i : CodeIssue) : bool := (line i =? n)%Z.

Definition has_severity (s : Severity) (i : CodeIssue) : bool :=
  bool_decide (severity i = s).

Definition has_type (t : IssueType) (i : CodeIssue) : bool :=
  bool_decide (issue_type i = t).

Definition EQUALS : N := 61.
Definition BANG : N := 33.

(** The line shows [==] with a character other than [=] and [!] right
    before it and a character other than [=] right after it. *)
Definition flanked_double_equals (l : text) : Prop :=
  ∃ i a b,
    l !! i = Some a ∧ a ≠ EQUALS ∧ a ≠ BANG ∧
    l !! (i + 1) = Some EQUALS ∧ l !! (i + 2) = Some EQUALS ∧
    l !! (i + 3) = Some b ∧ b ≠ EQUALS.

(** The text is a name that begins with an underscore: one or more
    underscores, then word characters, and nothing else. *)
Definition underscore_name (uni_alnum : N -> bool) (t : text) : bool :=
  match t with
  | c :: _ => (c =? UNDERSCORE)%N && forallb (is_word uni_alnum) t
  | [] => false
  end.

(** A Python file that assigns to [_] on line 1 and has the bare name
    [_tmp] on line 2. *)
Definition underscore_py : SrcFile :=
  {| path := "m.py";
     read_text := Some (codes "_ = compute()" ++ [NL] ++ codes "_tmp") |}.

(** A Python file with a debug print on line 1 and, on line 2, a password
    assignment whose call is left open. *)
Definition unbalanced_py : SrcFile :=
  {| path := "bad.py";
     read_text := Some (codes "print(1)" ++ [NL] ++ codes "password = foo(") |}.

(** The parser on the text of [unbalanced_py]: the parenthesis opened at
    column 15 of line 2 is never closed. *)
Definition rejects_unbalanced (content : text) : ParseOutcome :=
  if decide (Some content = read_text unbalanced_py)
  then RaisedSyntaxError (Some 2%Z) (Some 15%Z) "'(' was never closed"
  else Parsed.

(** The security issue of the pattern described by [desc]. *)
Definition security_for (desc : string) (i : CodeIssue) : bool :=
  has_type SECURITY_VULNERABILITY i && String.eqb (message i) ("Security: " +:+ desc).

(** [w] occurs in [s] at position [i]. *)
Definition occurs_at (s w : text) (i : nat) : Prop :=
  ∀ k c, w !! k = Some c → s !! (i + k) = Some c.



(** [n] is the number of the first line that [pattern] matches on its own,
    or 1 when it matches no line. *)
Definition first_matching_line_or_1 (uni_alnum : N -> bool) (lines : list text)
    (pattern : regex) (n : Z) : Prop :=
  (∃ k l, lines !! k = Some l ∧ re_search uni_alnum pattern l = true ∧
          (∀ k' l', k' < k → lines !! k' = Some l' →
                    re_search uni_alnum pattern l' = false) ∧
          n = (1 + Z.of_nat k)%Z) ∨
  ((∀ k l, lines !! k = Some l → re_search uni_alnum pattern l = false) ∧ n = 1%Z).

(** A JavaScript file with [if (a == b)] on line 5 and [var x = 1] on
    line 6. *)
Definition loose_js : SrcFile :=
  {| path := "ui.js";
     read_text := Some ([NL; NL; NL; NL] ++ codes "if (a == b)" ++ [NL] ++
                        codes "var x = 1") |}.





(** An eslint report whose second message has no [line] key. *)
Definition eslint_report_missing_line : ToolRun EslintItem :=
  RunCompleted 1
    (StdoutData
       [ {| e_filePath := Some "ui.js";
            e_messages :=
              [ {| e_line := Some 5%Z; e_column := Some 7%Z; e_severity := Some 2%Z;
                   e_message := Some "Expected '==='."; e_ruleId := Some (Some "eqeqeq");
                   e_fix := false |};
                {| e_line := None; e_column := None; e_severity := Some 1%Z;
                   e_message := Some "File ignored."; e_ruleId := Some None;
                   e_fix := false |} ] |} ]).

(** A tree with [unbalanced_py] and [loose_js], and no linter installed. *)
Definition small_tree : Project :=
  {| rglob_py := [unbalanced_py]; rglob_js := [loose_js]; rglob_ts := [];
     flake8 := RunRaised; eslint := RunRaised |}.

(** A tree with [loose_js] on which eslint reports
    [eslint_report_missing_line]; flake8 is not installed. *)
Definition linted_tree : Project :=
  {| rglob_py := []; rglob_js := [loose_js]; rglob_ts := [];
     flake8 := RunRaised; eslint := eslint_report_missing_line |}.

(** The finding eslint's adapter appends for [eslint_report_missing_line]. *)
Definition eqeqeq_issue : CodeIssue :=
  {| file := "ui.js"; line := 5; column := 7; severity := HIGH;
     issue_type := LINTING_ERROR; message := "Expected '==='.";
     rule_id := Some "eqeqeq"; suggestion := None; fixable := false |}.

(** ** Further notions used in the statements *)

(** The number of issues that satisfy [p]. *)
Definition count_where (p : CodeIssue -> bool) (l : list CodeIssue) : Z :=
  len (List.filter p l).

(** What a count dictionary holds for a key seen [c] times: no entry for a
    key never seen. *)
Definition entry_for (c : Z) : option Z :=
  if (c =? 0)%Z then None else Some c.

(** The messages of an eslint report in the order the adapter visits them,
    each with the file object it belongs to. *)
Definition eslint_pairs (data : list EslintItem) : list (EslintItem * EslintMessage) :=
  flat_map (fun item => List.map (pair item) (e_messages item)) data.

(** [issues] is what a loop appends that stops at the first element of
    [data] whose translation raises: the translations, in order, of the
    elements before it. *)
Definition translated_until_error {A} (build : A -> option CodeIssue)
    (data : list A) (issues : list CodeIssue) : Prop :=
  ∃ pre rest,
    data = pre ++ rest ∧
    List.map build pre = List.map Some issues ∧
    (rest = [] ∨ ∃ x rest', rest = x :: rest' ∧ build x = None).

(** A flake8 report with a style error, an undefined name and a finding
    whose type and id are null. *)
Definition flake8_report : ToolRun Flake8Item :=
  RunCompleted 1
    (StdoutData
       [ {| f8_filename := Some "a.py"; f8_line_number := Some 3%Z;
            f8_column_number := Some 80%Z; f8_type := Some (Some "E");
            f8_text := Some "line too long"; f8_id := Some (Some "E501") |};
         {| f8_filename := Some "a.py"; f8_line_number := Some 7%Z;
            f8_column_number := Some 1%Z; f8_type := Some (Some "F");
            f8_text := Some "undefined name 'x'"; f8_id := Some (Some "F821") |};
         {| f8_filename := Some "a.py"; f8_line_number := Some 9%Z;
            f8_column_number := Some 1%Z; f8_type := Some None;
            f8_text := Some "blank line at end of file"; f8_id := Some None |} ]).

(** [c] is the position of the first occurrence of [w] in [l]. *)
Definition first_occurrence (l w : text) (c : Z) : Prop :=
  (0 <= c)%Z ∧ occurs_at l w (Z.to_nat c) ∧
  ∀ k, k < Z.to_nat c → ¬ occurs_at l w k.

(** The number of newline characters of a text. *)
Definition newlines (s : text) : Z :=
  len (List.filter (fun c => (c =? NL)%N) s).

(** The files the two detectors visit. *)
Definition scanned_files (root : Project) : list SrcFile :=
  rglob_py root ++ rglob_js root ++ rglob_ts root.

(** [w in l] on strings. *)
Definition contains (w l : text) : bool := (0 <=? find w l)%Z.

(** The line has a [console.log], [console.debug] or [console.info]. *)
Definition console_call (l : text) : bool :=
  contains (codes "console.log") l || contains (codes "console.debug") l ||
  contains (codes "console.info") l.

(** At position [i] the line has the word [var], not glued to a word
    character on its left, then whitespace, then a word character. *)
Definition var_declaration_at (uni_alnum : N -> bool) (l : text) (i : nat) : Prop :=
  occurs_at l (codes "var") i ∧
  (i = 0 ∨ ∃ c, l !! (i - 1) = Some c ∧ is_word uni_alnum c = false) ∧
  ∃ j, i + 3 < j ∧ (∀ k, i + 3 ≤ k < j → class_at uni_alnum l Space k) ∧
       class_at uni_alnum l Word j.

(** At position [i] the line has [print], then optional whitespace, then an
    opening parenthesis, and further to the right a closing one. *)
Definition print_call_at (uni_alnum : N -> bool) (l : text) (i : nat) : Prop :=
  occurs_at l (codes "print") i ∧
  ∃ j m, i + 5 ≤ j ∧ (∀ k, i + 5 ≤ k < j → class_at uni_alnum l Space k) ∧
         l !! j = Some 40%N ∧ j < m ∧ l !! m = Some 41%N.

(** The two security patterns that are plain strings, with their
    descriptions, severities and fixable flags. *)
Definition literal_patterns : list (text * string * Severity * bool) :=
  [ (codes "pickle.load", "pickle.load may be unsafe", MEDIUM, true);
    (codes "yaml.load", "yaml.load without SafeLoader", HIGH, true) ].

(** ** Report generator

    [report-generator.py] reads the dictionary that the analyzer saved.  A
    key of that dictionary is an optional field here, [None] when the key is
    absent; a value that is present has the type [ScanResult.to_dict] gives
    it. *)

(** ["\n"] *)
Definition NEWLINE : string := String (ascii_of_nat 10) EmptyString.

(** [str(n)] for an integer. *)
Definition str (n : Z) : string := NilZero.string_of_int (Z.to_int n).

(** ['\n'.join(lines)] *)
Definition join_lines (lines : list string) : string := String.concat NEWLINE lines.

(** [s.endswith(suffix)] *)
Fixpoint endswith (s suffix : string) : bool :=
  String.eqb s suffix ||
  match s with
  | EmptyString => false
  | String _ s' => endswith s' suffix
  end.

(** A value that [json.load] returns under a key of an issue.  The
    analyzer copies what a linter reported under its file name, line,
    message and rule, whatever it is, so the saved file may hold any JSON
    value there.  Of a value that is neither a string nor an integer the
    report generator uses only the text that [str] gives for it and
    whether it can be hashed. *)
Inductive Json :=
| JStr (s : string)
| JInt (n : Z)
| JScalar (shown : string)           (* null, a boolean or a float *)
| JContainer (shown : string).       (* an array or an object *)

(** [str(v)], which is what an f-string shows. *)
Definition py_str (v : Json) : string :=
  match v with
  | JStr s => s
  | JInt n => str n
  | JScalar shown | JContainer shown => shown
  end.

(** [Path(v)]: [pathlib] raises [TypeError] on anything but a string. *)
Definition Path (v : Json) : option string :=
  match v with
  | JStr s => Some s
  | JInt _ | JScalar _ | JContainer _ => None
  end.

(** An issue of the loaded file; a field is [None] when the key is
    absent. *)
Record ReportIssue := {
  ri_file : option Json;
  ri_line : option Json;
  ri_message : option Json;
  ri_severity : option Json;
  ri_type : option string;
  ri_suggestion : option string       (* absent, null or a string *)
}.

Record ReportSummary := {
  rs_files_scanned : option Z;
  rs_total_issues : option Z;
  rs_by_severity : option (list (string * Z));     (* in the order of the file *)
  rs_by_type : option (list (string * Z));
  rs_critical_count : option Z;
  rs_auto_fixable_count : option Z
}.

Record Results := {
  res_summary : option ReportSummary;
  res_critical_issues : option (list ReportIssue);
  res_auto_fixable_issues : option (list ReportIssue);
  res_all_issues : option (list ReportIssue)
}.

(** [{}], the default of [results.get('summary', {})]. *)
Definition empty_summary : ReportSummary :=
  {| rs_files_scanned := None; rs_total_issues := None; rs_by_severity := None;
     rs_by_type := None; rs_critical_count := None; rs_auto_fixable_count := None |}.

(** [severity_emojis.get(sev, fallback)] *)
Definition severity_emojis_get (sev fallback : string) : string :=
  if String.eqb sev "critical" then "Critical"
  else if String.eqb sev "high" then "High"
  else if String.eqb sev "medium" then "Medium"
  else if String.eqb sev "low" then "Low"
  else if String.eqb sev "info" then "Info"
  else fallback.

(** [severity_emojis.get(issue['severity'], fallback)] on a loaded value:
    an array or an object cannot be hashed, and a value that is not a
    string equals no key. *)
Definition severity_label (v : Json) (fallback : string) : option string :=
  match v with
  | JStr sev => Some (severity_emojis_get sev fallback)
  | JInt _ | JScalar _ => Some fallback
  | JContainer _ => None
  end.

(** A loop that appends the lines of each element; [None] when one of them
    raises. *)
Fixpoint lines_of_each {A} (f : A -> option (list string)) (l : list A)
    : option (list string) :=
  match l with
  | [] => Some []
  | x :: rest =>
      here ← f x;
      later ← lines_of_each f rest;
      Some (here ++ later)
  end.

(** [issue.get('suggestion')] when it is truthy. *)
Definition truthy_suggestion (issue : ReportIssue) : option string :=
  match ri_suggestion issue with
  | Some s => if String.eqb s "" then None else Some s
  | None => None
  end.

Definition approved_verdict : list string :=
  [ "---"; "### Merge Status: Approved"; "";
    "**This code passed all quality checks!**"; "";
    "You can proceed with merging this Pull Request." ].

Definition blocked_verdict : list string :=
  [ "---"; "### Merge Status: Blocked"; "";
    "**This Pull Request is blocked from merging due to critical issues.**"; "";
    "Please resolve the issues above and try again." ].

Definition report_footer : list string :=
  [ ""; "---"; "*Report generated automatically by Auto-Guardian Bot*" ].

Section ReportGenerator.

(** [Path(p).name], as [pathlib] computes it on the host. *)
Variable Path_name : string -> string.

Definition report_header (now : string) (summary : ReportSummary) : list string :=
  [ "## Quality Scan Report - Auto-Guardian"; "";
    "**Scan Date:** " +:+ now;
    "**Files Scanned:** " +:+ str (default 0%Z (rs_files_scanned summary));
    "**Total Issues:** " +:+ str (default 0%Z (rs_total_issues summary));
    "";
    "### Issues Summary"; "";
    "| Severity | Count |";
    "|----------|-------|" ] ++
  List.map (fun row => "| " +:+ severity_emojis_get row.1 "Info" +:+ " | " +:+
                        str row.2 +:+ " |")
           (default [] (rs_by_severity summary)) ++
  [ "" ].

(** The line for one automatically fixable issue. *)
Definition fixed_line (issue : ReportIssue) : option (list string) :=
  f ← ri_file issue;
  p ← Path f;
  ln ← ri_line issue;
  msg ← ri_message issue;
  Some [ "- Fixed `" +:+ Path_name p +:+ "`:" +:+ py_str ln +:+ " - " +:+
         py_str msg ].

Definition auto_fix_section (auto_fixable : list ReportIssue) : option (list string) :=
  match auto_fixable with
  | [] => Some []
  | _ :: _ =>
      shown ← lines_of_each fixed_line (take 10 auto_fixable);
      Some ([ "### Auto-Fixes Applied"; "";
              "**" +:+ str (len auto_fixable) +:+ "** issues were fixed automatically:";
              "" ] ++
            shown ++
            (if (len auto_fixable >? 10)%Z
             then [ "- ... and **" +:+ str (len auto_fixable - 10) +:+ "** more fixes" ]
             else []) ++
            [ "" ])
  end.

(** The lines for one critical issue. *)
Definition critical_lines (issue : ReportIssue) : option (list string) :=
  f ← ri_file issue;
  _ ← Path f;
  sev ← ri_severity issue;
  emoji ← severity_label sev "Critical";
  ln ← ri_line issue;
  msg ← ri_message issue;
  Some ([ "- **" +:+ emoji +:+ " " +:+ py_str f +:+ ":" +:+
            py_str ln +:+ "**";
          "  - Issue: " +:+ py_str msg ] ++
        match truthy_suggestion issue with
        | Some s => [ "  - Suggestion: " +:+ s ]
        | None => []
        end ++
        [ "" ]).

Definition verdict_section (critical : list ReportIssue) : option (list string) :=
  match critical with
  | [] => Some approved_verdict
  | _ :: _ =>
      listed ← lines_of_each critical_lines critical;
      Some ([ "### Issues Requiring Human Intervention"; "";
              "**This code cannot be merged until these issues are resolved:**";
              "" ] ++
            listed ++ blocked_verdict)
  end.

(** The list [report] of [generate_pull_request_comment] at its [return];
    [None] when a subscript raises [KeyError], [Path] raises [TypeError] or
    the severity cannot be hashed on the way. *)
Definition pull_request_lines (now : string) (results : Results)
    : option (list string) :=
  let summary := default empty_summary (res_summary results) in
  let critical_issues := default [] (res_critical_issues results) in
  let auto_fixable := default [] (res_auto_fixable_issues results) in
  fixes ← auto_fix_section auto_fixable;
  verdict ← verdict_section critical_issues;
  Some (report_header now summary ++ fixes ++ verdict ++ report_footer).

(** [generate_pull_request_comment] *)
Definition generate_pull_request_comment (now : string) (results : Results)
    : option string :=
  join_lines <$> pull_request_lines now results.

End ReportGenerator.

Record DailySummary := {
  ds_date : string;
  ds_total_issues : Z;
  ds_critical_issues : Z;
  ds_auto_fixed : Z;
  ds_by_severity : list (string * Z);
  ds_by_type : list (string * Z)
}.

(** [generate_daily_summary] *)
Definition generate_daily_summary (now : string) (results : Results) : DailySummary :=
  let summary := default empty_summary (res_summary results) in
  {| ds_date := now;
     ds_total_issues := default 0%Z (rs_total_issues summary);
     ds_critical_issues := default 0%Z (rs_critical_count summary);
     ds_auto_fixed := default 0%Z (rs_auto_fixable_count summary);
     ds_by_severity := default [] (rs_by_severity summary);
     ds_by_type := default [] (rs_by_type summary) |}.

(** ['security' in i.get('type', '')] *)
Definition mentions_security (issue : ReportIssue) : bool :=
  contains (codes "security") (codes (default EmptyString (ri_type issue))).

(** The lines of the alert for one issue. *)
Definition alert_lines (issue : ReportIssue) : option (list string) :=
  f ← ri_file issue;
  ln ← ri_line issue;
  msg ← ri_message issue;
  Some ([ "- " +:+ py_str f +:+ ":" +:+ py_str ln; "  " +:+ py_str msg ] ++
        match truthy_suggestion issue with
        | Some s => [ "  Suggestion: " +:+ s ]
        | None => []
        end).

(** [generate_security_alert]: [None] when it raises, [Some None] when it
    returns [None], [Some (Some alert)] otherwise. *)
Definition generate_security_alert (results : Results) : option (option string) :=
  let critical := default [] (res_critical_issues results) in
  let security_issues := List.filter mentions_security critical in
  match security_issues with
  | [] => Some None
  | _ :: _ =>
      listed ← lines_of_each alert_lines security_issues;
      Some (Some (join_lines
        ([ "Security Alert - Auto-Guardian"; "";
           "Security vulnerabilities detected in code:"; "" ] ++ listed)))
  end.

(** What [json.load] gives for an issue that [CodeIssue.to_dict] wrote. *)
Definition issue_loaded (d : IssueDict) : ReportIssue :=
  {| ri_file := Some (JStr (d_file d)); ri_line := Some (JInt (d_line d));
     ri_message := Some (JStr (d_message d));
     ri_severity := Some (JStr (d_severity d));
     ri_type := Some (d_type d); ri_suggestion := d_suggestion d |}.

(** [results] is a dictionary loaded from the file into which the analyzer
    dumped [d]; the order of the rows of its two count dictionaries is that
    of the file. *)
Definition loaded_from (results : Results) (d : ResultDict) : Prop :=
  res_critical_issues results = Some (List.map issue_loaded (r_critical_issues d)) ∧
  res_auto_fixable_issues results = Some (List.map issue_loaded (r_auto_fixable_issues d)) ∧
  res_all_issues results = Some (List.map issue_loaded (all_issues d)) ∧
  ∃ s rows_severity rows_type,
    res_summary results = Some s ∧
    rs_files_scanned s = Some (s_files_scanned (summary d)) ∧
    rs_total_issues s = Some (total_issues (summary d)) ∧
    rs_critical_count s = Some (critical_count (summary d)) ∧
    rs_auto_fixable_count s = Some (auto_fixable_count (summary d)) ∧
    rs_by_severity s = Some rows_severity ∧ rs_by_type s = Some rows_type.

(** The issue has a string under [file]. *)
Definition file_is_str (issue : ReportIssue) : Prop :=
  ∃ p, ri_file issue = Some (JStr p).

(** The issue has a value under [severity] that is no array and no object. *)
Definition severity_hashable (issue : ReportIssue) : Prop :=
  ∃ sev, ri_severity issue = Some sev ∧ ∀ shown, sev ≠ JContainer shown.

(** The issue has what the auto-fix section needs: a string under [file]
    and the keys [line] and [message]. *)
Definition fixed_line_keys (issue : ReportIssue) : Prop :=
  file_is_str issue ∧ is_Some (ri_line issue) ∧ is_Some (ri_message issue).

(** The issue has what the critical section needs: a string under [file],
    a hashable value under [severity] and the keys [line] and [message]. *)
Definition critical_keys (issue : ReportIssue) : Prop :=
  file_is_str issue ∧ severity_hashable issue ∧
  is_Some (ri_line issue) ∧ is_Some (ri_message issue).

(** ** Inputs of the further statements *)

(** A dictionary as [json.load] returns it for the file into which [d] was
    dumped, the rows of the two count dictionaries given apart. *)
Definition as_loaded (d : ResultDict) (rows_severity rows_type : list (string * Z))
    : Results :=
  {| res_summary :=
       Some {| rs_files_scanned := Some (s_files_scanned (summary d));
               rs_total_issues := Some (total_issues (summary d));
               rs_by_severity := Some rows_severity;
               rs_by_type := Some rows_type;
               rs_critical_count := Some (critical_count (summary d));
               rs_auto_fixable_count := Some (auto_fixable_count (summary d)) |};
     res_critical_issues := Some (List.map issue_loaded (r_critical_issues d));
     res_auto_fixable_issues := Some (List.map issue_loaded (r_auto_fixable_issues d));
     res_all_issues := Some (List.map issue_loaded (all_issues d)) |}.

(** The file saved by a run over [small_tree], loaded again. *)
Definition small_tree_results : Results :=
  as_loaded
    (ScanResult_to_dict (run ascii_only rejects_unbalanced small_tree "t0"))
    [ ("low", 2%Z); ("critical", 1%Z); ("high", 1%Z); ("medium", 1%Z) ]
    [ ("code_smell", 2%Z); ("syntax_error", 1%Z); ("security_vulnerability", 1%Z);
      ("deprecated_usage", 1%Z) ].

(** The file saved by a run over [linted_tree], loaded again. *)
Definition linted_tree_results : Results :=
  as_loaded
    (ScanResult_to_dict (run ascii_only parses_everything linted_tree "t0"))
    [ ("medium", 1%Z); ("low", 1%Z); ("high", 1%Z) ]
    [ ("code_smell", 1%Z); ("deprecated_usage", 1%Z); ("linting_error", 1%Z) ].

(** What [json.load] returns for a saved file whose only auto-fixable
    issue is a finding of flake8 with a null file name. *)
Definition null_file_results : Results :=
  {| res_summary := None; res_critical_issues := None;
     res_auto_fixable_issues :=
       Some [ {| ri_file := Some (JScalar "None"); ri_line := Some (JInt 3);
                 ri_message := Some (JStr "line too long");
                 ri_severity := Some (JStr "high");
                 ri_type := Some "linting_error"; ri_suggestion := None |} ];
     res_all_issues := None |}.

(** The text after the last [/] of a path, which is its last component
    when the path does not end with [/]. *)
Fixpoint basename (p : string) : string :=
  match p with
  | EmptyString => EmptyString
  | String c rest =>
      if Ascii.eqb c "/" then basename rest
      else if existsb (Ascii.eqb "/") (list_ascii_of_string rest) then basename rest
      else p
  end.

(** A JavaScript file that logs on its second line. *)
Definition console_js : SrcFile :=
  {| path := "log.js";
     read_text := Some (codes "function f() {" ++ [NL] ++
                        codes "  console.log(1); }") |}.

(** A Python file that unpickles on its second line. *)
Definition pickle_py : SrcFile :=
  {| path := "load.py";
     read_text := Some (codes "import pickle" ++ [NL] ++
                        codes "x = pickle.load(f)") |}.

(** ** Link checker

    [link-checker.py] finds its links with [re.findall], which needs the
    match that the backtracking engine finds first, not only whether there
    is one: quantifiers are greedy and alternatives are tried in order. *)

(** One round of a greedy [*]: first go on from where the body ends, then
    stop here. *)
Fixpoint star_tries (step : nat -> list nat) (fuel : nat) (i : nat) : list nat :=
  match fuel with
  | 0 => [i]
  | S fuel' =>
      flat_map (fun j => if i <? j then star_tries step fuel' j else [])
               (step i) ++ [i]
  end.

Section Backtracking.

Variable uni_alnum : N -> bool.

(** [tries s r i]: the end positions of the matches of [r] that start at
    position [i] of [s], in the order in which the engine finds them. *)
Fixpoint tries (s : text) (r : regex) : nat -> list nat :=
  match r with
  | Cat r1 r2 => fun i => flat_map (tries s r2) (tries s r1 i)
  | Alt r1 r2 => fun i => tries s r1 i ++ tries s r2 i
  | Star r1 => fun i => star_tries (tries s r1) (S (length s)) i
  | Cls _ | Eps | Bol | Eol | WordB => ends uni_alnum s r
  end.

(** The end of the match that [pattern.match(s, i)] returns. *)
Definition first_end (r : regex) (s : text) (i : nat) : option nat :=
  head (tries s r i).

(** The spans of [re.finditer]: from [pos] on, the leftmost position with a
    match and the match found there, then on from its end (one further
    after an empty match). *)
Fixpoint findall_spans (r : regex) (s : text) (fuel pos : nat) : list (nat * nat) :=
  match fuel with
  | 0 => []
  | S fuel' =>
      if length s <? pos then []
      else match first_end r s pos with
           | Some j =>
               (pos, j) :: findall_spans r s fuel' (if pos <? j then j else S pos)
           | None => findall_spans r s fuel' (S pos)
           end
  end.

(** [s[i:j]] *)
Definition slice (s : text) (i j : nat) : text := take (j - i) (drop i s).

(** [re.findall(r, s)] for a pattern without groups. *)
Definition findall (r : regex) (s : text) : list text :=
  List.map (fun span => slice s span.1 span.2)
           (findall_spans r s (S (length s)) 0).

End Backtracking.

(** The code points from [lo] to [hi]. *)
Definition code_range (lo hi : N) : list N :=
  List.map (fun k => (lo + N.of_nat k)%N) (seq 0 (N.to_nat (hi + 1 - lo))).

(** [[a-zA-Z]] *)
Definition url_letters : cclass := OneOf (code_range 97 122 ++ code_range 65 90).
(** [[0-9]] *)
Definition url_digits : cclass := OneOf (code_range 48 57).
(** [[$-_@.&+]]: the range from [$] to [_], and four more characters. *)
Definition url_punctuation : cclass := OneOf (code_range 36 95 ++ [64; 46; 38; 43]%N).
(** [[!*\\(\\),]] *)
Definition url_reserved : cclass := OneOf [33; 42; 92; 40; 92; 41; 44]%N.
(** [[0-9a-fA-F]] *)
Definition hex_digit : cclass :=
  OneOf (code_range 48 57 ++ code_range 97 102 ++ code_range 65 70).

(** [(?:[a-zA-Z]|[0-9]|[$-_@.&+]|[!*\\(\\),]|(?:%[0-9a-fA-F][0-9a-fA-F]))] *)
Definition url_alternatives : regex :=
  Alt (Cls url_letters)
    (Alt (Cls url_digits)
       (Alt (Cls url_punctuation)
          (Alt (Cls url_reserved)
             (cat_all [Cls (Lit 37); Cls hex_digit; Cls hex_digit])))).

(** [url_pattern] of [find_links] *)
Definition url_pattern : regex :=
  cat_all [lit (codes "http"); Opt (Cls (OneOf [115%N])); lit (codes "://");
           Plus url_alternatives].

(** [find_links]; the pattern has neither [\w] nor [\s], so no
    classification of the code points above ASCII is consulted. *)
Definition find_links (text : list N) : list (list N) :=
  findall (fun _ => false) url_pattern text.

(** The characters a link goes on with: those of the four character classes
    of the pattern. *)
Definition url_char (c : N) : bool :=
  mem c (code_range 97 122 ++ code_range 65 90) || mem c (code_range 48 57) ||
  mem c (code_range 36 95 ++ [64; 46; 38; 43]%N) ||
  mem c [33; 42; 92; 40; 92; 41; 44]%N.

(** The spans of the links of a text. *)
Definition link_spans (text : list N) : list (nat * nat) :=
  findall_spans (fun _ => false) url_pattern text (S (length text)) 0.

(** The character at position [i] is one a link goes on with. *)
Definition url_char_at (s : text) (i : nat) : bool :=
  match s !! i with Some c => url_char c | None => false end.

(** The end of the run of link characters that starts at [i]. *)
Fixpoint url_run (s : text) (fuel i : nat) : nat :=
  match fuel with
  | 0 => i
  | S fuel' => if url_char_at s i then url_run s fuel' (S i) else i
  end.

(** Where the match of [://(...)+] from [k] ends. *)
Definition url_rest_end (s : text) (k : nat) : option nat :=
  if startswith (codes "://") (drop k s) && url_char_at s (k + 3)
  then Some (url_run s (S (length s)) (k + 4))
  else None.

(** Where the link that starts at [i] ends: with the [s] first, without it
    otherwise. *)
Definition url_end (s : text) (i : nat) : option nat :=
  if startswith (codes "http") (drop i s)
  then match (if bool_decide (s !! (i + 4) = Some 115%N)
              then url_rest_end s (i + 5) else None) with
       | Some e => Some e
       | None => url_rest_end s (i + 4)
       end
  else None.

(** * Properties *)

(** ** Aggregator *)

Section Aggregator.

Lemma sum_values_bump key m : sum_values (bump key m) = (sum_values m + 1)%Z.
Proof.
  unfold sum_values, bump.
  assert (Hcomm : ∀ (m' : gmap string Z) (j1 j2 : string) (z1 z2 y : Z),
             j1 ≠ j2 → m' !! j1 = Some z1 → m' !! j2 = Some z2 →
             (z1 + (z2 + y) = z2 + (z1 + y))%Z) by (intros; lia).
  destruct (m !! key) as [v|] eqn:Hk; simpl.
  - rewrite <- insert_delete_eq.
    rewrite map_fold_insert_L; [|by eauto|apply lookup_delete_eq].
    rewrite (map_fold_delete_L _ _ key v m); [lia|by eauto|done].
  - rewrite map_fold_insert_L; [lia|by eauto|done].
Qed.

Lemma sum_values_empty : sum_values ∅ = 0%Z.
Proof. apply map_fold_empty. Qed.

Lemma categorize_fold_frame all r :
  let r' := fold_left categorize all r in
  timestamp r' = timestamp r ∧ files_scanned r' = files_scanned r ∧
  issues_found r' = issues_found r ∧ issues r' = issues r.
Proof.
  revert r. induction all as [|i all IH]; intros r; simpl; [done|].
  destruct (IH (categorize r i)) as (-> & -> & -> & ->). done.
Qed.

Lemma categorize_fold_counts all r :
  let r' := fold_left categorize all r in
  sum_values (issues_by_severity r') = (sum_values (issues_by_severity r) + len all)%Z ∧
  sum_values (issues_by_type r') = (sum_values (issues_by_type r) + len all)%Z.
Proof.
  revert r. induction all as [|i all IH]; intros r; simpl.
  - unfold len; simpl. lia.
  - destruct (IH (categorize r i)) as [-> ->]. simpl.
    rewrite !sum_values_bump. unfold len; simpl length. lia.
Qed.

Lemma categorize_fold_subsets all r :
  let r' := fold_left categorize all r in
  critical_issues r' = critical_issues r ++ List.filter is_critical all ∧
  auto_fixable_issues r' = auto_fixable_issues r ++ List.filter fixable all.
Proof.
  revert r. induction all as [|i all IH]; intros r; simpl.
  - by rewrite !app_nil_r.
  - destruct (IH (categorize r i)) as [-> ->]. simpl.
    unfold is_critical at 2.
    split.
    + case_decide; [rewrite bool_decide_eq_true_2 by done
                   |rewrite bool_decide_eq_false_2 by done];
        by rewrite <- ?app_assoc.
    + destruct (fixable i); by rewrite <- ?app_assoc.
Qed.

Lemma Severity_value_critical s :
  String.eqb (Severity_value s) "critical" = bool_decide (s = CRITICAL).
Proof. by destruct s. Qed.

Lemma filter_map_comm {A B} (f : A -> B) (p : B -> bool) (l : list A) :
  List.filter p (List.map f l) = List.map f (List.filter (fun x => p (f x)) l).
Proof.
  induction l as [|x l IH]; simpl; [done|].
  destruct (p (f x)); simpl; by rewrite IH.
Qed.

End Aggregator.

Section Run.

Variable uni_alnum : N -> bool.
Variable ast_parse : text -> ParseOutcome.

Local Abbreviation pattern_issues := (pattern_issues uni_alnum ast_parse).

Lemma analyze_unfold self :
  let all := pattern_issues (project_root self) ++ linter_issues (project_root self) in
  analyze uni_alnum ast_parse self =
  {| project_root := project_root self; self_issues := all;
     result :=
       fold_left categorize all
         (set_issues all
            (add_files_scanned (len (rglob_py (project_root self))) (result self))) |}.
Proof.
  unfold analyze, scan_python, scan_javascript, run_linters, pattern_issues,
    linter_issues; simpl. by rewrite <- app_assoc.
Qed.

Lemma analyze_project_root self :
  project_root (analyze uni_alnum ast_parse self) = project_root self.
Proof. by rewrite analyze_unfold. Qed.

Lemma analyze_issues self :
  issues (result (analyze uni_alnum ast_parse self)) =
  pattern_issues (project_root self) ++ linter_issues (project_root self).
Proof.
  rewrite analyze_unfold; cbv zeta. cbn [result].
  match goal with
  | |- issues (fold_left categorize ?all ?r) = _ =>
      destruct (categorize_fold_frame all r) as (_ & _ & _ & Hi)
  end.
  cbv zeta in Hi. by rewrite Hi.
Qed.

Lemma run_unfold root now :
  let all := pattern_issues root ++ linter_issues root in
  run uni_alnum ast_parse root now =
  fold_left categorize all
    (set_issues all (add_files_scanned (len (rglob_py root)) (ScanResult_new now))).
Proof. unfold run. by rewrite analyze_unfold. Qed.

Lemma run_issues root now :
  issues (run uni_alnum ast_parse root now) =
  pattern_issues root ++ linter_issues root.
Proof.
  rewrite run_unfold; cbv zeta.
  by destruct (categorize_fold_frame (pattern_issues root ++ linter_issues root)
    (set_issues (pattern_issues root ++ linter_issues root)
       (add_files_scanned (len (rglob_py root)) (ScanResult_new now))))
    as (_ & _ & _ & ->).
Qed.

Lemma run_files_scanned root now :
  files_scanned (run uni_alnum ast_parse root now) = len (rglob_py root).
Proof.
  rewrite run_unfold; cbv zeta.
  destruct (categorize_fold_frame (pattern_issues root ++ linter_issues root)
    (set_issues (pattern_issues root ++ linter_issues root)
       (add_files_scanned (len (rglob_py root)) (ScanResult_new now))))
    as (_ & -> & _ & _).
  simpl. lia.
Qed.

(** C1. For every run, the summary of the serialized result has
    [total_issues] equal to the length of [all_issues], and the values of
    [by_severity] and those of [by_type] each add up to [total_issues]. *)
Theorem C1_summary_counts root now :
  let d := ScanResult_to_dict (run uni_alnum ast_parse root now) in
  total_issues (summary d) = len (all_issues d) ∧
  sum_values (by_severity (summary d)) = total_issues (summary d) ∧
  sum_values (by_type (summary d)) = total_issues (summary d).
Proof.
  cbv zeta. unfold ScanResult_to_dict; simpl.
  rewrite run_unfold; cbv zeta.
  set (all := pattern_issues root ++ linter_issues root).
  set (r0 := set_issues all _).
  destruct (categorize_fold_frame all r0) as (_ & _ & Hfound & Hissues).
  destruct (categorize_fold_counts all r0) as [Hsev Hty].
  rewrite Hfound, Hissues, Hsev, Hty. subst r0; simpl.
  rewrite sum_values_empty. unfold len. rewrite length_map. lia.
Qed.

(** C3. For every run, [critical_issues] is the subsequence of
    [all_issues] whose severity is critical and [auto_fixable_issues] the
    subsequence whose fixable flag is set, both in emission order; the two
    counts are their lengths; an issue that is critical and fixable is in
    both. *)
Theorem C3_subsets root now :
  let d := ScanResult_to_dict (run uni_alnum ast_parse root now) in
  r_critical_issues d = List.filter dict_is_critical (all_issues d) ∧
  critical_count (summary d) = len (List.filter dict_is_critical (all_issues d)) ∧
  r_auto_fixable_issues d = List.filter d_fixable (all_issues d) ∧
  auto_fixable_count (summary d) = len (List.filter d_fixable (all_issues d)) ∧
  ∀ i, In i (all_issues d) → dict_is_critical i = true → d_fixable i = true →
       In i (r_critical_issues d) ∧ In i (r_auto_fixable_issues d).
Proof.
  cbv zeta. unfold ScanResult_to_dict; simpl.
  rewrite run_unfold; cbv zeta.
  set (all := pattern_issues root ++ linter_issues root).
  set (r0 := set_issues all _).
  destruct (categorize_fold_frame all r0) as (_ & _ & _ & Hissues).
  destruct (categorize_fold_subsets all r0) as [Hcrit Hfix].
  rewrite Hissues, Hcrit, Hfix. subst r0; simpl.
  assert (Hc : List.map CodeIssue_to_dict (List.filter is_critical all) =
               List.filter dict_is_critical (List.map CodeIssue_to_dict all)).
  { rewrite filter_map_comm. f_equal. apply List.filter_ext. intros i.
    unfold dict_is_critical, is_critical; simpl.
    by rewrite Severity_value_critical. }
  assert (Hf : List.map CodeIssue_to_dict (List.filter fixable all) =
               List.filter d_fixable (List.map CodeIssue_to_dict all)).
  { by rewrite filter_map_comm. }
  rewrite <- Hc, <- Hf.
  repeat split.
  - unfold len. by rewrite !length_map.
  - unfold len. by rewrite !length_map.
  - rewrite Hc. apply List.filter_In. done.
  - rewrite Hf. apply List.filter_In. done.
Qed.

(** [files_scanned] counts the Python files only: [scan_javascript] never
    adds its files to it. *)
Lemma files_scanned_python_only root now :
  s_files_scanned (summary (ScanResult_to_dict (run uni_alnum ast_parse root now)))
  = len (rglob_py root).
Proof. simpl. apply run_files_scanned. Qed.

Lemma gate_existsb (l : list CodeIssue) :
  (if (len (List.filter is_critical l) >? 0)%Z then 1%Z else 0%Z) =
  if existsb is_critical l then 1%Z else 0%Z.
Proof.
  induction l as [|i l IH]; simpl; [done|].
  destruct (is_critical i); simpl; [|exact IH].
  unfold len; simpl length.
  destruct (Z.gtb_spec (Z.of_nat (S (length (List.filter is_critical l)))) 0);
    [done|lia].
Qed.

Lemma adapter_issues_raises {A} (translate : list A -> list CodeIssue * bool)
    (r : ToolRun A) :
  invocation_raises r → adapter_issues translate r = [].
Proof.
  intros [-> | (rc & Hrc & ->)]; simpl; [done|].
  by destruct (Z.eqb_spec rc 0).
Qed.

(** C8. An adapter whose invocation raises (the tool is not installed, the
    subprocess fails or times out, or its output does not parse) adds no
    issue; the run still returns a result, whose issues are those of the
    pattern detectors followed by those of the adapters; with neither tool
    installed the result and the gate hold the pattern-detector findings
    only. *)
Theorem C8_linter_failure_absorbed root now :
  (invocation_raises (flake8 root) →
     adapter_issues (append_each flake8_issue) (flake8 root) = [] ∧
     linter_issues root = adapter_issues eslint_items (eslint root)) ∧
  (invocation_raises (eslint root) →
     adapter_issues eslint_items (eslint root) = [] ∧
     linter_issues root = adapter_issues (append_each flake8_issue) (flake8 root)) ∧
  (∃ r, run uni_alnum ast_parse root now = r ∧
        issues r = pattern_issues root ++ linter_issues root) ∧
  (flake8 root = RunRaised → eslint root = RunRaised →
     issues (run uni_alnum ast_parse root now) = pattern_issues root ∧
     critical_issues (run uni_alnum ast_parse root now) =
       List.filter is_critical (pattern_issues root) ∧
     exit_code (run uni_alnum ast_parse root now) =
       if existsb is_critical (pattern_issues root) then 1%Z else 0%Z).
Proof.
  split; [|split; [|split]].
  - intros H. unfold linter_issues.
    by rewrite (adapter_issues_raises _ _ H).
  - intros H. unfold linter_issues.
    by rewrite (adapter_issues_raises _ _ H), app_nil_r.
  - eexists; split; [done|]. apply run_issues.
  - intros Hf He.
    assert (Hl : linter_issues root = []).
    { unfold linter_issues. by rewrite Hf, He. }
    split; [by rewrite run_issues, Hl, app_nil_r|].
    assert (Hc : critical_issues (run uni_alnum ast_parse root now) =
                 List.filter is_critical (pattern_issues root)).
    { rewrite run_unfold; cbv zeta. rewrite Hl, app_nil_r.
      by destruct (categorize_fold_subsets (pattern_issues root)
        (set_issues (pattern_issues root)
           (add_files_scanned (len (rglob_py root)) (ScanResult_new now))))
        as [-> _]. }
    split; [done|].
    unfold exit_code. rewrite Hc. apply gate_existsb.
Qed.

Lemma categorize_fold_timestamp all now r :
  fold_left categorize all (with_timestamp now r) =
  with_timestamp now (fold_left categorize all r).
Proof. revert r. induction all as [|i all IH]; intros r; simpl; [done|]. by rewrite <- IH. Qed.

(** C9. With no linter installed, two runs over the same tree give the
    same [all_issues], and results that differ in the timestamp at most;
    calling [analyze] again on the same analyzer gives the same issues
    too. *)
Theorem C9_idempotent root now1 now2 :
  flake8 root = RunRaised → eslint root = RunRaised →
  let r1 := run uni_alnum ast_parse root now1 in
  let r2 := run uni_alnum ast_parse root now2 in
  all_issues (ScanResult_to_dict r1) = all_issues (ScanResult_to_dict r2) ∧
  r2 = with_timestamp now2 r1 ∧
  ∀ self, project_root self = root →
    issues (result (analyze uni_alnum ast_parse (analyze uni_alnum ast_parse self)))
    = issues r1.
Proof.
  intros Hf He r1 r2. subst r1 r2.
  assert (Ht : run uni_alnum ast_parse root now2 =
               with_timestamp now2 (run uni_alnum ast_parse root now1)).
  { rewrite !run_unfold; cbv zeta. by rewrite <- categorize_fold_timestamp. }
  split; [by rewrite Ht|]. split; [done|].
  intros self <-.
  by rewrite run_issues, analyze_issues, analyze_project_root.
Qed.

End Run.

(** C2. A tree with one [*.js] file and no [*.py] file: the globs match one
    file in all, and the run reports [files_scanned = 0]. *)
Theorem C2_files_scanned_omits_javascript :
  (len (rglob_py one_js_file) + len (rglob_js one_js_file) +
   len (rglob_ts one_js_file) = 1)%Z ∧
  files_scanned (run ascii_only parses_everything one_js_file "t0") = 0%Z.
Proof. split; [reflexivity|]. by rewrite run_files_scanned. Qed.

(** ** The matcher *)

Section MatcherFacts.

Variable uni_alnum : N -> bool.

Local Abbreviation ends := (ends uni_alnum).
Local Abbreviation in_class := (in_class uni_alnum).

Local Abbreviation cls_at := (class_at uni_alnum).

Lemma in_ends_cls s cl i j :
  In j (ends s (Cls cl) i) ↔ j = S i ∧ cls_at s cl i.
Proof.
  unfold class_at; simpl. destruct (s !! i) as [c|] eqn:Hc.
  - destruct (in_class cl c) eqn:Hin; simpl.
    + split; [intros [<- | []]; eauto|]. intros [-> _]. by left.
    + split; [done|]. intros [_ (c' & [= <-] & H)]. congruence.
  - split; [done|]. intros [_ (c' & [=] & _)].
Qed.

Lemma in_ends_eps s i j : In j (ends s Eps i) ↔ j = i.
Proof. simpl. split; [by intros [<- | []]|]. intros ->. by left. Qed.

Lemma in_ends_cat s r1 r2 i j :
  In j (ends s (Cat r1 r2) i) ↔ ∃ k, In k (ends s r1 i) ∧ In j (ends s r2 k).
Proof. simpl. apply in_flat_map. Qed.

Lemma in_ends_alt s r1 r2 i j :
  In j (ends s (Alt r1 r2) i) ↔ In j (ends s r1 i) ∨ In j (ends s r2 i).
Proof. simpl. apply in_app_iff. Qed.

Lemma in_ends_lit s w i j :
  In j (ends s (lit w) i) ↔
  j = i + length w ∧ ∀ k c, w !! k = Some c → s !! (i + k) = Some c.
Proof.
  revert i. induction w as [|a w IH]; intros i.
  - change (lit []) with Eps. rewrite in_ends_eps. simpl.
    split; [intros ->; split; [lia|done]|]. intros [-> _]. lia.
  - change (lit (a :: w)) with (Cat (Cls (Lit a)) (lit w)).
    rewrite in_ends_cat. split.
    + intros (k & Hk & Hj). apply in_ends_cls in Hk as [-> (c & Hc & Hin)].
      apply IH in Hj as [-> Hw]. simpl in Hin. apply N.eqb_eq in Hin as <-.
      split; [simpl; lia|]. intros [|k] c'; simpl.
      * intros [= <-]. by rewrite Nat.add_0_r.
      * intros Hk. replace (i + S k) with (S i + k) by lia. by apply Hw.
    + intros [-> Hw]. exists (S i). split.
      * apply in_ends_cls. split; [done|]. exists a. split.
        -- specialize (Hw 0 a eq_refl). by rewrite Nat.add_0_r in Hw.
        -- simpl. apply N.eqb_refl.
      * apply IH. split; [simpl; lia|]. intros k c Hk.
        replace (S i + k) with (i + S k) by lia. by apply Hw.
Qed.

Lemma in_star_ends_sound s cl fuel i j :
  In j (star_ends (ends s (Cls cl)) fuel i) →
  i ≤ j ∧ ∀ k, i ≤ k < j → cls_at s cl k.
Proof.
  revert i. induction fuel as [|fuel IH]; intros i; simpl.
  - intros [<- | []]. split; [lia|]. intros; lia.
  - intros [<- | H]; [split; [lia|intros; lia]|].
    apply in_flat_map in H as (m & Hm & Hj).
    pose proof (proj1 (in_ends_cls s cl i m) Hm) as [-> Hi].
    destruct (Nat.ltb_spec i (S i)); [|lia].
    apply IH in Hj as [Hle Hall]. split; [lia|].
    intros k Hk. destruct (decide (k = i)) as [->|]; [done|].
    apply Hall. lia.
Qed.

Lemma in_star_ends_complete s cl fuel i j :
  i ≤ j → j - i ≤ fuel → (∀ k, i ≤ k < j → cls_at s cl k) →
  In j (star_ends (ends s (Cls cl)) fuel i).
Proof.
  revert i. induction fuel as [|fuel IH]; intros i Hle Hfuel Hall.
  - left. lia.
  - destruct (decide (j = i)) as [->|Hne]; [by left|]. right.
    apply in_flat_map. exists (S i). split.
    + apply in_ends_cls. split; [done|]. apply Hall. lia.
    + destruct (Nat.ltb_spec i (S i)); [|lia].
      apply IH; [lia|lia|]. intros k Hk. apply Hall. lia.
Qed.

Lemma class_at_lt s cl k : cls_at s cl k → k < length s.
Proof. intros (c & Hc & _). by eapply lookup_lt_Some. Qed.

Lemma in_ends_star_cls s cl i j :
  In j (ends s (Star (Cls cl)) i) ↔
  i ≤ j ∧ ∀ k, i ≤ k < j → cls_at s cl k.
Proof.
  split; [apply in_star_ends_sound|].
  intros [Hle Hall]. apply in_star_ends_complete; [done| |done].
  destruct (decide (j = i)) as [->|]; [lia|].
  assert (j - 1 < length s) by (apply (class_at_lt s cl), Hall; lia). lia.
Qed.

Lemma in_ends_plus_cls s cl i j :
  In j (ends s (Plus (Cls cl)) i) ↔
  i < j ∧ ∀ k, i ≤ k < j → cls_at s cl k.
Proof.
  unfold Plus. rewrite in_ends_cat. split.
  - intros (k & Hk & Hj). apply in_ends_cls in Hk as [-> Hi].
    apply in_ends_star_cls in Hj as [Hle Hall]. split; [lia|].
    intros k Hk. destruct (decide (k = i)) as [->|]; [done|]. apply Hall. lia.
  - intros [Hlt Hall]. exists (S i). split.
    + apply in_ends_cls. split; [done|]. apply Hall. lia.
    + apply in_ends_star_cls. split; [lia|]. intros k Hk. apply Hall. lia.
Qed.

Lemma matches_at_true r s i :
  matches_at uni_alnum r s i = true ↔ ∃ j, In j (ends s r i).
Proof.
  unfold matches_at. destruct (ends s r i) as [|j l]; simpl.
  - split; [done|]. by intros [j []].
  - split; [|done]. intros _. exists j. by left.
Qed.

Lemma re_search_true r s :
  re_search uni_alnum r s = true ↔
  ∃ i j, i ≤ length s ∧ In j (ends s r i).
Proof.
  unfold re_search. rewrite existsb_exists. split.
  - intros (i & Hi & Hm). apply in_seq in Hi.
    apply matches_at_true in Hm as [j Hj]. exists i, j. split; [lia|done].
  - intros (i & j & Hi & Hj). exists i. split; [apply in_seq; lia|].
    apply matches_at_true. eauto.
Qed.

Lemma re_match_true r s :
  re_match uni_alnum r s = true ↔ ∃ j, In j (ends s r 0).
Proof. apply matches_at_true. Qed.

End MatcherFacts.

(** ** Strings *)

Section StringFacts.

Lemma startswith_true w s :
  startswith w s = true ↔ ∀ k c, w !! k = Some c → s !! k = Some c.
Proof.
  revert s. induction w as [|a w IH]; intros s; simpl.
  - split; [intros _ k c; by rewrite lookup_nil|done].
  - destruct s as [|b s].
    + split; [done|]. intros H. by specialize (H 0 a eq_refl).
    + rewrite andb_true_iff, N.eqb_eq, IH. split.
      * intros [-> H] [|k] c; simpl; [done|apply H].
      * intros H. split; [by specialize (H 0 a eq_refl) as [= ->]|].
        intros k c. apply (H (S k)).
Qed.

Lemma find_lower_bound w s : (-1 <= find w s)%Z.
Proof.
  induction s as [|b s IH]; simpl.
  - destruct (startswith w []); lia.
  - destruct (startswith w (b :: s)); [lia|].
    destruct (Z.ltb_spec (find w s) 0); lia.
Qed.

(** [find] does not answer [-1] for a string that occurs. *)
Lemma find_occurs w s i :
  (∀ k c, w !! k = Some c → s !! (i + k) = Some c) → (0 <= find w s)%Z.
Proof.
  revert i. induction s as [|b s IH]; intros i H.
  - simpl. destruct (startswith w []) eqn:Hs; [lia|].
    destruct w as [|a w]; [done|]. specialize (H 0 a eq_refl).
    by rewrite lookup_nil in H.
  - simpl. destruct (startswith w (b :: s)) eqn:Hs; [lia|].
    destruct i as [|i].
    + apply startswith_true in H. congruence.
    + specialize (IH i H).
      destruct (Z.ltb_spec (find w s) 0); lia.
Qed.

Lemma lstrip_head s c : head (lstrip s) = Some c → Py_UNICODE_ISSPACE c = false.
Proof.
  induction s as [|a s IH]; simpl; [done|].
  destruct (Py_UNICODE_ISSPACE a) eqn:Ha; [done|]. simpl. by intros [= <-].
Qed.

Lemma lstrip_suffix s : ∃ pre, s = pre ++ lstrip s.
Proof.
  induction s as [|a s [pre IH]]; simpl; [by exists []|].
  destruct (Py_UNICODE_ISSPACE a); [|by exists []].
  exists (a :: pre). simpl. by f_equal.
Qed.

Lemma last_rev (s : text) : last (rev s) = head s.
Proof. destruct s as [|a s]; simpl; [done|]. apply last_snoc. Qed.

Lemma rstrip_last s c : last (rstrip s) = Some c → Py_UNICODE_ISSPACE c = false.
Proof. unfold rstrip. rewrite last_rev. apply lstrip_head. Qed.

Lemma rstrip_prefix s : ∃ post, s = rstrip s ++ post.
Proof.
  unfold rstrip. destruct (lstrip_suffix (rev s)) as [pre H].
  exists (rev pre). rewrite <- rev_app_distr, <- H. by rewrite rev_involutive.
Qed.

(** What [strip] returns neither begins nor ends with whitespace. *)
Lemma strip_ends s :
  (∀ c, head (strip s) = Some c → Py_UNICODE_ISSPACE c = false) ∧
  (∀ c, last (strip s) = Some c → Py_UNICODE_ISSPACE c = false).
Proof.
  unfold strip. split; [|apply rstrip_last].
  intros c Hc. apply (lstrip_head s).
  destruct (rstrip_prefix (lstrip s)) as [post H].
  destruct (rstrip (lstrip s)) as [|a t]; [done|].
  rewrite H. simpl in *. done.
Qed.

Lemma find_absent w s i : find w s = (-1)%Z → ¬ occurs_at s w i.
Proof. intros Hf Ho. apply find_occurs in Ho. lia. Qed.


Lemma occurs_at_app_l s w1 w2 i : occurs_at s (w1 ++ w2) i → occurs_at s w1 i.
Proof. intros H k c Hk. apply H. by apply lookup_app_l_Some. Qed.

Lemma occurs_at_app_r s w1 w2 i :
  occurs_at s (w1 ++ w2) i → occurs_at s w2 (i + length w1).
Proof.
  intros H k c Hk. replace (i + length w1 + k) with (i + (length w1 + k)) by lia.
  apply H. rewrite lookup_app_r by lia.
  by replace (length w1 + k - length w1) with k by lia.
Qed.

Lemma split_head sep s :
  ∃ l ls post, split sep s = l :: ls ∧ s = l ++ post.
Proof.
  induction s as [|c s (l & ls & post & Hs & Hpost)]; simpl.
  - by exists [], [], [].
  - destruct (c =? sep)%N.
    + by exists [], (split sep s), (c :: s).
    + rewrite Hs. exists (c :: l), ls, post. split; [done|]. simpl. by f_equal.
Qed.


End StringFacts.

(** ** Columns *)

Section Columns.

Variable uni_alnum : N -> bool.
Variable ast_parse : text -> ParseOutcome.

Local Abbreviation ends := (ends uni_alnum).
Local Abbreviation search := (re_search uni_alnum).

Lemma cat_all_cons r rs : cat_all (r :: rs) = Cat r (cat_all rs).
Proof. reflexivity. Qed.

Lemma in_ends_wordb s i j : In j (ends s WordB i) → j = i.
Proof. simpl. case (xorb _ _); simpl; [by intros [<- | []]|done]. Qed.

(** A match of a pattern that begins with a literal shows the literal. *)
Lemma lit_prefix_occurs s w rest i j :
  In j (ends s (Cat (lit w) rest) i) →
  ∀ k c, w !! k = Some c → s !! (i + k) = Some c.
Proof.
  intros H. apply in_ends_cat in H as (m & Hm & _).
  by apply in_ends_lit in Hm as [_ Hw].
Qed.

Lemma print_re_column l : search print_re l = true → (0 <= find (codes "print") l)%Z.
Proof.
  intros H. apply re_search_true in H as (i & j & _ & H).
  unfold print_re in H. rewrite cat_all_cons in H.
  eapply find_occurs, lit_prefix_occurs, H.
Qed.

Lemma loose_eq_re_column l : search loose_eq_re l = true → (0 <= find (codes "==") l)%Z.
Proof.
  intros H. apply re_search_true in H as (i & j & _ & H).
  unfold loose_eq_re in H. rewrite cat_all_cons in H.
  apply in_ends_cat in H as (m & _ & H). rewrite cat_all_cons in H.
  eapply find_occurs, lit_prefix_occurs, H.
Qed.

Lemma var_re_column l : search var_re l = true → (0 <= find (codes "var") l)%Z.
Proof.
  intros H. apply re_search_true in H as (i & j & _ & H).
  unfold var_re in H. rewrite cat_all_cons in H.
  apply in_ends_cat in H as (m & _ & H). rewrite cat_all_cons in H.
  eapply find_occurs, lit_prefix_occurs, H.
Qed.

Lemma console_re_column l : search console_re l = true → (0 <= find (codes "console") l)%Z.
Proof.
  intros H. apply re_search_true in H as (i & j & _ & H).
  unfold console_re in H. rewrite cat_all_cons in H.
  pose proof (lit_prefix_occurs _ _ _ _ _ H) as Hw.
  apply (find_occurs _ _ i). intros k c Hk. apply Hw.
  change (codes "console.") with (codes "console" ++ [46%N]).
  by apply lookup_app_l_Some.
Qed.

Lemma in_line_issues body p lines i :
  In i (line_issues body p lines) →
  ∃ n l, In (n, l) (enumerate lines 1) ∧ In i (body p n l).
Proof.
  unfold line_issues. intros H. apply in_flat_map in H as ([n l] & Hnl & Hi).
  eauto.
Qed.

Lemma in_security_issues p content lines i :
  In i (security_issues uni_alnum p content lines) →
  ∃ entry, In entry security_patterns ∧
           search (entry.1.1.1) content = true ∧
           i = security_issue uni_alnum p lines entry.
Proof.
  unfold security_issues. intros H. apply in_flat_map in H as (e & He & Hi).
  exists e. destruct (search _ content); [|done].
  destruct Hi as [<- | []]. done.
Qed.

Lemma security_issue_column p lines entry :
  column (security_issue uni_alnum p lines entry) = 0%Z.
Proof. by destruct entry as [[[? ?] ?] ?]. Qed.

Lemma py_line_issues_column p n l i :
  In i (py_line_issues uni_alnum p n l) → (0 <= column i)%Z.
Proof.
  unfold py_line_issues. rewrite in_app_iff. intros [H | H].
  - destruct (search print_re l) eqn:Hs; [|done].
    destruct H as [<- | []]. simpl. by apply print_re_column.
  - destruct (re_match _ _ _); [|done]. by destruct H as [<- | []].
Qed.

Lemma js_line_issues_column p n l i :
  In i (js_line_issues uni_alnum p n l) → (0 <= column i)%Z.
Proof.
  unfold js_line_issues. rewrite !in_app_iff. intros [H | [H | H]].
  - destruct (search loose_eq_re l) eqn:Hs; [|done].
    destruct H as [<- | []]. simpl. by apply loose_eq_re_column.
  - destruct (search var_re l) eqn:Hs; [|done].
    destruct H as [<- | []]. simpl. by apply var_re_column.
  - destruct (search console_re l) eqn:Hs; [|done].
    destruct H as [<- | []]. simpl. by apply console_re_column.
Qed.

Lemma or_default_nonneg x d :
  (0 <= d)%Z → (∀ z, x = Some z → (0 <= z)%Z) → (0 <= or_default x d)%Z.
Proof.
  intros Hd Hx. destruct x as [z|]; simpl; [|done].
  destruct (Z.eqb_spec z 0); [done|]. by apply Hx.
Qed.

(** C10. No issue of the Python or JavaScript pattern detector has a
    negative column, provided the parser reports none: wherever a column
    is the result of [str.find], the regular expression that guards it
    has matched the line, so the literal is there and [-1] is never
    stored. *)
Theorem C10_columns_nonnegative root i :
  offsets_nonnegative ast_parse →
  In i (pattern_issues uni_alnum ast_parse root) → (0 <= column i)%Z.
Proof.
  intros Hparse. unfold pattern_issues. rewrite in_app_iff.
  intros [H | H]; apply in_flat_map in H as (f & _ & H).
  - unfold scan_python_file in H. destruct (read_text f) as [content|]; [|done].
    apply in_app_iff in H as [H | H].
    + apply in_line_issues in H as (n & l & _ & H).
      by eapply py_line_issues_column.
    + destruct (ast_parse content) as [|lineno offset msg|] eqn:Hp; [| |done].
      * apply in_security_issues in H as (e & _ & _ & ->).
        by rewrite security_issue_column.
      * destruct H as [<- | H].
        -- simpl. apply or_default_nonneg; [done|].
           intros z ->. by eapply Hparse.
        -- apply in_security_issues in H as (e & _ & _ & ->).
           by rewrite security_issue_column.
  - unfold scan_javascript_file in H. destruct (read_text f) as [content|]; [|done].
    apply in_line_issues in H as (n & l & _ & H).
    by eapply js_line_issues_column.
Qed.

End Columns.

(** ** Line rules *)

Section LineRules.

Variable uni_alnum : N -> bool.

Local Abbreviation ends := (ends uni_alnum).
Local Abbreviation search := (re_search uni_alnum).
Local Abbreviation cls_at := (class_at uni_alnum).

Lemma filter_none {A} (p : A -> bool) (l : list A) :
  (∀ x, In x l → p x = false) → List.filter p l = [].
Proof.
  induction l as [|x l IH]; intros H; simpl; [done|].
  rewrite (H x) by (by left). apply IH. intros y Hy. apply H. by right.
Qed.

Lemma filter_all {A} (p : A -> bool) (l : list A) :
  (∀ x, In x l → p x = true) → List.filter p l = l.
Proof.
  induction l as [|x l IH]; intros H; simpl; [done|].
  rewrite (H x) by (by left). f_equal. apply IH. intros y Hy. apply H. by right.
Qed.

Lemma enumerate_line_bound {A} (lines : list A) start n l :
  In (n, l) (enumerate lines start) → (start <= n)%Z.
Proof.
  revert start. induction lines as [|x lines IH]; intros start; simpl; [done|].
  intros [[= <- _] | H]; [lia|]. apply IH in H. lia.
Qed.

(** The issues a file's line loop reports at line [start + k] are those
    of its [k]-th line, when each issue carries the number of its line. *)
Lemma line_issues_at (body : string -> Z -> text -> list CodeIssue) (p : string)
    (lines : list text) start k l :
  (∀ n l' i, In i (body p n l') → line i = n) →
  lines !! k = Some l →
  List.filter (at_line (start + Z.of_nat k))
    (flat_map (fun nl => body p nl.1 nl.2) (enumerate lines start))
  = body p (start + Z.of_nat k)%Z l.
Proof.
  intros Hbody. revert start k.
  induction lines as [|x lines IH]; intros start k Hk; [done|].
  simpl. rewrite List.filter_app. destruct k as [|k]; simpl in Hk.
  - injection Hk as ->. rewrite Z.add_0_r.
    rewrite filter_all, filter_none, app_nil_r; [done| |].
    + intros i Hi. apply in_flat_map in Hi as ([n l'] & Hn & Hi).
      apply Hbody in Hi. apply enumerate_line_bound in Hn.
      unfold at_line. simpl in *. apply Z.eqb_neq. lia.
    + intros i Hi. apply Hbody in Hi. unfold at_line. apply Z.eqb_eq. done.
  - rewrite filter_none.
    + replace (start + Z.of_nat (S k))%Z with ((start + 1) + Z.of_nat k)%Z by lia.
      by apply IH.
    + intros i Hi. apply Hbody in Hi. unfold at_line. apply Z.eqb_neq. lia.
Qed.

Lemma js_line_issues_line p n l i :
  In i (js_line_issues uni_alnum p n l) → line i = n.
Proof.
  unfold js_line_issues. rewrite !in_app_iff.
  intros [H | [H | H]];
    match type of H with In _ (if ?b then _ else _) => destruct b end;
    try done; by destruct H as [<- | []].
Qed.

Lemma py_line_issues_line p n l i :
  In i (py_line_issues uni_alnum p n l) → line i = n.
Proof.
  unfold py_line_issues. rewrite !in_app_iff.
  intros [H | H];
    match type of H with In _ (if ?b then _ else _) => destruct b end;
    try done; by destruct H as [<- | []].
Qed.

Lemma class_at_noneof s cs k :
  cls_at s (NoneOf cs) k ↔ ∃ c, s !! k = Some c ∧ ¬ In c cs.
Proof.
  unfold class_at; simpl. unfold mem.
  split; intros (c & Hc & H); exists c; (split; [done|]).
  - intros Hin. apply negb_true_iff in H.
    assert (existsb (fun x => (x =? c)%N) cs = true); [|congruence].
    apply existsb_exists. exists c. split; [done|apply N.eqb_refl].
  - apply negb_true_iff. apply not_true_is_false. intros He.
    apply existsb_exists in He as (x & Hx & Heq). apply N.eqb_eq in Heq as ->.
    done.
Qed.

Lemma loose_eq_re_ends l i j :
  In j (ends l loose_eq_re i) ↔
  j = i + 4 ∧
  ∃ a b, l !! i = Some a ∧ a ≠ EQUALS ∧ a ≠ BANG ∧
         l !! (i + 1) = Some EQUALS ∧ l !! (i + 2) = Some EQUALS ∧
         l !! (i + 3) = Some b ∧ b ≠ EQUALS.
Proof.
  unfold loose_eq_re. rewrite !cat_all_cons. split.
  - intros H. apply in_ends_cat in H as (k1 & H1 & H).
    apply in_ends_cls in H1 as [-> H1].
    apply in_ends_cat in H as (k2 & H2 & H).
    apply in_ends_lit in H2 as [-> H2].
    apply in_ends_cat in H as (k3 & H3 & H).
    apply in_ends_cls in H3 as [-> H3].
    apply in_ends_eps in H as ->.
    apply class_at_noneof in H1 as (a & Ha & Hna).
    apply class_at_noneof in H3 as (b & Hb & Hnb).
    split; [simpl; lia|]. exists a, b.
    pose proof (H2 0 EQUALS eq_refl) as E0.
    pose proof (H2 1 EQUALS eq_refl) as E1.
    replace (S i + 0) with (i + 1) in E0 by lia.
    replace (S i + 1) with (i + 2) in E1 by lia.
    replace (S i + length (codes "==")) with (i + 3) in Hb by (simpl; lia).
    repeat split; try done.
    + intros ->. apply Hna. by left.
    + intros ->. apply Hna. right. by left.
    + intros ->. apply Hnb. by left.
  - intros [-> (a & b & Ha & Ha1 & Ha2 & E0 & E1 & Hb & Hb1)].
    apply in_ends_cat. exists (S i). split.
    { apply in_ends_cls. split; [done|]. apply class_at_noneof.
      exists a. split; [done|]. intros [<- | [<- | []]]; done. }
    apply in_ends_cat. exists (i + 3). split.
    { apply in_ends_lit. split; [simpl; lia|].
      intros [|[|k]] c Hk; [| |done]; injection Hk as <-.
      - by replace (S i + 0) with (i + 1) by lia.
      - by replace (S i + 1) with (i + 2) by lia. }
    apply in_ends_cat. exists (i + 4). split; [|by apply in_ends_eps].
    apply in_ends_cls. split; [lia|]. apply class_at_noneof.
    exists b. split; [done|]. intros [<- | []]; done.
Qed.

Lemma loose_eq_re_search l :
  search loose_eq_re l = true ↔ flanked_double_equals l.
Proof.
  rewrite re_search_true. unfold flanked_double_equals. split.
  - intros (i & j & _ & H). apply loose_eq_re_ends in H as [_ H]. eauto.
  - intros (i & a & b & H). exists i, (i + 4). split.
    + destruct H as (Ha & _). apply lookup_lt_Some in Ha. lia.
    + apply loose_eq_re_ends. split; [done|]. eauto.
Qed.

Lemma medium_js_line_issues p n l :
  List.filter (has_severity MEDIUM) (js_line_issues uni_alnum p n l) =
  if search loose_eq_re l then [loose_eq_issue p n l] else [].
Proof.
  unfold js_line_issues.
  by destruct (search loose_eq_re l), (search var_re l), (search console_re l).
Qed.

Lemma lookup_middle (pre mid post : text) k c :
  (pre ++ mid ++ post) !! k = Some c →
  (k < length pre ∧ pre !! k = Some c) ∨
  (length pre ≤ k < length pre + length mid ∧ mid !! (k - length pre) = Some c) ∨
  (length pre + length mid ≤ k ∧ post !! (k - length pre - length mid) = Some c).
Proof.
  intros H. apply lookup_app_Some in H as [H | [Hle H]].
  - left. split; [by eapply lookup_lt_Some|done].
  - right. apply lookup_app_Some in H as [H | [Hle' H]].
    + left. split; [|done]. apply lookup_lt_Some in H. lia.
    + right. split; [lia|done].
Qed.

Lemma lookup_In (s : text) k c : s !! k = Some c → In c s.
Proof. intros H. apply list_elem_of_In, list_elem_of_lookup. eauto. Qed.

(** In a line whose only [=] signs are those of one [===] or one [!==],
    no [==] is flanked as the pattern asks. *)
Lemma strict_operator_not_flanked pre op post :
  op = codes "===" ∨ op = codes "!==" →
  ¬ In EQUALS pre → ¬ In EQUALS post →
  ¬ flanked_double_equals (pre ++ op ++ post).
Proof.
  intros Hop Hpre Hpost (i & a & b & Ha & Ha1 & Ha2 & E0 & E1 & Hb & Hb1).
  assert (Hlen : length op = 3) by (by destruct Hop as [-> | ->]).
  apply lookup_middle in E0 as [[_ E0] | [[H0 E0] | [_ E0]]];
    [by apply lookup_In in E0| |by apply lookup_In in E0].
  apply lookup_middle in E1 as [[_ E1] | [[H1 E1] | [_ E1]]];
    [by apply lookup_In in E1| |by apply lookup_In in E1].
  apply lookup_middle in Ha as [[Hi Ha] | [[Hi Ha] | [Hi Ha]]]; [|clear Hb|lia].
  - apply lookup_middle in Hb as [[? _] | [[Hk Hb] | [? _]]]; [lia| |lia].
    replace (i + 3 - length pre) with 2 in Hb by lia.
    replace (i + 1 - length pre) with 0 in E0 by lia.
    destruct Hop as [-> | ->]; [|done]. by injection Hb as <-.
  - replace (i - length pre) with 0 in Ha by lia.
    destruct Hop as [-> | ->]; injection Ha as <-; done.
Qed.

(** In a line whose only [=] sign is the one of a [!=], no [==] occurs at
    all. *)
Lemma loose_inequality_not_flanked pre post :
  ¬ In EQUALS pre → ¬ In EQUALS post →
  ¬ flanked_double_equals (pre ++ codes "!=" ++ post).
Proof.
  intros Hpre Hpost (i & a & b & _ & _ & _ & E0 & E1 & _).
  apply lookup_middle in E0 as [[_ E0] | [[H0 E0] | [_ E0]]];
    [by apply lookup_In in E0| |by apply lookup_In in E0].
  apply lookup_middle in E1 as [[_ E1] | [[H1 E1] | [_ E1]]];
    [by apply lookup_In in E1| |by apply lookup_In in E1].
  change (length (codes "!=")) with 2 in H0, H1.
  assert (i + 1 - length pre = 0) as Hz by lia.
  rewrite Hz in E0. done.
Qed.

(** C6 (as the code has it). In a JavaScript file, the line rule reports
    exactly one medium, code-smell, fixable issue, with the line's number,
    for a line that shows [==] between a character other than [=] and [!]
    and a character other than [=]; a line whose only [=] signs are those
    of a [===] or a [!==] is never reported, and neither is a line whose
    only [=] sign is the one of a loose inequality [!=]. *)
Theorem C6_loose_equality_rule (f : SrcFile) content k l :
  read_text f = Some content →
  split NL content !! k = Some l →
  let n := (1 + Z.of_nat k)%Z in
  let reported :=
    List.filter (has_severity MEDIUM)
      (List.filter (at_line n) (scan_javascript_file uni_alnum f)) in
  (flanked_double_equals l →
     reported = [loose_eq_issue (path f) n l] ∧
     issue_type (loose_eq_issue (path f) n l) = CODE_SMELL ∧
     fixable (loose_eq_issue (path f) n l) = true ∧
     line (loose_eq_issue (path f) n l) = n) ∧
  (∀ pre op post,
     l = pre ++ op ++ post → op = codes "===" ∨ op = codes "!==" →
     ¬ In EQUALS pre → ¬ In EQUALS post → reported = []) ∧
  (∀ pre post,
     l = pre ++ codes "!=" ++ post →
     ¬ In EQUALS pre → ¬ In EQUALS post → reported = []).
Proof.
  intros Hread Hl n reported.
  assert (Hrep : reported =
                 if search loose_eq_re l then [loose_eq_issue (path f) n l] else []).
  { subst reported n. unfold scan_javascript_file. rewrite Hread.
    unfold line_issues.
    rewrite (line_issues_at (js_line_issues uni_alnum) (path f) _ 1 k l);
      [apply medium_js_line_issues| |done].
    intros ? ? ?. apply js_line_issues_line. }
  assert (Hno : ¬ flanked_double_equals l → reported = []).
  { intros Hn. rewrite Hrep. destruct (search loose_eq_re l) eqn:Hs; [|done].
    by apply loose_eq_re_search in Hs. }
  split; [|split].
  - intros Hfl. apply loose_eq_re_search in Hfl. by rewrite Hrep, Hfl.
  - intros pre op post -> Hop Hpre Hpost. apply Hno.
    by apply strict_operator_not_flanked.
  - intros pre post -> Hpre Hpost. apply Hno.
    by apply loose_inequality_not_flanked.
Qed.

Lemma in_ends_bol s i j : In j (ends s Bol i) ↔ j = i ∧ i = 0.
Proof.
  simpl. destruct (Nat.eqb_spec i 0); simpl; [|by intuition].
  split; [intros [<- | []]; done|]. intros [-> _]. by left.
Qed.

Lemma in_ends_eol s i j :
  In j (ends s Eol i) ↔
  j = i ∧ (i = length s ∨ (S i = length s ∧ s !! i = Some NL)).
Proof.
  change (ends s Eol i) with
    (if (i =? length s) || ((S i =? length s) && bool_decide (s !! i = Some NL))
     then [i] else []).
  destruct (_ || _) eqn:Hb.
  - apply orb_true_iff in Hb. split; [intros [<- | []]; split; [done|]|].
    + destruct Hb as [Hb | Hb]; [left; by apply Nat.eqb_eq|right].
      apply andb_true_iff in Hb as [Hb1 Hb2].
      split; [by apply Nat.eqb_eq|by apply bool_decide_eq_true in Hb2].
    + intros [-> _]. by left.
  - apply orb_false_iff in Hb as [Hb1 Hb2]. split; [done|].
    intros [_ [H | [H1 H2]]].
    + apply Nat.eqb_neq in Hb1. done.
    + apply andb_false_iff in Hb2 as [Hb2 | Hb2].
      * by apply Nat.eqb_neq in Hb2.
      * by apply bool_decide_eq_false in Hb2.
Qed.

Lemma unused_re_ends t j :
  In j (ends t unused_re 0) ↔
  ∃ a b,
    (∀ k, k < a → cls_at t Space k) ∧ a < b ∧
    (∀ k, a ≤ k < b → cls_at t (Lit UNDERSCORE) k) ∧ b ≤ j ∧
    (∀ k, b ≤ k < j → cls_at t Word k) ∧
    (j = length t ∨ (S j = length t ∧ t !! j = Some NL)).
Proof.
  unfold unused_re. rewrite !cat_all_cons. rewrite in_ends_cat. split.
  - intros (k0 & H0 & H). apply in_ends_bol in H0 as [-> _].
    apply in_ends_cat in H as (a & Ha & H). apply in_ends_star_cls in Ha as [_ Ha].
    apply in_ends_cat in H as (b & Hb & H). apply in_ends_plus_cls in Hb as [Hab Hb].
    apply in_ends_cat in H as (c & Hc & H). apply in_ends_star_cls in Hc as [Hbc Hc].
    apply in_ends_cat in H as (e & He & H). apply in_ends_eol in He as [-> He].
    apply in_ends_eps in H as ->.
    exists a, b. repeat split; try done. intros k Hk. apply Ha. lia.
  - intros (a & b & Ha & Hab & Hb & Hbj & Hw & He).
    exists 0. split; [by apply in_ends_bol|].
    apply in_ends_cat. exists a. split.
    { apply in_ends_star_cls. split; [lia|]. intros k Hk. apply Ha. lia. }
    apply in_ends_cat. exists b. split; [by apply in_ends_plus_cls|].
    apply in_ends_cat. exists j. split; [by apply in_ends_star_cls|].
    apply in_ends_cat. exists j. split; [by apply in_ends_eol|by apply in_ends_eps].
Qed.

Lemma is_word_underscore : is_word uni_alnum UNDERSCORE = true.
Proof. unfold is_word. apply orb_true_r. Qed.

Lemma forallb_lookup (p : N -> bool) (t : text) :
  forallb p t = true ↔ ∀ k c, t !! k = Some c → p c = true.
Proof.
  rewrite forallb_forall. split.
  - intros H k c Hk. apply H. by eapply lookup_In.
  - intros H c Hc. apply list_elem_of_In, list_elem_of_lookup in Hc as [k Hk].
    by eapply H.
Qed.

Lemma underscore_name_true t :
  underscore_name uni_alnum t = true ↔
  t !! 0 = Some UNDERSCORE ∧ ∀ k c, t !! k = Some c → is_word uni_alnum c = true.
Proof.
  rewrite <- forallb_lookup. unfold underscore_name.
  destruct t as [|c t]; [by intuition|].
  rewrite andb_true_iff, N.eqb_eq. split.
  - by intros [-> H].
  - by intros [[= ->] H].
Qed.

(** On a stripped line the pattern [^\s*_+\w*$] asks for a name that
    begins with an underscore. *)
Lemma unused_re_match l :
  re_match uni_alnum unused_re (strip l) = underscore_name uni_alnum (strip l).
Proof.
  destruct (strip_ends l) as [Hhead Hlast].
  set (t := strip l) in *.
  apply eq_true_iff_eq. rewrite re_match_true, underscore_name_true. split.
  - intros (j & Hj).
    apply unused_re_ends in Hj as (a & b & Ha & Hab & Hb & Hbj & Hw & He).
    assert (a = 0) as ->.
    { destruct a as [|a]; [done|]. destruct (Ha 0) as (c & Hc & Hs); [lia|].
      rewrite <- head_lookup in Hc. apply Hhead in Hc.
      unfold in_class in Hs. congruence. }
    assert (j = length t) as ->.
    { destruct He as [-> | [Hlen Hnl]]; [done|].
      rewrite last_lookup, <- Hlen in Hlast. simpl in Hlast.
      by apply Hlast in Hnl. }
    assert (Hus : ∀ k, k < b → t !! k = Some UNDERSCORE).
    { intros k Hk. destruct (Hb k) as (c & Hc & Hu); [lia|].
      unfold in_class in Hu. by apply N.eqb_eq in Hu as <-. }
    split; [apply Hus; lia|].
    intros k c Hk. destruct (decide (k < b)) as [Hlt | Hge].
    + rewrite (Hus k Hlt) in Hk. injection Hk as <-. apply is_word_underscore.
    + destruct (Hw k) as (c' & Hc' & Hu).
      * split; [lia|]. by eapply lookup_lt_Some.
      * rewrite Hk in Hc'. by injection Hc' as ->.
  - intros [H0 Hall].
    exists (length t). apply unused_re_ends. exists 0, 1.
    repeat split.
    + intros k Hk. lia.
    + lia.
    + intros k Hk. replace k with 0 by lia. exists UNDERSCORE. split; [done|].
      unfold in_class. apply N.eqb_refl.
    + apply lookup_lt_Some in H0. lia.
    + intros k Hk. destruct (lookup_lt_is_Some_2 t k) as [c Hc]; [lia|].
      exists c. split; [done|]. unfold in_class. by eapply Hall.
    + by left.
Qed.

Lemma unused_py_line_issues p n l :
  List.filter (has_type UNUSED_CODE) (py_line_issues uni_alnum p n l) =
  if underscore_name uni_alnum (strip l) then [unused_issue p n] else [].
Proof.
  unfold py_line_issues. rewrite unused_re_match.
  by destruct (search print_re l), (underscore_name uni_alnum (strip l)).
Qed.

Lemma in_filter_at_line n l i : In i (List.filter (at_line n) l) → In i l.
Proof. intros H. by apply List.filter_In in H as [? _]. Qed.

(** C7 (as the code has it). In a Python file, the line rule reports one
    info, unused-code, fixable issue at a line exactly when the line,
    stripped of surrounding whitespace, is nothing but a name that begins
    with an underscore; no other line gets such an issue. *)
Theorem C7_unused_rule ast_parse (f : SrcFile) content k l :
  read_text f = Some content →
  split NL content !! k = Some l →
  let n := (1 + Z.of_nat k)%Z in
  List.filter (has_type UNUSED_CODE)
    (List.filter (at_line n) (scan_python_file uni_alnum ast_parse f))
  = (if underscore_name uni_alnum (strip l) then [unused_issue (path f) n] else [])
  ∧ severity (unused_issue (path f) n) = INFO
  ∧ fixable (unused_issue (path f) n) = true
  ∧ line (unused_issue (path f) n) = n.
Proof.
  intros Hread Hl n. split; [|done].
  unfold scan_python_file. rewrite Hread. cbv zeta.
  rewrite !List.filter_app. unfold line_issues.
  rewrite (line_issues_at (py_line_issues uni_alnum) (path f) _ 1 k l);
    [| intros ? ? ?; apply py_line_issues_line | done].
  rewrite unused_py_line_issues.
  rewrite (filter_none (has_type UNUSED_CODE) (List.filter (at_line _) _)).
  { by rewrite app_nil_r. }
  intros i Hi. apply in_filter_at_line in Hi.
  assert (Hsec : ∀ i, In i (security_issues uni_alnum (path f) content (split NL content)) →
                      has_type UNUSED_CODE i = false).
  { intros i' H. apply in_security_issues in H as (e & _ & _ & ->).
    by destruct e as [[[? ?] ?] ?]. }
  destruct (ast_parse content); [by apply Hsec| |done].
  destruct Hi as [<- | Hi]; [done|by apply Hsec].
Qed.

End LineRules.

(** ** Whole-file checks of the Python detector *)

Section WholeFile.

Variable uni_alnum : N -> bool.
Variable ast_parse : text -> ParseOutcome.

Local Abbreviation search := (re_search uni_alnum).

Lemma py_line_issues_type p n l i :
  In i (py_line_issues uni_alnum p n l) →
  issue_type i = CODE_SMELL ∨ issue_type i = UNUSED_CODE.
Proof.
  unfold py_line_issues. rewrite in_app_iff.
  intros [H | H];
    match type of H with In _ (if ?b then _ else _) => destruct b end;
    try done; destruct H as [<- | []]; auto.
Qed.

Lemma py_lines_type p lines i :
  In i (line_issues (py_line_issues uni_alnum) p lines) →
  issue_type i = CODE_SMELL ∨ issue_type i = UNUSED_CODE.
Proof.
  intros H. apply in_line_issues in H as (n & l & _ & H).
  by eapply py_line_issues_type.
Qed.

Lemma security_issues_type p content lines i :
  In i (security_issues uni_alnum p content lines) →
  issue_type i = SECURITY_VULNERABILITY.
Proof.
  intros H. apply in_security_issues in H as (e & _ & _ & ->).
  by destruct e as [[[? ?] ?] ?].
Qed.

(** C4 (as the code has it). For a Python file whose text the parser
    rejects with a syntax error, the detector emits one syntax-error issue:
    critical, not fixable, at the reported line (1 when none is reported)
    and column (0 when none is reported).  The issues of the line rules
    and of the security patterns are emitted for the file all the same,
    before and after it. *)
Theorem C4_syntax_error_issue (f : SrcFile) content lineno offset msg :
  read_text f = Some content →
  ast_parse content = RaisedSyntaxError lineno offset msg →
  let found := scan_python_file uni_alnum ast_parse f in
  let syn := syntax_issue (path f) lineno offset msg in
  List.filter (has_type SYNTAX_ERROR) found = [syn] ∧
  severity syn = CRITICAL ∧ fixable syn = false ∧
  line syn = or_default lineno 1 ∧ column syn = or_default offset 0 ∧
  found = line_issues (py_line_issues uni_alnum) (path f) (split NL content)
          ++ syn :: security_issues uni_alnum (path f) content (split NL content).
Proof.
  intros Hread Hparse found syn. subst found.
  unfold scan_python_file. rewrite Hread, Hparse. cbv zeta.
  repeat split.
  rewrite List.filter_app. simpl.
  rewrite !filter_none; [done| |].
  - intros i Hi. apply security_issues_type in Hi.
    unfold has_type. apply bool_decide_eq_false. congruence.
  - intros i Hi. apply py_lines_type in Hi.
    unfold has_type. apply bool_decide_eq_false. destruct Hi; congruence.
Qed.

Lemma find_line_from_spec lines pattern start :
  match find_line_from uni_alnum lines pattern start with
  | Some n =>
      ∃ k l, lines !! k = Some l ∧ search pattern l = true ∧
             (∀ k' l', k' < k → lines !! k' = Some l' → search pattern l' = false) ∧
             n = (start + Z.of_nat k)%Z
  | None => ∀ k l, lines !! k = Some l → search pattern l = false
  end.
Proof.
  revert start. induction lines as [|l0 lines IH]; intros start; simpl; [done|].
  destruct (search pattern l0) eqn:Hs.
  - exists 0, l0. repeat split; [done| |lia]. intros; lia.
  - specialize (IH (start + 1)%Z).
    destruct (find_line_from uni_alnum lines pattern (start + 1)) as [n|].
    + destruct IH as (k & l & Hk & Hl & Hbefore & ->).
      exists (S k), l. repeat split; [done|done| |lia].
      intros [|k'] l' Hlt; simpl; [by intros [= <-]|].
      apply Hbefore. lia.
    + intros [|k] l; simpl; [by intros [= <-]|apply IH].
Qed.

Lemma _find_line_with_pattern_spec lines pattern :
  first_matching_line_or_1 uni_alnum lines pattern
    (_find_line_with_pattern uni_alnum lines pattern).
Proof.
  unfold _find_line_with_pattern, first_matching_line_or_1.
  pose proof (find_line_from_spec lines pattern 1) as H.
  destruct (find_line_from uni_alnum lines pattern 1); [by left|by right].
Qed.

Lemma security_for_issue d p lines (e : regex * string * Severity * bool) :
  security_for d (security_issue uni_alnum p lines e) = String.eqb (e.1.1.2) d.
Proof. by destruct e as [[[? ?] ?] ?]. Qed.

Lemma security_filter (ps : list (regex * string * Severity * bool)) p content lines e :
  NoDup (List.map (fun e' => e'.1.1.2) ps) → In e ps →
  search (e.1.1.1) content = true →
  List.filter (security_for (e.1.1.2))
    (flat_map (fun entry => if search (entry.1.1.1) content
                            then [security_issue uni_alnum p lines entry] else [])
              ps)
  = [security_issue uni_alnum p lines e].
Proof.
  intros Hnd Hin Hs.
  assert (Hother : ∀ qs, ¬ In (e.1.1.2) (List.map (fun e' => e'.1.1.2) qs) →
    List.filter (security_for (e.1.1.2))
      (flat_map (fun entry => if search (entry.1.1.1) content
                              then [security_issue uni_alnum p lines entry] else [])
                qs) = []).
  { intros qs Hq. apply filter_none. intros i Hi.
    apply in_flat_map in Hi as (e' & He' & Hi).
    destruct (search (e'.1.1.1) content); [|done]. destruct Hi as [<- | []].
    rewrite security_for_issue. apply String.eqb_neq. intros Heq.
    apply Hq. rewrite <- Heq. by apply (in_map (fun e' => e'.1.1.2)). }
  induction ps as [|e0 ps IH]; [done|].
  simpl in Hnd. apply NoDup_cons in Hnd as [Hfresh Hnd].
  rewrite list_elem_of_In in Hfresh.
  simpl. rewrite List.filter_app. destruct Hin as [-> | Hin].
  - rewrite Hs. simpl. rewrite security_for_issue, String.eqb_refl.
    by rewrite Hother.
  - rewrite IH by done. rewrite filter_none; [done|].
    intros i Hi. destruct (search (e0.1.1.1) content); [|done].
    destruct Hi as [<- | []].
    rewrite security_for_issue. apply String.eqb_neq. intros Heq.
    apply Hfresh. rewrite Heq. by apply (in_map (fun e' => e'.1.1.2)).
Qed.

Lemma security_descs_NoDup :
  NoDup (List.map (fun e' : regex * string * Severity * bool => e'.1.1.2)
                  security_patterns).
Proof. apply (bool_decide_unpack _). by vm_compute. Qed.

(** The security issues of a file whose scan reaches the patterns. *)
Lemma security_of_file (f : SrcFile) content d :
  read_text f = Some content → ast_parse content ≠ RaisedOther →
  List.filter (security_for d) (scan_python_file uni_alnum ast_parse f) =
  List.filter (security_for d)
    (security_issues uni_alnum (path f) content (split NL content)).
Proof.
  intros Hread Hparse. unfold scan_python_file. rewrite Hread. cbv zeta.
  rewrite List.filter_app, filter_none.
  - destruct (ast_parse content); [done|done|done].
  - intros i Hi. apply py_lines_type in Hi. unfold security_for, has_type.
    apply andb_false_iff. left. apply bool_decide_eq_false.
    destruct Hi; congruence.
Qed.








End WholeFile.

(** ** The statements above at concrete inputs *)

(** C4, as the specification states it, fails: [unbalanced_py] does not parse, and the
    detector emits three issues for it, the syntax error between the debug
    print of line 1 and the password of line 2. *)
Lemma C4_other_issues_emitted :
  (∃ content, read_text unbalanced_py = Some content ∧
     rejects_unbalanced content =
       RaisedSyntaxError (Some 2%Z) (Some 15%Z) "'(' was never closed") ∧
  List.map (fun i => (line i, issue_type i))
    (scan_python_file ascii_only rejects_unbalanced unbalanced_py) =
  [ (1%Z, CODE_SMELL); (2%Z, SYNTAX_ERROR); (2%Z, SECURITY_VULNERABILITY) ].
Proof. split; [eexists; split; [reflexivity|]|]; by vm_compute. Qed.

Lemma C4_witness :
  List.filter (has_type SYNTAX_ERROR)
    (scan_python_file ascii_only rejects_unbalanced unbalanced_py) =
  [ syntax_issue "bad.py" (Some 2%Z) (Some 15%Z) "'(' was never closed" ].
Proof.
  refine (proj1 (C4_syntax_error_issue ascii_only rejects_unbalanced unbalanced_py
                   (codes "print(1)" ++ [NL] ++ codes "password = foo(")
                   (Some 2%Z) (Some 15%Z) "'(' was never closed" _ _));
    reflexivity.
Defined.



(** C6, as the specification states it, fails: the only line of [one_js_file] has the
    loose inequality [!=] at column 6, and the detector emits nothing. *)
Lemma C6_loose_inequality_unreported :
  read_text (hd loose_js (rglob_js one_js_file)) = Some (codes "if (a != b) {}") ∧
  find (codes "!=") (codes "if (a != b) {}") = 6%Z ∧
  scan_javascript ascii_only (CodeAnalyzer_init one_js_file "t0") = [].
Proof. repeat split; by vm_compute. Qed.

Lemma C6_witness :
  List.filter (has_severity MEDIUM)
    (List.filter (at_line 5) (scan_javascript_file ascii_only loose_js)) =
  [ loose_eq_issue "ui.js" 5 (codes "if (a == b)") ].
Proof.
  refine (proj1 (proj1 (C6_loose_equality_rule ascii_only loose_js
            ([NL; NL; NL; NL] ++ codes "if (a == b)" ++ [NL] ++ codes "var x = 1")
            4 (codes "if (a == b)") _ _) _)); [reflexivity | reflexivity |].
  exists 5, 32%N, 32%N. repeat split; try reflexivity; by intros [=].
Defined.

(** C7, as the specification states it, fails both ways: line 1 of [underscore_py]
    assigns to [_] and gets no issue; line 2 is the bare name [_tmp], not an
    assignment, and gets one. *)
Lemma C7_assignment_unreported :
  read_text underscore_py = Some (codes "_ = compute()" ++ [NL] ++ codes "_tmp") ∧
  scan_python_file ascii_only parses_everything underscore_py =
  [ {| file := "m.py"; line := 2; column := 0; severity := INFO;
       issue_type := UNUSED_CODE; message := "Unused variable";
       rule_id := None; suggestion := None; fixable := true |} ].
Proof. split; by vm_compute. Qed.

Lemma C7_witness :
  List.filter (has_type UNUSED_CODE)
    (List.filter (at_line 2)
       (scan_python_file ascii_only parses_everything underscore_py)) =
  [ unused_issue "m.py" 2 ].
Proof.
  refine (proj1 (C7_unused_rule ascii_only parses_everything underscore_py
                   (codes "_ = compute()" ++ [NL] ++ codes "_tmp")
                   1 (codes "_tmp") _ _)); reflexivity.
Defined.

(** An error raised while the findings are translated, after the output has
    been parsed, keeps what the adapter appended before it. *)
Example eslint_keeps_issues_before_error :
  adapter_issues eslint_items eslint_report_missing_line =
  [ {| file := "ui.js"; line := 5; column := 7; severity := HIGH;
       issue_type := LINTING_ERROR; message := "Expected '==='.";
       rule_id := Some "eqeqeq"; suggestion := None; fixable := false |} ].
Proof. reflexivity. Qed.

Lemma C8_witness :
  invocation_raises (flake8 small_tree) ∧
  invocation_raises (eslint small_tree) ∧
  linter_issues small_tree = [] ∧
  issues (run ascii_only rejects_unbalanced small_tree "t0") =
    pattern_issues ascii_only rejects_unbalanced small_tree ∧
  exit_code (run ascii_only rejects_unbalanced small_tree "t0") = 1%Z.
Proof.
  pose proof (C8_linter_failure_absorbed ascii_only rejects_unbalanced small_tree "t0")
    as (Hf & He & _ & Hnone).
  assert (H1 : invocation_raises (flake8 small_tree)) by (by left).
  assert (H2 : invocation_raises (eslint small_tree)) by (by left).
  destruct (Hf H1) as [_ Hl]. destruct (He H2) as [He0 _].
  destruct (Hnone eq_refl eq_refl) as (Hi & _ & Hx).
  split; [exact H1|]. split; [exact H2|].
  split; [by rewrite Hl, He0|]. split; [exact Hi|].
  rewrite Hx. reflexivity.
Defined.

Lemma C9_witness :
  all_issues (ScanResult_to_dict (run ascii_only rejects_unbalanced small_tree "t0")) =
  all_issues (ScanResult_to_dict (run ascii_only rejects_unbalanced small_tree "t1")).
Proof.
  exact (proj1 (C9_idempotent ascii_only rejects_unbalanced small_tree "t0" "t1"
                  eq_refl eq_refl)).
Defined.

Lemma C10_witness :
  Forall (fun i => (0 <= column i)%Z)
    (pattern_issues ascii_only rejects_unbalanced small_tree).
Proof.
  apply Forall_forall. intros i Hi. apply list_elem_of_In in Hi.
  refine (C10_columns_nonnegative ascii_only rejects_unbalanced small_tree i _ Hi).
  intros content lineno offset msg. unfold rejects_unbalanced.
  destruct (decide _); [|discriminate]. intros [= _ <- _]. lia.
Defined.

(** ** The count dictionaries and the gate *)

Section Counts.

Variable uni_alnum : N -> bool.
Variable ast_parse : text -> ParseOutcome.

Lemma bump_lookup key (m : gmap string Z) k :
  bump key m !! k =
  if decide (key = k) then Some (default 0 (m !! k) + 1)%Z else m !! k.
Proof.
  unfold bump. destruct (decide (key = k)) as [->|Hne].
  - by rewrite lookup_insert_eq.
  - by rewrite lookup_insert_ne.
Qed.

Lemma fold_bump_lookup (keyf : CodeIssue -> string) all (m : gmap string Z) k :
  fold_left (fun m i => bump (keyf i) m) all m !! k =
  let c := count_where (fun i => String.eqb (keyf i) k) all in
  if (c =? 0)%Z then m !! k else Some (default 0 (m !! k) + c)%Z.
Proof.
  revert m. induction all as [|i all IH]; intros m; [done|].
  simpl fold_left. rewrite IH. cbv zeta. rewrite bump_lookup.
  unfold count_where, len. simpl List.filter.
  destruct (String.eqb_spec (keyf i) k) as [Heq | Hne].
  - rewrite decide_True by done. simpl length.
    destruct (Z.eqb_spec (Z.of_nat (length (List.filter
      (fun i0 => String.eqb (keyf i0) k) all))) 0) as [H0 | H0].
    + rewrite Nat2Z.inj_succ, H0. simpl. done.
    + destruct (Z.eqb_spec (Z.of_nat (S (length (List.filter
        (fun i0 => String.eqb (keyf i0) k) all)))) 0); [lia|].
      simpl. f_equal. lia.
  - by rewrite decide_False by done.
Qed.

Lemma categorize_fold_dicts all r :
  issues_by_severity (fold_left categorize all r) =
    fold_left (fun m i => bump (Severity_value (severity i)) m) all
      (issues_by_severity r) ∧
  issues_by_type (fold_left categorize all r) =
    fold_left (fun m i => bump (IssueType_value (issue_type i)) m) all
      (issues_by_type r).
Proof.
  revert r. induction all as [|i all IH]; intros r; [done|].
  simpl. by destruct (IH (categorize r i)) as [-> ->].
Qed.

Lemma Severity_value_inj s1 s2 : Severity_value s1 = Severity_value s2 → s1 = s2.
Proof. by destruct s1, s2. Qed.

Lemma IssueType_value_inj t1 t2 : IssueType_value t1 = IssueType_value t2 → t1 = t2.
Proof. by destruct t1, t2. Qed.

Lemma count_where_ext (p q : CodeIssue -> bool) l :
  (∀ i, p i = q i) → count_where p l = count_where q l.
Proof. intros H. unfold count_where. by rewrite (List.filter_ext _ _ H). Qed.

Lemma count_where_pos (p : CodeIssue -> bool) l :
  count_where p l ≠ 0%Z → ∃ i, In i l ∧ p i = true.
Proof.
  unfold count_where, len. intros H.
  destruct (List.filter p l) as [|i l'] eqn:Hf; [done|].
  exists i. apply List.filter_In. rewrite Hf. by left.
Qed.

Lemma run_dicts root now :
  let all := pattern_issues uni_alnum ast_parse root ++ linter_issues root in
  issues_by_severity (run uni_alnum ast_parse root now) =
    fold_left (fun m i => bump (Severity_value (severity i)) m) all ∅ ∧
  issues_by_type (run uni_alnum ast_parse root now) =
    fold_left (fun m i => bump (IssueType_value (issue_type i)) m) all ∅.
Proof. cbv zeta. rewrite run_unfold; cbv zeta. apply categorize_fold_dicts. Qed.

(** X1. After a run, the count dictionaries hold, for every severity and
    every issue type, the exact number of issues that carry it, and no entry
    at all for one that no issue carries; they hold no other key. *)
Theorem X1_counts_per_key root now :
  let r := run uni_alnum ast_parse root now in
  (∀ s, issues_by_severity r !! Severity_value s =
        entry_for (count_where (has_severity s) (issues r))) ∧
  (∀ t, issues_by_type r !! IssueType_value t =
        entry_for (count_where (has_type t) (issues r))) ∧
  (∀ k v, issues_by_severity r !! k = Some v → ∃ s, k = Severity_value s) ∧
  (∀ k v, issues_by_type r !! k = Some v → ∃ t, k = IssueType_value t).
Proof.
  cbv zeta. rewrite run_issues. destruct (run_dicts root now) as [-> ->].
  set (all := pattern_issues uni_alnum ast_parse root ++ linter_issues root).
  repeat split.
  - intros s. rewrite fold_bump_lookup. cbv zeta. rewrite lookup_empty. simpl.
    unfold entry_for.
    rewrite (count_where_ext _ (has_severity s)); [done|].
    intros i. unfold has_severity.
    destruct (String.eqb_spec (Severity_value (severity i)) (Severity_value s)) as [H|H].
    + apply Severity_value_inj in H. by rewrite bool_decide_eq_true_2.
    + rewrite bool_decide_eq_false_2; [done|]. intros Heq. apply H. by rewrite Heq.
  - intros t. rewrite fold_bump_lookup. cbv zeta. rewrite lookup_empty. simpl.
    unfold entry_for.
    rewrite (count_where_ext _ (has_type t)); [done|].
    intros i. unfold has_type.
    destruct (String.eqb_spec (IssueType_value (issue_type i)) (IssueType_value t)) as [H|H].
    + apply IssueType_value_inj in H. by rewrite bool_decide_eq_true_2.
    + rewrite bool_decide_eq_false_2; [done|]. intros Heq. apply H. by rewrite Heq.
  - intros k v. rewrite fold_bump_lookup. cbv zeta. rewrite lookup_empty.
    destruct (Z.eqb_spec (count_where (fun i => String.eqb (Severity_value (severity i)) k) all) 0)
      as [|Hc]; [done|].
    intros _. apply count_where_pos in Hc as (i & _ & Hi).
    apply String.eqb_eq in Hi. eauto.
  - intros k v. rewrite fold_bump_lookup. cbv zeta. rewrite lookup_empty.
    destruct (Z.eqb_spec (count_where (fun i => String.eqb (IssueType_value (issue_type i)) k) all) 0)
      as [|Hc]; [done|].
    intros _. apply count_where_pos in Hc as (i & _ & Hi).
    apply String.eqb_eq in Hi. eauto.
Qed.

Lemma run_subsets root now :
  let all := pattern_issues uni_alnum ast_parse root ++ linter_issues root in
  critical_issues (run uni_alnum ast_parse root now) = List.filter is_critical all ∧
  auto_fixable_issues (run uni_alnum ast_parse root now) = List.filter fixable all.
Proof. cbv zeta. rewrite run_unfold; cbv zeta. apply categorize_fold_subsets. Qed.

(** X2. The exit status of a run is 1 exactly when some issue of the
    result, whatever its source, is critical, and 0 otherwise. *)
Theorem X2_gate root now :
  let r := run uni_alnum ast_parse root now in
  (exit_code r = 1%Z ↔ ∃ i, In i (issues r) ∧ severity i = CRITICAL) ∧
  (exit_code r = 0%Z ↔ ∀ i, In i (issues r) → severity i ≠ CRITICAL).
Proof.
  cbv zeta. rewrite run_issues. unfold exit_code.
  destruct (run_subsets root now) as [-> _].
  set (all := pattern_issues uni_alnum ast_parse root ++ linter_issues root).
  rewrite gate_existsb.
  destruct (existsb is_critical all) eqn:He.
  - apply existsb_exists in He as (i & Hi & Hc).
    apply bool_decide_eq_true in Hc.
    split; split; try done; [eauto|]. intros H. by destruct (H i Hi).
  - split; split; try done.
    + intros (i & Hi & Hc).
      assert (existsb is_critical all = true); [|congruence].
      apply existsb_exists. exists i. split; [done|]. by apply bool_decide_eq_true.
    + intros _ i Hi Hc.
      assert (existsb is_critical all = true); [|congruence].
      apply existsb_exists. exists i. split; [done|]. by apply bool_decide_eq_true.
Qed.

(** X3. [analyze] does not reset the result it fills: called a second time
    on the same analyzer it reports the same issues and the same
    [issues_found], while the counts, the critical and auto-fixable lists and
    [files_scanned] hold everything twice. *)
Theorem X3_second_analyze_accumulates root now :
  let once := analyze uni_alnum ast_parse (CodeAnalyzer_init root now) in
  let twice := analyze uni_alnum ast_parse once in
  issues (result twice) = issues (result once) ∧
  issues_found (result twice) = issues_found (result once) ∧
  sum_values (issues_by_severity (result twice)) = (2 * issues_found (result once))%Z ∧
  sum_values (issues_by_type (result twice)) = (2 * issues_found (result once))%Z ∧
  critical_issues (result twice) =
    critical_issues (result once) ++ critical_issues (result once) ∧
  auto_fixable_issues (result twice) =
    auto_fixable_issues (result once) ++ auto_fixable_issues (result once) ∧
  files_scanned (result twice) = (2 * files_scanned (result once))%Z.
Proof.
  cbv zeta.
  rewrite (analyze_unfold uni_alnum ast_parse (analyze _ _ _)). cbv zeta.
  rewrite analyze_project_root.
  rewrite (analyze_unfold uni_alnum ast_parse (CodeAnalyzer_init root now)). cbv zeta.
  cbn [project_root result CodeAnalyzer_init].
  set (all := pattern_issues uni_alnum ast_parse root ++ linter_issues root).
  set (r0 := set_issues all (add_files_scanned (len (rglob_py root)) (ScanResult_new now))).
  set (r1 := fold_left categorize all r0).
  set (r2 := set_issues all (add_files_scanned (len (rglob_py root)) r1)).
  destruct (categorize_fold_frame all r0) as (_ & Hfs1 & Hfound1 & Hiss1).
  destruct (categorize_fold_counts all r0) as [Hsev1 Hty1].
  destruct (categorize_fold_subsets all r0) as [Hc1 Hf1].
  destruct (categorize_fold_frame all r2) as (_ & Hfs2 & Hfound2 & Hiss2).
  destruct (categorize_fold_counts all r2) as [Hsev2 Hty2].
  destruct (categorize_fold_subsets all r2) as [Hc2 Hf2].
  fold r1 in Hfs1, Hfound1, Hiss1, Hsev1, Hty1, Hc1, Hf1.
  rewrite Hiss2, Hfound2, Hsev2, Hty2, Hc2, Hf2, Hfs2.
  subst r2. cbn [issues issues_found set_issues add_files_scanned
    issues_by_severity issues_by_type critical_issues auto_fixable_issues files_scanned].
  rewrite Hsev1, Hty1, Hc1, Hf1, Hiss1, Hfound1, Hfs1. subst r0.
  cbn [issues issues_found set_issues add_files_scanned ScanResult_new
    issues_by_severity issues_by_type critical_issues auto_fixable_issues files_scanned].
  rewrite sum_values_empty. repeat split; try done; lia.
Qed.

End Counts.

(** ** Linter adapters *)

Section Adapters.

Variable uni_alnum : N -> bool.
Variable ast_parse : text -> ParseOutcome.

Lemma in_append_each {A} (build : A -> option CodeIssue) (l : list A) i :
  In i (append_each build l).1 → ∃ x, In x l ∧ build x = Some i.
Proof.
  induction l as [|x l IH]; simpl; [done|].
  destruct (build x) as [i0|] eqn:Hx; [|done].
  destruct (append_each build l) as [acc fin]. simpl in *.
  intros [<- | H]; [by eauto|]. destruct (IH H) as (y & Hy & Hb). eauto.
Qed.

Lemma append_each_prefix {A} (build : A -> option CodeIssue) (l : list A) :
  translated_until_error build l (append_each build l).1.
Proof.
  unfold translated_until_error. induction l as [|x l IH]; simpl.
  - exists [], []. by eauto.
  - destruct (build x) as [i0|] eqn:Hx.
    + destruct (append_each build l) as [acc fin]. simpl in *.
      destruct IH as (pre & rest & -> & Hmap & Hrest).
      exists (x :: pre), rest. simpl. rewrite Hx, Hmap. done.
    + exists [], (x :: l). simpl. repeat split; [done..|]. right. eauto.
Qed.

Lemma append_each_app {A} (build : A -> option CodeIssue) (l1 l2 : list A) :
  append_each build (l1 ++ l2) =
  if (append_each build l1).2
  then ((append_each build l1).1 ++ (append_each build l2).1, (append_each build l2).2)
  else ((append_each build l1).1, false).
Proof.
  induction l1 as [|x l1 IH]; simpl.
  - by destruct (append_each build l2).
  - destruct (build x) as [i0|]; [|done]. rewrite IH.
    destruct (append_each build l1) as [acc1 [|]]; simpl; [|done].
    by destruct (append_each build l2).
Qed.

Lemma append_each_map {A B} (g : A -> B) (build : B -> option CodeIssue) (l : list A) :
  append_each build (List.map g l) = append_each (fun x => build (g x)) l.
Proof.
  induction l as [|x l IH]; simpl; [done|]. rewrite IH. done.
Qed.

(** The nested loops of the eslint adapter are one loop over the messages. *)
Lemma eslint_items_pairs data :
  eslint_items data =
  append_each (fun p => eslint_issue p.1 p.2) (eslint_pairs data).
Proof.
  induction data as [|item data IH]; [done|].
  unfold eslint_pairs in *. simpl. rewrite append_each_app, append_each_map.
  simpl. rewrite <- IH.
  destruct (append_each (eslint_issue item) (e_messages item)) as [here [|]]; simpl;
    [|done].
  by destruct (eslint_items data).
Qed.

Lemma in_adapter_issues {A} (translate : list A -> list CodeIssue * bool)
    (r : ToolRun A) i :
  In i (adapter_issues translate r) →
  (∀ j, ¬ In j (translate []).1) →
  ∃ returncode data, r = RunCompleted returncode (StdoutData data) ∧
                     returncode ≠ 0%Z ∧ In i (translate data).1.
Proof.
  intros Hi Hnil. destruct r as [|rc out]; [done|]. simpl in Hi.
  destruct (Z.eqb_spec rc 0); [done|].
  destruct out as [| |data]; [by apply Hnil in Hi|done|]. eauto.
Qed.

Lemma in_flake8_issues (r : ToolRun Flake8Item) i :
  In i (adapter_issues (append_each flake8_issue) r) →
  ∃ item, flake8_issue item = Some i.
Proof.
  intros H. apply in_adapter_issues in H as (rc & data & _ & _ & H); [|by intros j []].
  apply in_append_each in H as (item & _ & H). eauto.
Qed.

Lemma in_eslint_issues (r : ToolRun EslintItem) i :
  In i (adapter_issues eslint_items r) →
  ∃ item msg, eslint_issue item msg = Some i.
Proof.
  intros H. apply in_adapter_issues in H as (rc & data & _ & _ & H); [|by intros j []].
  rewrite eslint_items_pairs in H.
  apply in_append_each in H as ([item msg] & _ & H). eauto.
Qed.

Lemma flake8_issue_fields item i :
  flake8_issue item = Some i →
  ∃ ty, f8_type item = Some ty ∧ severity i = _map_flake8_severity ty ∧
        issue_type i = LINTING_ERROR ∧ fixable i = true ∧
        f8_id item = Some (rule_id i) ∧ suggestion i = None.
Proof.
  unfold flake8_issue. intros H.
  destruct (f8_filename item), (f8_line_number item), (f8_column_number item),
    (f8_type item) as [ty|], (f8_text item), (f8_id item) as [id|];
    simpl in H; try done.
  injection H as <-. by exists ty.
Qed.

Lemma eslint_issue_fields item msg i :
  eslint_issue item msg = Some i →
  ∃ sev, e_severity msg = Some sev ∧ severity i = _map_eslint_severity sev ∧
         issue_type i = LINTING_ERROR ∧ fixable i = e_fix msg ∧ suggestion i = None.
Proof.
  unfold eslint_issue. intros H.
  destruct (e_filePath item), (e_line msg), (e_column msg),
    (e_severity msg) as [sev|], (e_message msg), (e_ruleId msg);
    simpl in H; try done.
  injection H as <-. by exists sev.
Qed.

Lemma _map_eslint_severity_range sev :
  _map_eslint_severity sev = HIGH ∨ _map_eslint_severity sev = MEDIUM ∨
  _map_eslint_severity sev = LOW.
Proof.
  unfold _map_eslint_severity.
  destruct (sev =? 2)%Z; [auto|]. destruct (sev =? 1)%Z; auto.
Qed.

Lemma eslint_not_critical (r : ToolRun EslintItem) :
  existsb is_critical (adapter_issues eslint_items r) = false.
Proof.
  apply not_true_is_false. intros H. apply existsb_exists in H as (i & Hi & Hc).
  apply bool_decide_eq_true in Hc.
  apply in_eslint_issues in Hi as (item & msg & Hi).
  apply eslint_issue_fields in Hi as (sev & _ & Hs & _).
  destruct (_map_eslint_severity_range sev) as [H | [H | H]]; congruence.
Qed.

(** X4. No finding of the eslint adapter is critical: each is high, medium
    or low according to the numeric severity 2, 1 or anything else.  So
    eslint findings never decide the exit status, which is that of the
    pattern detectors and flake8 alone. *)
Theorem X4_eslint_never_blocks root now :
  (∀ i, In i (adapter_issues eslint_items (eslint root)) →
        ∃ item msg sev,
          eslint_issue item msg = Some i ∧ e_severity msg = Some sev ∧
          severity i = (if (sev =? 2)%Z then HIGH
                        else if (sev =? 1)%Z then MEDIUM else LOW) ∧
          severity i ≠ CRITICAL) ∧
  exit_code (run uni_alnum ast_parse root now) =
    if existsb is_critical
         (pattern_issues uni_alnum ast_parse root ++
          adapter_issues (append_each flake8_issue) (flake8 root))
    then 1%Z else 0%Z.
Proof.
  split.
  - intros i Hi. apply in_eslint_issues in Hi as (item & msg & Hi).
    destruct (eslint_issue_fields _ _ _ Hi) as (sev & Hsev & Hs & _).
    exists item, msg, sev. repeat split; [done..|].
    destruct (_map_eslint_severity_range sev) as [H | [H | H]]; congruence.
  - unfold exit_code.
    destruct (categorize_fold_subsets
      (pattern_issues uni_alnum ast_parse root ++ linter_issues root)
      (set_issues (pattern_issues uni_alnum ast_parse root ++ linter_issues root)
         (add_files_scanned (len (rglob_py root)) (ScanResult_new now))))
      as [Hc _].
    rewrite run_unfold; cbv zeta. rewrite Hc. cbn [critical_issues set_issues
      add_files_scanned ScanResult_new app].
    rewrite gate_existsb. unfold linter_issues.
    rewrite !existsb_app, eslint_not_critical. by rewrite orb_false_r.
Qed.

Lemma _map_flake8_severity_table ty :
  (_map_flake8_severity ty = HIGH ↔ ∃ rest, ty = Some (String "E" rest)) ∧
  (_map_flake8_severity ty = CRITICAL ↔ ∃ rest, ty = Some (String "F" rest)) ∧
  (_map_flake8_severity ty = LOW ↔
     ty = None ∨ ty = Some EmptyString ∨ ∃ rest, ty = Some (String "W" rest)) ∧
  _map_flake8_severity ty ≠ INFO.
Proof.
  unfold _map_flake8_severity. destruct ty as [[|c rest]|].
  { simpl. repeat split; try done; try (by intros [? [=]]); by auto. }
  2: { simpl. repeat split; try done; try (by intros [? [=]]); by auto. }
  destruct (Ascii.eqb_spec c "E") as [->|HE].
  { repeat split; try done; try (by intros [? [=]]);
      try (by intros [[=] | [[=] | [? [=]]]]); by eauto. }
  destruct (Ascii.eqb_spec c "F") as [->|HF].
  { repeat split; try done; try (by intros [? [=]]);
      try (by intros [[=] | [[=] | [? [=]]]]); by eauto. }
  destruct (Ascii.eqb_spec c "W") as [->|HW].
  { repeat split; try done; try (by intros [? [=]]);
      try (by intros [[=] | [[=] | [? [=]]]]); by eauto. }
  repeat split; try done.
  - by intros [r [= -> _]].
  - by intros [r [= -> _]].
  - by intros [[=] | [[=] | [r [= -> _]]]].
Qed.

(** X5. On a flake8 report whose findings carry a string or null under
    [type] and [id], every finding of the adapter is a linting error
    declared fixable, without suggestion, whose rule id is the finding's
    id, null included.  It is critical exactly when the finding's type is a
    string that begins with [F], high when it begins with [E], low when it
    begins with [W], is empty or is null, and medium otherwise, never
    info. *)
Theorem X5_flake8_findings (r : ToolRun Flake8Item) i :
  In i (adapter_issues (append_each flake8_issue) r) →
  ∃ item ty,
    flake8_issue item = Some i ∧ f8_type item = Some ty ∧
    f8_id item = Some (rule_id i) ∧
    issue_type i = LINTING_ERROR ∧ fixable i = true ∧ suggestion i = None ∧
    (severity i = CRITICAL ↔ ∃ rest, ty = Some (String "F" rest)) ∧
    (severity i = HIGH ↔ ∃ rest, ty = Some (String "E" rest)) ∧
    (severity i = LOW ↔
       ty = None ∨ ty = Some EmptyString ∨ ∃ rest, ty = Some (String "W" rest)) ∧
    (severity i = MEDIUM ↔
       ∃ c rest, ty = Some (String c rest) ∧ c ≠ "E"%char ∧ c ≠ "F"%char ∧
                 c ≠ "W"%char) ∧
    severity i ≠ INFO.
Proof.
  intros Hi. apply in_flake8_issues in Hi as (item & Hi).
  destruct (flake8_issue_fields _ _ Hi) as (ty & Hty & Hs & Ht & Hf & Hr & Hsug).
  exists item, ty.
  destruct (_map_flake8_severity_table ty) as (HE & HF & HW & HI).
  rewrite Hs. split_and!; try done.
  unfold _map_flake8_severity. destruct ty as [[|c rest]|].
  - split; [done|]. by intros (? & ? & [=] & _).
  - destruct (Ascii.eqb_spec c "E") as [->|HcE].
    { split; [done|]. by intros (? & ? & [= <- _] & ? & _). }
    destruct (Ascii.eqb_spec c "F") as [->|HcF].
    { split; [done|]. by intros (? & ? & [= <- _] & _ & ? & _). }
    destruct (Ascii.eqb_spec c "W") as [->|HcW].
    { split; [done|]. by intros (? & ? & [= <- _] & _ & _ & ?). }
    split; [|done]. intros _. by exists c, rest.
  - split; [done|]. by intros (? & ? & [=] & _).
Qed.

(** X6. An adapter whose tool exits with status 0 adds nothing, whatever the
    tool printed.  With another status and parsed output, it adds the
    translations, in order, of the findings that come before the first one
    whose translation raises (all of them when none does): for flake8 the
    elements of the report, for eslint the messages of all its file objects
    in turn. *)
Theorem X6_adapter_translates_prefix :
  (∀ (out : Stdout Flake8Item),
     adapter_issues (append_each flake8_issue) (RunCompleted 0 out) = []) ∧
  (∀ (out : Stdout EslintItem),
     adapter_issues eslint_items (RunCompleted 0 out) = []) ∧
  (∀ returncode data, returncode ≠ 0%Z →
     translated_until_error flake8_issue data
       (adapter_issues (append_each flake8_issue)
          (RunCompleted returncode (StdoutData data)))) ∧
  (∀ returncode data, returncode ≠ 0%Z →
     translated_until_error (fun p => eslint_issue p.1 p.2) (eslint_pairs data)
       (adapter_issues eslint_items (RunCompleted returncode (StdoutData data)))).
Proof.
  repeat split; try done.
  - intros rc data Hrc. simpl. destruct (Z.eqb_spec rc 0); [done|].
    apply append_each_prefix.
  - intros rc data Hrc. simpl. destruct (Z.eqb_spec rc 0); [done|].
    rewrite eslint_items_pairs. apply append_each_prefix.
Qed.

End Adapters.

(** ** What the pattern detectors report, and where *)

Section Locations.

Variable uni_alnum : N -> bool.
Variable ast_parse : text -> ParseOutcome.

Local Abbreviation search := (re_search uni_alnum).

Lemma occurs_at_0 s w : occurs_at s w 0 ↔ startswith w s = true.
Proof. by rewrite startswith_true. Qed.

Lemma occurs_at_cons c s w k : occurs_at (c :: s) w (S k) ↔ occurs_at s w k.
Proof. done. Qed.

Lemma occurs_at_nil w k : occurs_at [] w k → w = [].
Proof.
  intros H. destruct w as [|a w]; [done|].
  specialize (H 0 a eq_refl). by rewrite lookup_nil in H.
Qed.

(** [find] answers the first position at which the string occurs. *)
Lemma find_first_occurrence w s :
  (0 <= find w s)%Z → first_occurrence s w (find w s).
Proof.
  unfold first_occurrence. induction s as [|c s IH]; simpl.
  - destruct (startswith w []) eqn:Hs; [|lia]. intros _.
    split; [done|]. split; [by apply occurs_at_0|]. intros k Hk. simpl in Hk. lia.
  - destruct (startswith w (c :: s)) eqn:Hs.
    + intros _. split; [done|]. split; [by apply occurs_at_0|].
      intros k Hk. simpl in Hk. lia.
    + destruct (Z.ltb_spec (find w s) 0) as [Hneg | Hpos]; [lia|]. intros _.
      destruct (IH Hpos) as (_ & Hocc & Hmin).
      split; [lia|].
      replace (Z.to_nat (find w s + 1)) with (S (Z.to_nat (find w s))) by lia.
      split; [by apply occurs_at_cons|].
      intros [|k] Hk.
      * rewrite occurs_at_0. congruence.
      * rewrite occurs_at_cons. apply Hmin. lia.
Qed.

Lemma split_length sep s :
  len (split sep s) = (1 + len (List.filter (fun c => (c =? sep)%N) s))%Z.
Proof.
  unfold len. induction s as [|c s IH]; simpl; [done|].
  destruct (c =? sep)%N; simpl.
  - lia.
  - destruct (split sep s) as [|l ls]; simpl in *; lia.
Qed.

Lemma in_enumerate {A} (l : list A) start n x :
  In (n, x) (enumerate l start) →
  ∃ k, l !! k = Some x ∧ n = (start + Z.of_nat k)%Z.
Proof.
  revert start. induction l as [|y l IH]; intros start; simpl; [done|].
  intros [[= <- <-] | H].
  - exists 0. split; [done|lia].
  - apply IH in H as (k & Hk & ->). exists (S k). split; [done|lia].
Qed.

Lemma find_line_range lines pattern :
  (1 <= _find_line_with_pattern uni_alnum lines pattern)%Z ∧
  (_find_line_with_pattern uni_alnum lines pattern <= Z.max 1 (len lines))%Z.
Proof.
  destruct (_find_line_with_pattern_spec uni_alnum lines pattern)
    as [(k & l & Hk & _ & _ & ->) | [_ ->]]; [|lia].
  apply lookup_lt_Some in Hk. unfold len. lia.
Qed.

Lemma in_python_lines p lines i :
  In i (line_issues (py_line_issues uni_alnum) p lines) →
  ∃ k l, lines !! k = Some l ∧ line i = (1 + Z.of_nat k)%Z ∧
         In i (py_line_issues uni_alnum p (1 + Z.of_nat k) l).
Proof.
  intros H. apply in_line_issues in H as (n & l & Hn & H).
  apply in_enumerate in Hn as (k & Hk & ->).
  exists k, l. split; [done|]. split; [|done]. by eapply py_line_issues_line.
Qed.

Lemma in_javascript_lines p lines i :
  In i (line_issues (js_line_issues uni_alnum) p lines) →
  ∃ k l, lines !! k = Some l ∧ line i = (1 + Z.of_nat k)%Z ∧
         In i (js_line_issues uni_alnum p (1 + Z.of_nat k) l).
Proof.
  intros H. apply in_line_issues in H as (n & l & Hn & H).
  apply in_enumerate in Hn as (k & Hk & ->).
  exists k, l. split; [done|]. split; [|done]. by eapply js_line_issues_line.
Qed.

(** X7. Line numbers stay inside the file.  A text has one line more than
    it has newline characters; every issue of the JavaScript detector, and
    every issue of the Python detector other than the syntax error, which
    takes its line from the parser, lies on one of these lines. *)
Theorem X7_lines_in_range (f : SrcFile) content i :
  read_text f = Some content →
  let lines := split NL content in
  len lines = (1 + newlines content)%Z ∧
  (In i (scan_javascript_file uni_alnum f) → (1 <= line i <= len lines)%Z) ∧
  (In i (scan_python_file uni_alnum ast_parse f) →
   issue_type i ≠ SYNTAX_ERROR → (1 <= line i <= len lines)%Z).
Proof.
  intros Hread lines.
  assert (Hlen : len lines = (1 + newlines content)%Z) by apply split_length.
  assert (Hsec : In i (security_issues uni_alnum (path f) content lines) →
                 (1 <= line i <= len lines)%Z).
  { intros H. apply in_security_issues in H as (e & _ & _ & ->).
    destruct e as [[[pat d] sv] fx]. simpl.
    pose proof (find_line_range lines pat). unfold newlines, len in *. lia. }
  split; [done|]. split.
  - unfold scan_javascript_file. rewrite Hread. intros H.
    apply in_javascript_lines in H as (k & l & Hk & -> & _).
    apply lookup_lt_Some in Hk. unfold lines, len in *. lia.
  - unfold scan_python_file. rewrite Hread. cbv zeta. rewrite in_app_iff.
    intros [H | H] Hty.
    + apply in_python_lines in H as (k & l & Hk & -> & _).
      apply lookup_lt_Some in Hk. unfold lines, len in *. lia.
    + destruct (ast_parse content); [by apply Hsec| |done].
      destruct H as [<- | H]; [done|by apply Hsec].
Qed.

(** X8. A column computed by [str.find] is the place of the first occurrence
    of the rule's keyword in the reported line: [==], [var] or [console]
    for the three JavaScript rules, [print] for the Python rule. *)
Theorem X8_columns_point_at_keyword (f : SrcFile) content i :
  read_text f = Some content →
  let lines := split NL content in
  (In i (scan_javascript_file uni_alnum f) →
   ∃ k l, lines !! k = Some l ∧ line i = (1 + Z.of_nat k)%Z ∧
     ((severity i = MEDIUM ∧ first_occurrence l (codes "==") (column i)) ∨
      (severity i = LOW ∧ first_occurrence l (codes "var") (column i)) ∨
      (severity i = INFO ∧ first_occurrence l (codes "console") (column i)))) ∧
  (In i (scan_python_file uni_alnum ast_parse f) → issue_type i = CODE_SMELL →
   ∃ k l, lines !! k = Some l ∧ line i = (1 + Z.of_nat k)%Z ∧
          first_occurrence l (codes "print") (column i)).
Proof.
  intros Hread lines. split.
  - unfold scan_javascript_file. rewrite Hread. intros H.
    apply in_javascript_lines in H as (k & l & Hk & Hline & H).
    exists k, l. split; [done|]. split; [done|].
    unfold js_line_issues in H. rewrite !in_app_iff in H.
    destruct H as [H | [H | H]].
    + destruct (search loose_eq_re l) eqn:Hs; [|done]. destruct H as [<- | []].
      left. split; [done|]. by apply find_first_occurrence, (loose_eq_re_column uni_alnum).
    + destruct (search var_re l) eqn:Hs; [|done]. destruct H as [<- | []].
      right; left. split; [done|]. by apply find_first_occurrence, (var_re_column uni_alnum).
    + destruct (search console_re l) eqn:Hs; [|done]. destruct H as [<- | []].
      right; right. split; [done|].
      by apply find_first_occurrence, (console_re_column uni_alnum).
  - unfold scan_python_file. rewrite Hread. cbv zeta. rewrite in_app_iff.
    intros [H | H] Hty.
    + apply in_python_lines in H as (k & l & Hk & Hline & H).
      exists k, l. split; [done|]. split; [done|].
      unfold py_line_issues in H. rewrite in_app_iff in H. destruct H as [H | H].
      * destruct (search print_re l) eqn:Hs; [|done]. destruct H as [<- | []].
        by apply find_first_occurrence, (print_re_column uni_alnum).
      * destruct (re_match _ _ _); [|done]. destruct H as [<- | []]. done.
    + assert (Hsec : ∀ j, In j (security_issues uni_alnum (path f) content lines) →
                          issue_type j = SECURITY_VULNERABILITY)
        by apply security_issues_type.
      destruct (ast_parse content); [apply Hsec in H; congruence| |done].
      destruct H as [<- | H]; [done|apply Hsec in H; congruence].
Qed.

Lemma scan_javascript_file_severity (f : SrcFile) i :
  In i (scan_javascript_file uni_alnum f) →
  severity i = MEDIUM ∨ severity i = LOW ∨ severity i = INFO.
Proof.
  unfold scan_javascript_file. destruct (read_text f) as [content|]; [|done]. intros H.
  apply in_javascript_lines in H as (k & l & _ & _ & H).
  unfold js_line_issues in H. rewrite !in_app_iff in H.
  destruct H as [H | [H | H]];
    match type of H with In _ (if ?b then _ else _) => destruct b end;
    try done; destruct H as [<- | []]; auto.
Qed.

Lemma in_security_patterns_critical (e : regex * string * Severity * bool) :
  In e security_patterns → e.1.2 = CRITICAL →
  e.1.1.2 = "Unsafe eval() usage" ∨ e.1.1.2 = "Unsafe exec() usage".
Proof.
  unfold security_patterns. simpl.
  intros [<- | [<- | [<- | [<- | [<- | [<- | [<- | [<- | []]]]]]]]]; simpl;
    try done; auto.
Qed.

(** X9. Among the pattern detectors only three things are critical: a syntax
    error, a use of [eval(] and a use of [exec(] in a Python file.  No issue
    of the JavaScript detector is critical, so a tree without Python files
    and without linters always passes the gate. *)
Theorem X9_critical_pattern_issues root i :
  In i (pattern_issues uni_alnum ast_parse root) →
  (severity i = CRITICAL →
     issue_type i = SYNTAX_ERROR ∨
     (issue_type i = SECURITY_VULNERABILITY ∧
      (message i = "Security: Unsafe eval() usage" ∨
       message i = "Security: Unsafe exec() usage"))) ∧
  (rglob_py root = [] → severity i ≠ CRITICAL).
Proof.
  unfold pattern_issues. rewrite in_app_iff. intros Hi.
  assert (Hjs : ∀ f, In i (scan_javascript_file uni_alnum f) → severity i ≠ CRITICAL).
  { intros f H. apply scan_javascript_file_severity in H as [H | [H | H]]; congruence. }
  split.
  - intros Hc. destruct Hi as [H | H]; apply in_flat_map in H as (f & _ & H);
      [|by apply Hjs in H].
    unfold scan_python_file in H. destruct (read_text f) as [content|]; [|done].
    apply in_app_iff in H as [H | H].
    + apply in_python_lines in H as (k & l & _ & _ & H).
      unfold py_line_issues in H. rewrite in_app_iff in H.
      destruct H as [H | H];
        match type of H with In _ (if ?b then _ else _) => destruct b end;
        try done; by destruct H as [<- | []].
    + assert (Hsec : In i (security_issues uni_alnum (path f) content (split NL content)) →
        issue_type i = SECURITY_VULNERABILITY ∧
        (message i = "Security: Unsafe eval() usage" ∨
         message i = "Security: Unsafe exec() usage")).
      { intros Hs. apply in_security_issues in Hs as (e & He & _ & ->).
        pose proof (in_security_patterns_critical e He) as Hd.
        destruct e as [[[pat d] sv] fx]. simpl in *.
        split; [done|]. destruct (Hd Hc) as [-> | ->]; auto. }
      destruct (ast_parse content); [right; by apply Hsec| |done].
      destruct H as [<- | H]; [by left|right; by apply Hsec].
  - intros Hpy. rewrite Hpy in Hi. destruct Hi as [[] | H].
    apply in_flat_map in H as (f & _ & H). by apply Hjs in H.
Qed.

(** X10. Every issue of the pattern detectors names a file that was found
    and could be read, has no rule id, and is not a linting error, while
    every issue of the linter adapters is one: the two sources can be told
    apart. *)
Theorem X10_issue_sources root i :
  (In i (pattern_issues uni_alnum ast_parse root) →
   rule_id i = None ∧ issue_type i ≠ LINTING_ERROR ∧
   ∃ f content, In f (scanned_files root) ∧ read_text f = Some content ∧
                file i = path f) ∧
  (In i (linter_issues root) →
   issue_type i = LINTING_ERROR ∧ suggestion i = None).
Proof.
  split.
  - unfold pattern_issues, scanned_files. rewrite in_app_iff.
    intros [H | H]; apply in_flat_map in H as (f & Hf & H).
    + unfold scan_python_file in H. destruct (read_text f) as [content|] eqn:Hr; [|done].
      assert (Hfile : ∃ f' content', In f' (rglob_py root ++ rglob_js root ++ rglob_ts root)
                        ∧ read_text f' = Some content' ∧ path f = path f').
      { exists f, content. split; [|done]. apply in_app_iff. by left. }
      assert (Hsec : In i (security_issues uni_alnum (path f) content (split NL content)) →
                     rule_id i = None ∧ issue_type i ≠ LINTING_ERROR ∧ file i = path f).
      { intros Hs. apply in_security_issues in Hs as (e & _ & _ & ->).
        by destruct e as [[[pat d] sv] fx]. }
      apply in_app_iff in H as [H | H].
      * apply in_python_lines in H as (k & l & _ & _ & H).
        unfold py_line_issues in H. rewrite in_app_iff in H.
        destruct H as [H | H];
          match type of H with In _ (if ?b then _ else _) => destruct b end;
          try done; destruct H as [<- | []]; by repeat split.
      * destruct (ast_parse content).
        -- destruct (Hsec H) as (? & ? & ->). by repeat split.
        -- destruct H as [<- | H]; [by repeat split|].
           destruct (Hsec H) as (? & ? & ->). by repeat split.
        -- done.
    + unfold scan_javascript_file in H.
      destruct (read_text f) as [content|] eqn:Hr; [|done].
      apply in_javascript_lines in H as (k & l & _ & _ & H).
      unfold js_line_issues in H. rewrite !in_app_iff in H.
      assert (Hin : In f (rglob_py root ++ rglob_js root ++ rglob_ts root))
        by (apply in_app_iff; by right).
      destruct H as [H | [H | H]];
        match type of H with In _ (if ?b then _ else _) => destruct b end;
        try done; destruct H as [<- | []]; repeat split; try done; eauto.
  - unfold linter_issues. rewrite in_app_iff. intros [H | H].
    + apply in_flake8_issues in H as (item & H).
      by apply flake8_issue_fields in H as (? & _ & _ & ? & _ & _ & ?).
    + apply in_eslint_issues in H as (item & msg & H).
      by apply eslint_issue_fields in H as (? & _ & _ & ? & _ & ?).
Qed.

End Locations.

(** ** What each line rule looks for *)

Section RuleShapes.

Variable uni_alnum : N -> bool.

Local Abbreviation ends := (ends uni_alnum).
Local Abbreviation search := (re_search uni_alnum).
Local Abbreviation cls_at := (class_at uni_alnum).

Lemma occurs_at_app s w1 w2 i :
  occurs_at s (w1 ++ w2) i ↔ occurs_at s w1 i ∧ occurs_at s w2 (i + length w1).
Proof.
  split; [intros H; split; [by eapply occurs_at_app_l|by apply occurs_at_app_r]|].
  intros [H1 H2] k c Hk. apply lookup_app_Some in Hk as [Hk | [Hle Hk]].
  - by apply H1.
  - replace (i + k) with (i + length w1 + (k - length w1)) by lia. by apply H2.
Qed.

Lemma occurs_at_bound s w i : occurs_at s w i → w ≠ [] → i + length w ≤ length s.
Proof.
  intros H Hne.
  destruct (lookup_lt_is_Some_2 w (length w - 1)) as [c Hc].
  { destruct w; [done|]. simpl. lia. }
  apply H, lookup_lt_Some in Hc. destruct w; [done|]. simpl in *. lia.
Qed.

Lemma contains_occurs w l : contains w l = true ↔ ∃ i, occurs_at l w i.
Proof.
  unfold contains. rewrite Z.leb_le. split.
  - intros H. apply find_first_occurrence in H as (_ & H & _). eauto.
  - intros [i H]. by eapply find_occurs.
Qed.

Lemma in_ends_lit_occurs s w i j :
  In j (ends s (lit w) i) ↔ j = i + length w ∧ occurs_at s w i.
Proof. apply in_ends_lit. Qed.

Lemma console_re_ends l i :
  (∃ j, In j (ends l console_re i)) ↔
  occurs_at l (codes "console.log") i ∨ occurs_at l (codes "console.debug") i ∨
  occurs_at l (codes "console.info") i.
Proof.
  unfold console_re. rewrite !cat_all_cons.
  change (codes "console.log") with (codes "console." ++ codes "log").
  change (codes "console.debug") with (codes "console." ++ codes "debug").
  change (codes "console.info") with (codes "console." ++ codes "info").
  rewrite !occurs_at_app. split.
  - intros (j & H). apply in_ends_cat in H as (k & Hk & H).
    apply in_ends_lit_occurs in Hk as [-> Hk].
    apply in_ends_cat in H as (m & Hm & _).
    apply in_ends_alt in Hm as [Hm | Hm]; [|apply in_ends_alt in Hm as [Hm | Hm]];
      apply in_ends_lit_occurs in Hm as [_ Hm]; auto.
  - intros H.
    assert (Hc : occurs_at l (codes "console.") i) by (destruct H as [[? _] | [[? _] | [? _]]]; done).
    assert (Hm : ∃ m, In m (ends l (Alt (lit (codes "log"))
                 (Alt (lit (codes "debug")) (lit (codes "info"))))
                 (i + length (codes "console.")))).
    { destruct H as [[_ H] | [[_ H] | [_ H]]]; eexists; apply in_ends_alt.
      - left. apply in_ends_lit_occurs. by split.
      - right. apply in_ends_alt. left. apply in_ends_lit_occurs. by split.
      - right. apply in_ends_alt. right. apply in_ends_lit_occurs. by split. }
    destruct Hm as [m Hm]. exists m.
    apply in_ends_cat. exists (i + length (codes "console.")).
    split; [by apply in_ends_lit_occurs|].
    apply in_ends_cat. exists m. split; [done|]. by apply in_ends_eps.
Qed.

Lemma console_re_search l : search console_re l = console_call l.
Proof.
  apply eq_true_iff_eq. unfold console_call.
  rewrite !orb_true_iff, !contains_occurs, re_search_true. split.
  - intros (i & j & _ & H).
    destruct (proj1 (console_re_ends l i) (ex_intro _ j H)) as [H1 | [H1 | H1]]; eauto.
  - intros H.
    assert (∃ i, occurs_at l (codes "console.log") i ∨
                 occurs_at l (codes "console.debug") i ∨
                 occurs_at l (codes "console.info") i) as [i Hi].
    { destruct H as [[[i H] | [i H]] | [i H]]; exists i; auto. }
    destruct (proj2 (console_re_ends l i) Hi) as [j Hj].
    exists i, j. split; [|done].
    destruct Hi as [Hi | [Hi | Hi]]; apply occurs_at_bound in Hi; try done; lia.
Qed.

Lemma info_js_line_issues p n l :
  List.filter (has_severity INFO) (js_line_issues uni_alnum p n l) =
  if console_call l then [console_issue p n l] else [].
Proof.
  rewrite <- console_re_search. unfold js_line_issues.
  by destruct (search loose_eq_re l), (search var_re l), (search console_re l).
Qed.

Lemma js_file_line (f : SrcFile) content k l :
  read_text f = Some content →
  split NL content !! k = Some l →
  List.filter (at_line (1 + Z.of_nat k)) (scan_javascript_file uni_alnum f) =
  js_line_issues uni_alnum (path f) (1 + Z.of_nat k) l.
Proof.
  intros Hread Hl. unfold scan_javascript_file. rewrite Hread. unfold line_issues.
  apply (line_issues_at (js_line_issues uni_alnum) (path f) _ 1 k l); [|done].
  intros ? ? ?. apply js_line_issues_line.
Qed.

(** X11. The console rule reports a line of a JavaScript file, with one
    info issue, exactly when the line contains [console.log],
    [console.debug] or [console.info]. *)
Theorem X11_console_rule (f : SrcFile) content k l :
  read_text f = Some content →
  split NL content !! k = Some l →
  let n := (1 + Z.of_nat k)%Z in
  List.filter (has_severity INFO)
    (List.filter (at_line n) (scan_javascript_file uni_alnum f)) =
  if console_call l then [console_issue (path f) n l] else [].
Proof.
  intros Hread Hl n. subst n. rewrite (js_file_line f content k l) by done.
  apply info_js_line_issues.
Qed.

Lemma is_word_v : is_word uni_alnum 118 = true.
Proof. reflexivity. Qed.

Lemma in_ends_wordb_iff s i j :
  In j (ends s WordB i) ↔
  j = i ∧ xorb (match i with 0 => false | S k => word_at uni_alnum s k end)
               (word_at uni_alnum s i) = true.
Proof.
  simpl. destruct (xorb _ _); simpl.
  - split; [by intros [<- | []]|]. intros [-> _]. by left.
  - split; [done|]. by intros [_ ?].
Qed.

Lemma var_re_ends l i :
  (∃ j, In j (ends l var_re i)) ↔ var_declaration_at uni_alnum l i.
Proof.
  unfold var_re, var_declaration_at. rewrite !cat_all_cons. split.
  - intros (j & H). apply in_ends_cat in H as (k0 & H0 & H).
    apply in_ends_wordb_iff in H0 as [-> Hb].
    apply in_ends_cat in H as (k1 & H1 & H).
    apply in_ends_lit_occurs in H1 as [-> Hvar].
    apply in_ends_cat in H as (k2 & H2 & H).
    apply in_ends_plus_cls in H2 as [Hlt Hsp].
    apply in_ends_cat in H as (k3 & H3 & _).
    apply in_ends_plus_cls in H3 as [Hlt3 Hw].
    assert (Hv : word_at uni_alnum l i = true).
    { unfold word_at. specialize (Hvar 0 118%N eq_refl).
      rewrite Nat.add_0_r in Hvar. by rewrite Hvar. }
    rewrite Hv in Hb. split; [done|]. split.
    + destruct i as [|i]; [by left|]. right. simpl in Hb.
      apply negb_true_iff in Hb. unfold word_at in Hb.
      replace (S i - 1) with i by lia.
      destruct (l !! i) as [c|] eqn:Hc; [by eauto|].
      specialize (Hvar 0 118%N eq_refl). rewrite Nat.add_0_r in Hvar.
      apply lookup_lt_Some in Hvar. apply lookup_ge_None in Hc. lia.
    + exists k2. simpl in Hlt. split; [lia|]. split.
      * intros k Hk. apply Hsp. simpl. lia.
      * apply Hw. lia.
  - intros (Hvar & Hleft & j & Hj & Hsp & Hw).
    exists (S j). apply in_ends_cat. exists i. split.
    { apply in_ends_wordb_iff. split; [done|].
      assert (Hv : word_at uni_alnum l i = true).
      { unfold word_at. specialize (Hvar 0 118%N eq_refl).
        rewrite Nat.add_0_r in Hvar. by rewrite Hvar. }
      rewrite Hv. destruct i as [|i]; [done|]. simpl.
      destruct Hleft as [|(c & Hc & Hnw)]; [done|].
      replace (S i - 1) with i in Hc by lia. unfold word_at. by rewrite Hc, Hnw. }
    apply in_ends_cat. exists (i + 3). split; [by apply in_ends_lit_occurs|].
    apply in_ends_cat. exists j. split; [by apply in_ends_plus_cls|].
    apply in_ends_cat. exists (S j). split; [|by apply in_ends_eps].
    apply in_ends_plus_cls. split; [lia|]. intros k Hk.
    replace k with j by lia. done.
Qed.

Lemma var_re_search l :
  search var_re l = true ↔ ∃ i, var_declaration_at uni_alnum l i.
Proof.
  rewrite re_search_true. split.
  - intros (i & j & _ & H). exists i. apply var_re_ends. eauto.
  - intros (i & H). destruct (proj2 (var_re_ends l i) H) as [j Hj].
    exists i, j. split; [|done].
    destruct H as (H & _). apply occurs_at_bound in H; [lia|done].
Qed.

Lemma low_js_line_issues p n l :
  List.filter (has_severity LOW) (js_line_issues uni_alnum p n l) =
  if search var_re l then [var_issue p n l] else [].
Proof.
  unfold js_line_issues.
  by destruct (search loose_eq_re l), (search var_re l), (search console_re l).
Qed.

(** X12. The [var] rule reports a line of a JavaScript file, with one low,
    deprecated-usage issue, exactly when the line has the word [var], not
    preceded by a word character, followed by whitespace and then a word
    character. *)
Theorem X12_var_rule (f : SrcFile) content k l :
  read_text f = Some content →
  split NL content !! k = Some l →
  let n := (1 + Z.of_nat k)%Z in
  let reported :=
    List.filter (has_severity LOW)
      (List.filter (at_line n) (scan_javascript_file uni_alnum f)) in
  ((∃ i, var_declaration_at uni_alnum l i) → reported = [var_issue (path f) n l]) ∧
  (¬ (∃ i, var_declaration_at uni_alnum l i) → reported = []).
Proof.
  intros Hread Hl n reported. subst n reported.
  rewrite (js_file_line f content k l) by done. rewrite low_js_line_issues.
  split; intros H.
  - apply var_re_search in H. by rewrite H.
  - destruct (search var_re l) eqn:Hs; [|done]. by apply var_re_search in Hs.
Qed.

Lemma first_closing (l : text) j n :
  (∀ k, j < k < j + 1 + n → l !! k ≠ Some 41%N) ∨
  (∃ m, j < m < j + 1 + n ∧ l !! m = Some 41%N ∧
        ∀ k, j < k < m → l !! k ≠ Some 41%N).
Proof.
  induction n as [|n [IH | IH]].
  - left. intros k Hk. lia.
  - destruct (decide (l !! (j + 1 + n) = Some 41%N)) as [Hc | Hc].
    + right. exists (j + 1 + n). split; [lia|]. split; [done|].
      intros k Hk. apply IH. lia.
    + left. intros k Hk. destruct (decide (k = j + 1 + n)) as [->|]; [done|].
      apply IH. lia.
  - right. destruct IH as (m & Hm & Hc & Hmin). exists m. split; [lia|done].
Qed.

Lemma print_re_ends l i :
  (∃ j, In j (ends l print_re i)) ↔ print_call_at uni_alnum l i.
Proof.
  unfold print_re, print_call_at. rewrite !cat_all_cons. split.
  - intros (e & H). apply in_ends_cat in H as (k1 & H1 & H).
    apply in_ends_lit_occurs in H1 as [-> Hp].
    apply in_ends_cat in H as (j & Hj & H).
    apply in_ends_star_cls in Hj as [Hle Hsp].
    apply in_ends_cat in H as (k3 & H3 & H).
    apply in_ends_cls in H3 as [-> (c & Hc & Hopen)].
    unfold in_class in Hopen. apply N.eqb_eq in Hopen as <-.
    apply in_ends_cat in H as (m & Hm & H).
    apply in_ends_star_cls in Hm as [Hjm _].
    apply in_ends_cat in H as (k5 & H5 & _).
    apply in_ends_cls in H5 as [-> (c' & Hc' & Hclose)].
    unfold in_class in Hclose. apply N.eqb_eq in Hclose as <-.
    split; [done|]. exists j, m. simpl in Hle. repeat split; try done; lia.
  - intros (Hp & j & m & Hle & Hsp & Hopen & Hjm & Hclose).
    assert (∃ m', j < m' ∧ l !! m' = Some 41%N ∧
                  ∀ k, j < k < m' → cls_at l (NoneOf [41%N]) k) as (m' & Hm' & Hc & Hbetween).
    { destruct (first_closing l j (m - j - 1)) as [Hnone | (m' & Hlt & Hc & Hmin)].
      - exists m. repeat split; [done..|]. intros k Hk. apply class_at_noneof.
        destruct (lookup_lt_is_Some_2 l k) as [c Hk'].
        { apply lookup_lt_Some in Hclose. lia. }
        exists c. split; [done|]. intros [<- | []]. apply (Hnone k); [lia|done].
      - exists m'. repeat split; [lia|done|]. intros k Hk. apply class_at_noneof.
        destruct (lookup_lt_is_Some_2 l k) as [c Hk'].
        { apply lookup_lt_Some in Hc. lia. }
        exists c. split; [done|]. intros [<- | []]. apply (Hmin k); [lia|done]. }
    exists (S m'). apply in_ends_cat. exists (i + 5). split; [by apply in_ends_lit_occurs|].
    apply in_ends_cat. exists j. split; [by apply in_ends_star_cls|].
    apply in_ends_cat. exists (S j). split.
    { apply in_ends_cls. split; [done|]. exists 40%N. by split. }
    apply in_ends_cat. exists m'. split.
    { apply in_ends_star_cls. split; [lia|]. intros k Hk. apply Hbetween. lia. }
    apply in_ends_cat. exists (S m'). split; [|by apply in_ends_eps].
    apply in_ends_cls. split; [done|]. exists 41%N. by split.
Qed.

Lemma print_re_search l :
  search print_re l = true ↔ ∃ i, print_call_at uni_alnum l i.
Proof.
  rewrite re_search_true. split.
  - intros (i & j & _ & H). exists i. apply print_re_ends. eauto.
  - intros (i & H). destruct (proj2 (print_re_ends l i) H) as [j Hj].
    exists i, j. split; [|done].
    destruct H as (H & _). apply occurs_at_bound in H; [lia|done].
Qed.

Lemma python_file_line ast_parse (f : SrcFile) content k l (keep : CodeIssue -> bool) :
  read_text f = Some content →
  split NL content !! k = Some l →
  (∀ i, issue_type i = SYNTAX_ERROR ∨ issue_type i = SECURITY_VULNERABILITY →
        keep i = false) →
  List.filter keep
    (List.filter (at_line (1 + Z.of_nat k)) (scan_python_file uni_alnum ast_parse f)) =
  List.filter keep (py_line_issues uni_alnum (path f) (1 + Z.of_nat k) l).
Proof.
  intros Hread Hl Hkeep. unfold scan_python_file. rewrite Hread. cbv zeta.
  rewrite !List.filter_app. unfold line_issues.
  rewrite (line_issues_at (py_line_issues uni_alnum) (path f) _ 1 k l);
    [| intros ? ? ?; apply py_line_issues_line | done].
  rewrite (filter_none keep (List.filter (at_line _) _)); [by rewrite app_nil_r|].
  intros i Hi. apply in_filter_at_line in Hi. apply Hkeep.
  destruct (ast_parse content); [| |done].
  - right. by eapply security_issues_type.
  - destruct Hi as [<- | Hi]; [by left|right; by eapply security_issues_type].
Qed.

Lemma code_smell_py_line_issues p n l :
  List.filter (has_type CODE_SMELL) (py_line_issues uni_alnum p n l) =
  if search print_re l then [print_issue p n l] else [].
Proof.
  unfold py_line_issues.
  by destruct (search print_re l), (re_match uni_alnum unused_re (strip l)).
Qed.

(** X13. The print rule reports a line of a Python file, with one low,
    code-smell issue, exactly when the line has [print], optional
    whitespace, an opening parenthesis and, further to the right on the same
    line, a closing parenthesis.  The word need not stand alone, and a call
    whose closing parenthesis is on a later line is not reported. *)
Theorem X13_print_rule ast_parse (f : SrcFile) content k l :
  read_text f = Some content →
  split NL content !! k = Some l →
  let n := (1 + Z.of_nat k)%Z in
  let reported :=
    List.filter (has_type CODE_SMELL)
      (List.filter (at_line n) (scan_python_file uni_alnum ast_parse f)) in
  ((∃ i, print_call_at uni_alnum l i) →
     reported = [print_issue (path f) n l] ∧
     severity (print_issue (path f) n l) = LOW ∧
     fixable (print_issue (path f) n l) = true) ∧
  (¬ (∃ i, print_call_at uni_alnum l i) → reported = []).
Proof.
  intros Hread Hl n reported. subst n reported.
  rewrite (python_file_line ast_parse f content k l) by
    (done || (intros i [Hi | Hi]; unfold has_type; apply bool_decide_eq_false; congruence)).
  rewrite code_smell_py_line_issues. split; intros H.
  - apply print_re_search in H. by rewrite H.
  - destruct (search print_re l) eqn:Hs; [|done]. by apply print_re_search in Hs.
Qed.

End RuleShapes.

(** ** Security patterns that are plain strings *)

Section LiteralPatterns.

Variable uni_alnum : N -> bool.
Variable ast_parse : text -> ParseOutcome.

Local Abbreviation search := (re_search uni_alnum).

Lemma search_lit w s : w ≠ [] → search (lit w) s = contains w s.
Proof.
  intros Hne. apply eq_true_iff_eq. rewrite re_search_true, contains_occurs. split.
  - intros (i & j & _ & H). apply in_ends_lit in H as [_ H]. eauto.
  - intros [i H]. exists i, (i + length w). split.
    + apply occurs_at_bound in H; [lia|done].
    + by apply in_ends_lit.
Qed.

Lemma split_first_line_startswith sep w t :
  ¬ In sep w → startswith w t = true →
  ∃ l0 ls, split sep t = l0 :: ls ∧ startswith w l0 = true.
Proof.
  revert t. induction w as [|a w IH]; intros t Hsep Hs.
  - destruct (split_head sep t) as (l0 & ls & _ & -> & _). by exists l0, ls.
  - destruct t as [|b t]; [done|]. simpl in Hs.
    apply andb_true_iff in Hs as [Hab Hs]. apply N.eqb_eq in Hab as <-.
    destruct (IH t) as (l0 & ls & Hsplit & Hl0); [|done|].
    { intros H. apply Hsep. by right. }
    simpl. destruct (N.eqb_spec a sep) as [->|_]; [exfalso; apply Hsep; by left|].
    rewrite Hsplit. exists (a :: l0), ls. split; [done|]. simpl.
    by rewrite N.eqb_refl.
Qed.

(** A string without the separator that occurs in a text occurs in one of
    its lines. *)
Lemma occurs_in_some_line sep s w i :
  ¬ In sep w → w ≠ [] → occurs_at s w i →
  ∃ k l j, split sep s !! k = Some l ∧ occurs_at l w j.
Proof.
  intros Hsep Hne. revert i. induction s as [|c s IH]; intros i H.
  - by apply occurs_at_nil in H.
  - destruct i as [|i].
    + apply occurs_at_0 in H.
      destruct (split_first_line_startswith sep w (c :: s) Hsep H) as (l0 & ls & Hs & Hl0).
      exists 0, l0, 0. rewrite Hs. split; [done|]. by apply occurs_at_0.
    + apply occurs_at_cons in H. destruct (IH i H) as (k & l & j & Hk & Hl).
      simpl. destruct (c =? sep)%N.
      * exists (S k), l, j. by split.
      * destruct (split sep s) as [|l0 ls]; [done|].
        destruct k as [|k]; simpl in Hk.
        -- injection Hk as ->. exists 0, (c :: l), (S j). split; [done|].
           by apply occurs_at_cons.
        -- exists (S k), l, j. by split.
Qed.

Lemma NoDup_map_inj {A B} (key : A -> B) (l : list A) (x y : A) :
  NoDup (List.map key l) → In x l → In y l → key x = key y → x = y.
Proof.
  induction l as [|a l IH]; [done|]. simpl. intros Hnd Hx Hy Hk.
  apply NoDup_cons in Hnd as [Hfresh Hnd]. rewrite list_elem_of_In in Hfresh.
  destruct Hx as [-> | Hx], Hy as [-> | Hy]; [done| | |by apply IH].
  - exfalso. apply Hfresh. rewrite Hk. by apply in_map.
  - exfalso. apply Hfresh. rewrite <- Hk. by apply in_map.
Qed.

Lemma security_filter_none p content lines (e : regex * string * Severity * bool) :
  In e security_patterns → search (e.1.1.1) content = false →
  List.filter (security_for (e.1.1.2)) (security_issues uni_alnum p content lines) = [].
Proof.
  intros Hin Hs. apply filter_none. intros i Hi.
  apply in_security_issues in Hi as (e' & He' & Hs' & ->).
  rewrite security_for_issue. apply String.eqb_neq. intros Hd.
  assert (e' = e) as ->; [|congruence].
  by apply (NoDup_map_inj (fun x : regex * string * Severity * bool => x.1.1.2)
              security_patterns e' e (security_descs_NoDup)).
Qed.

Lemma literal_patterns_security w desc sev fx :
  In (w, desc, sev, fx) literal_patterns →
  In (lit w, desc, sev, fx) security_patterns ∧ ¬ In NL w ∧ w ≠ [].
Proof.
  unfold literal_patterns. simpl. intros [[= <- <- <- <-] | [[= <- <- <- <-] | []]].
  - split; [do 3 right; by left|]. split; [|done]. by vm_compute; intuition discriminate.
  - split; [do 4 right; by left|]. split; [|done]. by vm_compute; intuition discriminate.
Qed.

(** X14. For the two security patterns that are plain strings,
    [pickle.load] and [yaml.load], a Python file whose scan reaches the
    patterns gets the issue exactly when its text contains the string, and
    the line reported is then the first line that contains it: the fallback
    to line 1 is never taken for them. *)
Theorem X14_literal_patterns (f : SrcFile) content w desc sev fx :
  read_text f = Some content →
  ast_parse content ≠ RaisedOther →
  In (w, desc, sev, fx) literal_patterns →
  let lines := split NL content in
  let found :=
    List.filter (security_for desc) (scan_python_file uni_alnum ast_parse f) in
  (contains w content = false → found = []) ∧
  (contains w content = true →
   ∃ k l, lines !! k = Some l ∧ contains w l = true ∧
          (∀ k' l', k' < k → lines !! k' = Some l' → contains w l' = false) ∧
          found = [ {| file := path f; line := 1 + Z.of_nat k; column := 0;
                       severity := sev; issue_type := SECURITY_VULNERABILITY;
                       message := "Security: " +:+ desc; rule_id := None;
                       suggestion := Some "Move to .env file"; fixable := fx |} ]).
Proof.
  intros Hread Hparse Hin lines found. subst found.
  destruct (literal_patterns_security _ _ _ _ Hin) as (Hsec & Hnl & Hne).
  rewrite (security_of_file uni_alnum ast_parse f content) by done.
  split; intros Hc.
  - apply (security_filter_none (path f) content lines (lit w, desc, sev, fx));
      [done|]. simpl. by rewrite search_lit.
  - unfold security_issues.
    pose proof (security_filter uni_alnum security_patterns (path f) content
                  (split NL content) (lit w, desc, sev, fx)
                  security_descs_NoDup Hsec) as Hf.
    cbn [fst snd] in Hf. rewrite Hf by (by rewrite search_lit).
    cbn [security_issue].
    destruct (_find_line_with_pattern_spec uni_alnum lines (lit w))
      as [(k & l & Hk & Hl & Hmin & Hn) | [Hnone _]].
    + exists k, l. fold lines. rewrite Hn. rewrite search_lit in Hl by done.
      repeat split; try done.
      intros k' l' Hlt Hk'. rewrite <- (search_lit w l') by done. by eapply Hmin.
    + exfalso. apply contains_occurs in Hc as [i Hi].
      destruct (occurs_in_some_line NL content w i Hnl Hne Hi) as (k & l & j & Hk & Hl).
      specialize (Hnone k l Hk). rewrite search_lit in Hnone by done.
      assert (contains w l = true) by (apply contains_occurs; eauto). congruence.
Qed.

End LiteralPatterns.

(** ** Report generator *)

Section Reports.

Variable Path_name : string -> string.

Lemma append_cons x (a b : string) : String x a +:+ b = String x (a +:+ b).
Proof. reflexivity. Qed.

Lemma append_nil_l (b : string) : EmptyString +:+ b = b.
Proof. reflexivity. Qed.

Lemma append_assoc_s (a b c : string) : (a +:+ b) +:+ c = a +:+ (b +:+ c).
Proof.
  induction a as [|x a IH]; [done|]. rewrite !append_cons. by rewrite IH.
Qed.

Lemma endswith_refl t : endswith t t = true.
Proof. destruct t; cbn [endswith]; by rewrite String.eqb_refl. Qed.

Lemma endswith_append h t : endswith (h +:+ t) t = true.
Proof.
  induction h as [|x h IH].
  - rewrite append_nil_l. apply endswith_refl.
  - rewrite append_cons. cbn [endswith]. rewrite IH. apply orb_true_r.
Qed.

Lemma endswith_true s t : endswith s t = true → ∃ h, s = h +:+ t.
Proof.
  induction s as [|x s IH]; cbn [endswith].
  - rewrite orb_false_r. intros H. exists EmptyString.
    by apply String.eqb_eq in H.
  - intros H. apply orb_true_iff in H as [H | H].
    + exists EmptyString. by apply String.eqb_eq in H.
    + destruct (IH H) as [h ->]. by exists (String x h).
Qed.

Lemma append_suffix_cases (h1 t1 h2 t2 : string) :
  h1 +:+ t1 = h2 +:+ t2 → (∃ m, t1 = m +:+ t2) ∨ (∃ m, t2 = m +:+ t1).
Proof.
  revert h2. induction h1 as [|x h1 IH]; intros h2 H.
  - left. by exists h2.
  - destruct h2 as [|y h2].
    + right. by exists (String x h1).
    + rewrite !append_cons in H. injection H as _ H. by apply (IH h2).
Qed.

Lemma join_lines_app (pre tail : list string) :
  pre ≠ [] → tail ≠ [] →
  join_lines (pre ++ tail) = join_lines pre +:+ (NEWLINE +:+ join_lines tail).
Proof.
  unfold join_lines. intros Hpre Htail.
  induction pre as [|x pre IH]; [done|].
  destruct pre as [|y pre].
  - simpl. destruct tail; [done|]. done.
  - change ((x :: y :: pre) ++ tail) with (x :: (y :: pre) ++ tail).
    change (String.concat NEWLINE (x :: (y :: pre) ++ tail))
      with (x +:+ NEWLINE +:+ String.concat NEWLINE ((y :: pre) ++ tail)).
    rewrite IH by done.
    change (String.concat NEWLINE (x :: y :: pre))
      with (x +:+ NEWLINE +:+ String.concat NEWLINE (y :: pre)).
    by rewrite !append_assoc_s.
Qed.

Lemma lines_of_each_is_Some {A} (f : A -> option (list string)) (l : list A) :
  is_Some (lines_of_each f l) ↔ Forall (fun x => is_Some (f x)) l.
Proof.
  induction l as [|x l IH]; simpl.
  - split; [by constructor|by eauto].
  - rewrite Forall_cons, <- IH. split.
    + intros [r Hr]. destruct (f x); [|done]. destruct (lines_of_each f l); [|done].
      by eauto.
    + intros [[a ->] [b ->]]. simpl. by eauto.
Qed.

Lemma fixed_line_is_Some issue :
  is_Some (fixed_line Path_name issue) ↔ fixed_line_keys issue.
Proof.
  unfold fixed_line, fixed_line_keys, file_is_str.
  destruct (ri_file issue) as [[p|n|t|t]|], (ri_line issue), (ri_message issue);
    simpl; split;
    try (by intros [? [=]]);
    try (by intros ([? [=]] & _));
    try (by intros (_ & [? [=]] & _));
    try (by intros (_ & _ & [? [=]]));
    eauto.
Qed.

Lemma critical_lines_is_Some issue :
  is_Some (critical_lines issue) ↔ critical_keys issue.
Proof.
  unfold critical_lines, critical_keys, file_is_str, severity_hashable.
  destruct (ri_file issue) as [[p|n|t|t]|],
    (ri_severity issue) as [[sev|n'|t'|t']|],
    (ri_line issue), (ri_message issue);
    simpl; split;
    try (by intros [? [=]]);
    try (by intros ([? [=]] & _));
    try (by intros (_ & [? [[=] _]] & _));
    try (by intros (_ & [? [[= <-] Hh]] & _); destruct (Hh t'));
    try (by intros (_ & _ & [? [=]] & _));
    try (by intros (_ & _ & _ & [? [=]]));
    try (by intros _; split_and!; eauto).
Qed.

Lemma auto_fix_section_is_Some auto :
  is_Some (auto_fix_section Path_name auto) ↔ Forall fixed_line_keys (take 10 auto).
Proof.
  destruct auto as [|a auto]; [split; [by constructor|by eauto]|].
  unfold auto_fix_section.
  rewrite <- (Forall_iff _ _ _ fixed_line_is_Some), <- lines_of_each_is_Some.
  destruct (lines_of_each (fixed_line Path_name) (take 10 (a :: auto))); simpl;
    split; by eauto.
Qed.

Lemma verdict_section_is_Some critical :
  is_Some (verdict_section critical) ↔ Forall critical_keys critical.
Proof.
  destruct critical as [|c critical]; [split; [by constructor|by eauto]|].
  unfold verdict_section.
  rewrite <- (Forall_iff _ _ _ critical_lines_is_Some), <- lines_of_each_is_Some.
  destruct (lines_of_each critical_lines (c :: critical)); simpl; split; by eauto.
Qed.

Lemma pull_request_comment_is_Some now results :
  is_Some (generate_pull_request_comment Path_name now results) ↔
  Forall fixed_line_keys (take 10 (default [] (res_auto_fixable_issues results))) ∧
  Forall critical_keys (default [] (res_critical_issues results)).
Proof.
  unfold generate_pull_request_comment, pull_request_lines. cbv zeta.
  rewrite <- auto_fix_section_is_Some, <- verdict_section_is_Some.
  destruct (auto_fix_section Path_name _), (verdict_section _); simpl; split;
    try (by intros [? [=]]); try (by intros [[? [=]] ?]); try (by intros [? [? [=]]]);
    eauto.
Qed.

Lemma verdict_section_tail critical v :
  verdict_section critical = Some v →
  ∃ before,
    v = before ++ (if decide (critical = []) then approved_verdict else blocked_verdict).
Proof.
  destruct critical as [|c critical].
  - rewrite decide_True by done. intros [= <-]. by exists [].
  - rewrite decide_False by done. unfold verdict_section.
    destruct (lines_of_each critical_lines (c :: critical)) as [listed|]; [|done].
    intros [= <-].
    exists ([ "### Issues Requiring Human Intervention"; "";
              "**This code cannot be merged until these issues are resolved:**";
              "" ] ++ listed).
    by rewrite <- app_assoc.
Qed.

Lemma pull_request_comment_tail now results report :
  generate_pull_request_comment Path_name now results = Some report →
  ∃ head,
    report = head +:+ (NEWLINE +:+
      join_lines ((if decide (default [] (res_critical_issues results) = [])
                   then approved_verdict else blocked_verdict) ++ report_footer)).
Proof.
  unfold generate_pull_request_comment. intros H.
  apply fmap_Some in H as (lines & Hlines & ->).
  unfold pull_request_lines in Hlines. cbv zeta in Hlines.
  apply bind_Some in Hlines as (fixes & _ & Hlines).
  apply bind_Some in Hlines as (v & Hv & Hlines).
  apply (inj Some) in Hlines as <-.
  apply verdict_section_tail in Hv as [before ->].
  eexists.
  replace (report_header now (default empty_summary (res_summary results)) ++
           fixes ++ (before ++ (if decide (default [] (res_critical_issues results) = [])
                                then approved_verdict else blocked_verdict)) ++
           report_footer)
    with ((report_header now (default empty_summary (res_summary results)) ++
           fixes ++ before) ++
          ((if decide (default [] (res_critical_issues results) = [])
            then approved_verdict else blocked_verdict) ++ report_footer))
    by (by rewrite <- !app_assoc).
  apply join_lines_app; [done|]. by case_decide.
Qed.

Lemma pull_request_verdict now results report :
  generate_pull_request_comment Path_name now results = Some report →
  (endswith report (join_lines (approved_verdict ++ report_footer)) = true ↔
   default [] (res_critical_issues results) = []) ∧
  (endswith report (join_lines (blocked_verdict ++ report_footer)) = true ↔
   default [] (res_critical_issues results) ≠ []).
Proof.
  intros H. apply pull_request_comment_tail in H as [head ->].
  set (A := join_lines (approved_verdict ++ report_footer)).
  set (B := join_lines (blocked_verdict ++ report_footer)).
  assert (HAB : ∀ h, endswith (h +:+ (NEWLINE +:+ A)) B = false).
  { intros h. apply not_true_is_false. intros HB.
    apply endswith_true in HB as [h' HB].
    apply append_suffix_cases in HB as [[m Hm] | [m Hm]].
    - assert (endswith (NEWLINE +:+ A) B = true) by (rewrite Hm; apply endswith_append).
      by vm_compute in H.
    - assert (endswith B (NEWLINE +:+ A) = true) by (rewrite Hm; apply endswith_append).
      by vm_compute in H. }
  assert (HBA : ∀ h, endswith (h +:+ (NEWLINE +:+ B)) A = false).
  { intros h. apply not_true_is_false. intros HA.
    apply endswith_true in HA as [h' HA].
    apply append_suffix_cases in HA as [[m Hm] | [m Hm]].
    - assert (endswith (NEWLINE +:+ B) A = true) by (rewrite Hm; apply endswith_append).
      by vm_compute in H.
    - assert (endswith A (NEWLINE +:+ B) = true) by (rewrite Hm; apply endswith_append).
      by vm_compute in H. }
  assert (Hend : ∀ h t, endswith (h +:+ (NEWLINE +:+ t)) t = true).
  { intros h t. rewrite <- append_assoc_s. apply endswith_append. }
  case_decide as Hc; fold A B.
  - split; split.
    + done.
    + intros _. apply Hend.
    + intros HB. by rewrite HAB in HB.
    + intros Hne. by destruct Hne.
  - split; split.
    + intros HA. by rewrite HBA in HA.
    + intros He. by destruct Hc.
    + done.
    + intros _. apply Hend.
Qed.

(** X15. [generate_pull_request_comment] returns a report exactly when each
    of the first ten auto-fixable issues has a string under [file] and the
    keys [line] and [message], and each critical issue has a string under
    [file], a hashable value under [severity] and the keys [line] and
    [message]; otherwise it raises: [KeyError] for an absent key,
    [TypeError] for a [file] that is null or any other value that is not a
    string, or for a [severity] that is an array or an object.  A missing
    [summary], missing lists, the auto-fixable issues after the tenth, and
    whatever JSON value stands under [line] and [message] never make it
    raise.  The summary and the two lists, when present, are a dictionary
    of counts and lists of dictionaries. *)
Theorem X15_report_returns now results :
  is_Some (generate_pull_request_comment Path_name now results) ↔
  Forall fixed_line_keys (take 10 (default [] (res_auto_fixable_issues results))) ∧
  Forall critical_keys (default [] (res_critical_issues results)).
Proof. apply pull_request_comment_is_Some. Qed.

(** X16. A report that is returned ends with the approval and the footer
    exactly when the list of critical issues is empty or absent, and with
    the blocking notice and the footer exactly when it is not; whatever the
    messages quoted above it contain. *)
Theorem X16_report_verdict now results report :
  generate_pull_request_comment Path_name now results = Some report →
  (endswith report (join_lines (approved_verdict ++ report_footer)) = true ↔
   default [] (res_critical_issues results) = []) ∧
  (endswith report (join_lines (blocked_verdict ++ report_footer)) = true ↔
   default [] (res_critical_issues results) ≠ []).
Proof. apply pull_request_verdict. Qed.

End Reports.

(** ** The report generator on what the analyzer saved *)

Section AnalyzerToReport.

Variable uni_alnum : N -> bool.
Variable ast_parse : text -> ParseOutcome.
Variable Path_name : string -> string.

Lemma Forall_issue_loaded (P : ReportIssue -> Prop) (l : list IssueDict) :
  (∀ d, P (issue_loaded d)) → Forall P (List.map issue_loaded l).
Proof. intros H. induction l; simpl; by constructor. Qed.

Lemma fixed_line_keys_loaded d : fixed_line_keys (issue_loaded d).
Proof. unfold fixed_line_keys, file_is_str; simpl. by eauto. Qed.

Lemma critical_keys_loaded d : critical_keys (issue_loaded d).
Proof.
  unfold critical_keys, file_is_str, severity_hashable; simpl. split_and!; by eauto.
Qed.

Lemma run_critical_dicts root now :
  r_critical_issues (ScanResult_to_dict (run uni_alnum ast_parse root now)) =
  List.map CodeIssue_to_dict
    (List.filter is_critical (issues (run uni_alnum ast_parse root now))).
Proof.
  simpl. rewrite run_issues.
  by destruct (run_subsets uni_alnum ast_parse root now) as [-> _].
Qed.

Lemma exit_code_critical (r : ScanResult) :
  (exit_code r = 1%Z ↔ critical_issues r ≠ []) ∧
  (exit_code r = 0%Z ↔ critical_issues r = []).
Proof.
  unfold exit_code, len. destruct (critical_issues r) as [|c l]; simpl.
  - by split; split.
  - split; split; try done.
Qed.

Lemma map_eq_nil_iff {A B} (g : A -> B) (l : list A) : List.map g l = [] ↔ l = [].
Proof. by destruct l. Qed.

Lemma unfixable_linters_stay_out root now i :
  (∀ j, In j (linter_issues root) → fixable j = false) →
  In i (auto_fixable_issues (run uni_alnum ast_parse root now)) ∨
  In i (critical_issues (run uni_alnum ast_parse root now)) →
  In i (pattern_issues uni_alnum ast_parse root).
Proof.
  intros Hlint Hi.
  destruct (run_subsets uni_alnum ast_parse root now) as [Hcrit Hauto].
  rewrite Hcrit, Hauto in Hi.
  destruct Hi as [Hi | Hi]; apply List.filter_In in Hi as [Hin Hp];
    apply in_app_or in Hin as [Hin | Hin]; try done.
  - rewrite (Hlint i Hin) in Hp. done.
  - pose proof (Hlint i Hin) as Hfix.
    apply in_app_or in Hin as [Hin | Hin].
    + apply in_flake8_issues in Hin as (item & Hin).
      apply flake8_issue_fields in Hin as (_ & _ & _ & _ & Htrue & _).
      congruence.
    + pose proof (eslint_not_critical (eslint root)) as Hnone.
      assert (existsb is_critical (adapter_issues eslint_items (eslint root)) = true);
        [|congruence].
      apply existsb_exists. by exists i.
Qed.

(** X17. Take a run in which no finding of a linter is declared fixable:
    flake8, whose findings are all fixable, adds none, and no message of
    eslint carries a fix.  Every issue that the run saves as auto-fixable
    or as critical then comes from the pattern detectors, which write the
    file's path under [file]: the linters' findings, whose file name is
    whatever the linter printed, stay out of the two lists that the report
    reads.  On the file that such a run saved, the report generator never
    raises, and its comment ends with the blocking notice exactly when the
    analyzer exited with status 1, with the approval exactly when it exited
    with status 0: the comment and the gate agree. *)
Theorem X17_report_agrees_with_gate root now today results :
  (∀ i, In i (linter_issues root) → fixable i = false) →
  loaded_from results (ScanResult_to_dict (run uni_alnum ast_parse root now)) →
  (∀ i, In i (auto_fixable_issues (run uni_alnum ast_parse root now)) ∨
        In i (critical_issues (run uni_alnum ast_parse root now)) →
        In i (pattern_issues uni_alnum ast_parse root)) ∧
  ∃ report,
    generate_pull_request_comment Path_name today results = Some report ∧
    (endswith report (join_lines (blocked_verdict ++ report_footer)) = true ↔
     exit_code (run uni_alnum ast_parse root now) = 1%Z) ∧
    (endswith report (join_lines (approved_verdict ++ report_footer)) = true ↔
     exit_code (run uni_alnum ast_parse root now) = 0%Z).
Proof.
  intros Hlint (Hcrit & Hauto & _ & _).
  split; [intros i; by apply unfixable_linters_stay_out|].
  destruct (proj2 (pull_request_comment_is_Some Path_name today results)) as [report Hr].
  { rewrite Hcrit, Hauto. simpl. split.
    - apply Forall_take, Forall_issue_loaded. apply fixed_line_keys_loaded.
    - apply Forall_issue_loaded. apply critical_keys_loaded. }
  exists report. split; [done|].
  destruct (pull_request_verdict Path_name today results report Hr) as [Ha Hb].
  destruct (exit_code_critical (run uni_alnum ast_parse root now)) as [H1 H0].
  rewrite Hcrit in Ha, Hb. simpl in Ha, Hb.
  rewrite map_eq_nil_iff in Ha, Hb. rewrite map_eq_nil_iff in Ha, Hb.
  rewrite Ha, Hb, H1, H0. done.
Qed.

Lemma mentions_security_loaded i :
  mentions_security (issue_loaded (CodeIssue_to_dict i)) =
  has_type SECURITY_VULNERABILITY i.
Proof. unfold has_type. by destruct i as [? ? ? ? [] ? ? ? ?]. Qed.

Lemma alert_lines_loaded d : is_Some (alert_lines (issue_loaded d)).
Proof. unfold alert_lines; simpl. by eauto. Qed.

Lemma security_alert_none results :
  generate_security_alert results = Some None ↔
  ∀ issue, In issue (default [] (res_critical_issues results)) →
           mentions_security issue = false.
Proof.
  unfold generate_security_alert. cbv zeta.
  destruct (List.filter mentions_security (default [] (res_critical_issues results)))
    as [|s l] eqn:Hf.
  - split; [|done]. intros _ issue Hin.
    apply not_true_is_false. intros Hm.
    assert (In issue []); [|done]. rewrite <- Hf. by apply List.filter_In.
  - split.
    + destruct (lines_of_each alert_lines (s :: l)); simpl; by intros [=].
    + intros H. assert (Hs : In s (s :: l)) by (by left).
      rewrite <- Hf in Hs. apply List.filter_In in Hs as [Hin Hm].
      rewrite (H s Hin) in Hm. done.
Qed.

(** X18. On the file that a run of the analyzer saved,
    [generate_security_alert] never raises, and it returns [None] exactly
    when no issue of the run is both critical and a security vulnerability:
    a critical syntax error or linting error alone raises no alert. *)
Theorem X18_security_alert root now results :
  loaded_from results (ScanResult_to_dict (run uni_alnum ast_parse root now)) →
  is_Some (generate_security_alert results) ∧
  (generate_security_alert results = Some None ↔
   ∀ i, In i (issues (run uni_alnum ast_parse root now)) →
        severity i = CRITICAL → issue_type i ≠ SECURITY_VULNERABILITY).
Proof.
  intros (Hcrit & _). rewrite run_critical_dicts in Hcrit. split.
  - unfold generate_security_alert. cbv zeta.
    destruct (List.filter mentions_security _) as [|s l] eqn:Hf; [by eauto|].
    destruct (proj2 (lines_of_each_is_Some alert_lines (s :: l))) as [lines ->];
      [|simpl; by eauto].
    rewrite <- Hf. apply Forall_forall. intros issue Hin.
    apply list_elem_of_In, List.filter_In in Hin as [Hin _].
    rewrite Hcrit in Hin. simpl in Hin. apply in_map_iff in Hin as (d & <- & _).
    apply alert_lines_loaded.
  - rewrite security_alert_none, Hcrit. simpl. split.
    + intros H i Hi Hc Ht.
      specialize (H (issue_loaded (CodeIssue_to_dict i))).
      rewrite mentions_security_loaded in H. unfold has_type in H.
      rewrite bool_decide_eq_true_2 in H by done.
      assert (true = false); [|done]. apply H.
      apply in_map, in_map, List.filter_In. split; [done|].
      by apply bool_decide_eq_true.
    + intros H issue Hin.
      apply in_map_iff in Hin as (d & <- & Hin).
      apply in_map_iff in Hin as (i & <- & Hin).
      apply List.filter_In in Hin as [Hin Hc]. apply bool_decide_eq_true in Hc.
      rewrite mentions_security_loaded. apply bool_decide_eq_false. by apply H.
Qed.

(** X19. On the file that a run of the analyzer saved, the daily summary
    gives the number of issues of the run as [total_issues], the number of
    critical ones as [critical_issues], and as [auto_fixed] the number of
    issues declared fixable. *)
Theorem X19_daily_summary root now today results :
  loaded_from results (ScanResult_to_dict (run uni_alnum ast_parse root now)) →
  let all := issues (run uni_alnum ast_parse root now) in
  let daily := generate_daily_summary today results in
  ds_date daily = today ∧
  ds_total_issues daily = len all ∧
  ds_critical_issues daily = count_where is_critical all ∧
  ds_auto_fixed daily = count_where fixable all.
Proof.
  intros (_ & _ & _ & s & rs & rt & Hs & _ & Htot & Hcrit & Hfix & _) all daily.
  subst daily all. unfold generate_daily_summary. rewrite Hs. simpl.
  rewrite Htot, Hcrit, Hfix. simpl.
  rewrite run_unfold; cbv zeta.
  set (all := pattern_issues uni_alnum ast_parse root ++ linter_issues root).
  set (r0 := set_issues all _).
  destruct (categorize_fold_frame all r0) as (_ & _ & -> & ->).
  destruct (categorize_fold_subsets all r0) as [-> ->].
  subst r0. simpl. by repeat split.
Qed.

End AnalyzerToReport.

(** ** Serialization *)

Lemma CodeIssue_to_dict_inj i j : CodeIssue_to_dict i = CodeIssue_to_dict j → i = j.
Proof.
  destruct i as [f1 l1 c1 s1 t1 m1 r1 g1 x1], j as [f2 l2 c2 s2 t2 m2 r2 g2 x2].
  unfold CodeIssue_to_dict; simpl. intros [= -> -> -> Hs Ht -> -> -> ->].
  apply Severity_value_inj in Hs as ->. apply IssueType_value_inj in Ht as ->. done.
Qed.

Lemma map_CodeIssue_to_dict_inj (l1 l2 : list CodeIssue) :
  List.map CodeIssue_to_dict l1 = List.map CodeIssue_to_dict l2 → l1 = l2.
Proof.
  revert l2. induction l1 as [|i l1 IH]; intros [|j l2]; cbn [List.map]; try done.
  intros H.
  pose proof (f_equal (hd (CodeIssue_to_dict i)) H) as Hi.
  pose proof (f_equal (@tl IssueDict) H) as Hl.
  cbn [hd tl] in Hi, Hl.
  apply CodeIssue_to_dict_inj in Hi as ->. by rewrite (IH l2).
Qed.

(** X20. Serialization loses nothing: two issues with the same dictionary
    are the same issue, since the severity and type tags are all distinct,
    and two scan results with the same dictionary are the same result. *)
Theorem X20_to_dict_injective :
  (∀ i j, CodeIssue_to_dict i = CodeIssue_to_dict j → i = j) ∧
  (∀ r1 r2, ScanResult_to_dict r1 = ScanResult_to_dict r2 → r1 = r2).
Proof.
  split; [apply CodeIssue_to_dict_inj|].
  intros [ts1 fs1 n1 bs1 bt1 c1 a1 i1] [ts2 fs2 n2 bs2 bt2 c2 a2 i2].
  unfold ScanResult_to_dict; simpl. intros [= -> -> -> -> -> _ _ Hc Ha Hi].
  apply map_CodeIssue_to_dict_inj in Hc as ->.
  apply map_CodeIssue_to_dict_inj in Ha as ->.
  apply map_CodeIssue_to_dict_inj in Hi as ->. done.
Qed.

(** ** The further statements at concrete inputs *)

Lemma X4_witness :
  In eqeqeq_issue (adapter_issues eslint_items (eslint linted_tree)) ∧
  (∃ item msg sev,
     eslint_issue item msg = Some eqeqeq_issue ∧ e_severity msg = Some sev ∧
     severity eqeqeq_issue = (if (sev =? 2)%Z then HIGH
                              else if (sev =? 1)%Z then MEDIUM else LOW) ∧
     severity eqeqeq_issue ≠ CRITICAL) ∧
  exit_code (run ascii_only parses_everything linted_tree "t0") = 0%Z.
Proof.
  split; [left; reflexivity|]. split.
  - apply (proj1 (X4_eslint_never_blocks ascii_only parses_everything
                    linted_tree "t0") eqeqeq_issue).
    left; reflexivity.
  - rewrite (proj2 (X4_eslint_never_blocks ascii_only parses_everything
                      linted_tree "t0")).
    reflexivity.
Defined.

Lemma X5_witness :
  ∃ item ty,
    flake8_issue item =
      Some {| file := "a.py"; line := 9; column := 1; severity := LOW;
              issue_type := LINTING_ERROR;
              message := "blank line at end of file";
              rule_id := None; suggestion := None; fixable := true |} ∧
    f8_type item = Some ty ∧ f8_id item = Some None.
Proof.
  destruct (X5_flake8_findings flake8_report
    {| file := "a.py"; line := 9; column := 1; severity := LOW;
       issue_type := LINTING_ERROR; message := "blank line at end of file";
       rule_id := None; suggestion := None; fixable := true |})
    as (item & ty & H1 & H2 & H3 & _).
  { simpl. right. right. left. reflexivity. }
  exists item, ty. split; [exact H1|]. split; [exact H2|exact H3].
Defined.

Lemma X6_witness :
  translated_until_error flake8_issue
    [ {| f8_filename := Some "a.py"; f8_line_number := Some 3%Z;
         f8_column_number := Some 80%Z; f8_type := Some (Some "E");
         f8_text := Some "line too long"; f8_id := Some (Some "E501") |};
      {| f8_filename := Some "a.py"; f8_line_number := None;
         f8_column_number := None; f8_type := Some (Some "W");
         f8_text := None; f8_id := None |} ]
    [ {| file := "a.py"; line := 3; column := 80; severity := HIGH;
         issue_type := LINTING_ERROR; message := "line too long";
         rule_id := Some "E501"; suggestion := None; fixable := true |} ].
Proof.
  refine (proj1 (proj2 (proj2 X6_adapter_translates_prefix)) 1%Z _ _).
  discriminate.
Defined.

Lemma X7_witness :
  (1 <= 5 <= len (split NL ([NL; NL; NL; NL] ++ codes "if (a == b)" ++ [NL] ++
                            codes "var x = 1")))%Z.
Proof.
  refine (proj1 (proj2 (X7_lines_in_range ascii_only parses_everything loose_js
            ([NL; NL; NL; NL] ++ codes "if (a == b)" ++ [NL] ++ codes "var x = 1")
            (loose_eq_issue "ui.js" 5 (codes "if (a == b)")) _)) _).
  - reflexivity.
  - simpl. left. reflexivity.
Defined.

Lemma X8_witness :
  ∃ k l,
    split NL ([NL; NL; NL; NL] ++ codes "if (a == b)" ++ [NL] ++ codes "var x = 1")
      !! k = Some l ∧
    first_occurrence l (codes "var") 0%Z.
Proof.
  destruct (proj1 (X8_columns_point_at_keyword ascii_only parses_everything loose_js
              ([NL; NL; NL; NL] ++ codes "if (a == b)" ++ [NL] ++ codes "var x = 1")
              (var_issue "ui.js" 6 (codes "var x = 1")) eq_refl))
    as (k & l & Hk & _ & [[Hs _] | [[_ Hf] | [Hs _]]]).
  - simpl. right. left. reflexivity.
  - discriminate Hs.
  - exists k, l. split; [exact Hk|exact Hf].
  - discriminate Hs.
Defined.

Lemma X9_witness :
  issue_type (syntax_issue "bad.py" (Some 2%Z) (Some 15%Z) "'(' was never closed")
    = SYNTAX_ERROR ∨
  (issue_type (syntax_issue "bad.py" (Some 2%Z) (Some 15%Z) "'(' was never closed")
     = SECURITY_VULNERABILITY ∧
   (message (syntax_issue "bad.py" (Some 2%Z) (Some 15%Z) "'(' was never closed")
      = "Security: Unsafe eval() usage" ∨
    message (syntax_issue "bad.py" (Some 2%Z) (Some 15%Z) "'(' was never closed")
      = "Security: Unsafe exec() usage")).
Proof.
  refine (proj1 (X9_critical_pattern_issues ascii_only rejects_unbalanced small_tree
                   (syntax_issue "bad.py" (Some 2%Z) (Some 15%Z) "'(' was never closed")
                   _) eq_refl).
  simpl. right. left. reflexivity.
Defined.

Lemma X10_witness :
  ∃ f content, In f (scanned_files small_tree) ∧ read_text f = Some content ∧
               path f = "bad.py".
Proof.
  destruct (proj1 (X10_issue_sources ascii_only rejects_unbalanced small_tree
              (syntax_issue "bad.py" (Some 2%Z) (Some 15%Z) "'(' was never closed")))
    as (_ & _ & f & content & Hf & Hr & Hp).
  - simpl. right. left. reflexivity.
  - exists f, content. split; [exact Hf|]. split; [exact Hr|]. symmetry. exact Hp.
Defined.

Lemma X11_witness :
  List.filter (has_severity INFO)
    (List.filter (at_line 2) (scan_javascript_file ascii_only console_js)) =
  [ console_issue "log.js" 2 (codes "  console.log(1); }") ].
Proof.
  refine (X11_console_rule ascii_only console_js
            (codes "function f() {" ++ [NL] ++ codes "  console.log(1); }")
            1 (codes "  console.log(1); }") _ _); reflexivity.
Defined.

Lemma X12_witness :
  List.filter (has_severity LOW)
    (List.filter (at_line 6) (scan_javascript_file ascii_only loose_js)) =
  [ var_issue "ui.js" 6 (codes "var x = 1") ].
Proof.
  refine (proj1 (X12_var_rule ascii_only loose_js
            ([NL; NL; NL; NL] ++ codes "if (a == b)" ++ [NL] ++ codes "var x = 1")
            5 (codes "var x = 1") _ _) _); [reflexivity | reflexivity |].
  exists 0. split.
  - intros [|[|[|k]]] c; simpl; intros [= <-]; reflexivity.
  - split; [left; reflexivity|]. exists 4. split; [lia|]. split.
    + intros k Hk. assert (k = 3) as -> by lia. exists 32%N. split; reflexivity.
    + exists 120%N. split; reflexivity.
Defined.

Lemma X13_witness :
  List.filter (has_type CODE_SMELL)
    (List.filter (at_line 1)
       (scan_python_file ascii_only rejects_unbalanced unbalanced_py)) =
  [ print_issue "bad.py" 1 (codes "print(1)") ].
Proof.
  refine (proj1 (proj1 (X13_print_rule ascii_only rejects_unbalanced unbalanced_py
            (codes "print(1)" ++ [NL] ++ codes "password = foo(")
            0 (codes "print(1)") _ _) _)); [reflexivity | reflexivity |].
  exists 0. split.
  - intros [|[|[|[|[|k]]]]] c; simpl; intros [= <-]; reflexivity.
  - exists 5, 7. split; [lia|]. split.
    + intros k Hk. lia.
    + split; [reflexivity|]. split; [lia|reflexivity].
Defined.

Lemma X14_witness :
  ∃ k l,
    split NL (codes "import pickle" ++ [NL] ++ codes "x = pickle.load(f)") !! k = Some l ∧
    contains (codes "pickle.load") l = true ∧
    List.filter (security_for "pickle.load may be unsafe")
      (scan_python_file ascii_only parses_everything pickle_py) =
    [ {| file := "load.py"; line := 1 + Z.of_nat k; column := 0;
         severity := MEDIUM; issue_type := SECURITY_VULNERABILITY;
         message := "Security: pickle.load may be unsafe"; rule_id := None;
         suggestion := Some "Move to .env file"; fixable := true |} ].
Proof.
  destruct (proj2 (X14_literal_patterns ascii_only parses_everything pickle_py
              (codes "import pickle" ++ [NL] ++ codes "x = pickle.load(f)")
              (codes "pickle.load") "pickle.load may be unsafe" MEDIUM true
              eq_refl ltac:(discriminate) ltac:(left; reflexivity)) eq_refl)
    as (k & l & Hk & Hl & _ & Hfound).
  exists k, l. split; [exact Hk|]. split; [exact Hl|exact Hfound].
Defined.

Lemma X15_witness :
  generate_pull_request_comment basename "2026-01-01 00:00:00" null_file_results
    = None.
Proof.
  destruct (generate_pull_request_comment basename "2026-01-01 00:00:00"
              null_file_results) as [report|] eqn:Hr; [|reflexivity].
  destruct (proj1 (X15_report_returns basename "2026-01-01 00:00:00"
                     null_file_results) (ex_intro _ report Hr)) as [Hfix _].
  apply Forall_cons in Hfix as [[[p Hp] _] _]. discriminate Hp.
Defined.

Lemma X16_witness :
  ∃ report,
    generate_pull_request_comment basename "2026-01-01 00:00:00" small_tree_results
      = Some report ∧
    endswith report (join_lines (blocked_verdict ++ report_footer)) = true.
Proof.
  refine (ex_intro _ _ (conj eq_refl _)).
  refine (proj2 (proj2 (X16_report_verdict basename "2026-01-01 00:00:00"
                          small_tree_results _ eq_refl)) _).
  discriminate.
Defined.

Lemma X17_witness :
  ∃ report,
    generate_pull_request_comment basename "2026-01-01 00:00:00" linted_tree_results
      = Some report ∧
    (endswith report (join_lines (approved_verdict ++ report_footer)) = true ↔
     exit_code (run ascii_only parses_everything linted_tree "t0") = 0%Z).
Proof.
  destruct (X17_report_agrees_with_gate ascii_only parses_everything basename
              linted_tree "t0" "2026-01-01 00:00:00" linted_tree_results)
    as (_ & report & Hr & _ & Ha).
  - intros i [<- | []]. reflexivity.
  - unfold loaded_from, linted_tree_results, as_loaded.
    cbn [res_critical_issues res_auto_fixable_issues res_all_issues res_summary].
    split; [reflexivity|]. split; [reflexivity|]. split; [reflexivity|].
    eexists _, _, _. split; [reflexivity|].
    cbn [rs_files_scanned rs_total_issues rs_critical_count rs_auto_fixable_count
         rs_by_severity rs_by_type].
    repeat split; reflexivity.
  - exists report. split; [exact Hr|exact Ha].
Defined.

Lemma X18_witness : is_Some (generate_security_alert small_tree_results).
Proof.
  refine (proj1 (X18_security_alert ascii_only rejects_unbalanced small_tree "t0"
                   small_tree_results _)).
  unfold loaded_from, small_tree_results, as_loaded.
  cbn [res_critical_issues res_auto_fixable_issues res_all_issues res_summary].
  split; [reflexivity|]. split; [reflexivity|]. split; [reflexivity|].
  eexists _, _, _. split; [reflexivity|].
  cbn [rs_files_scanned rs_total_issues rs_critical_count rs_auto_fixable_count
       rs_by_severity rs_by_type].
  repeat split; reflexivity.
Defined.

Lemma X19_witness :
  ds_total_issues (generate_daily_summary "2026-01-01" small_tree_results) =
  len (issues (run ascii_only rejects_unbalanced small_tree "t0")).
Proof.
  refine (proj1 (proj2 (X19_daily_summary ascii_only rejects_unbalanced small_tree "t0"
                          "2026-01-01" small_tree_results _))).
  unfold loaded_from, small_tree_results, as_loaded.
  cbn [res_critical_issues res_auto_fixable_issues res_all_issues res_summary].
  split; [reflexivity|]. split; [reflexivity|]. split; [reflexivity|].
  eexists _, _, _. split; [reflexivity|].
  cbn [rs_files_scanned rs_total_issues rs_critical_count rs_auto_fixable_count
       rs_by_severity rs_by_type].
  repeat split; reflexivity.
Defined.

(** ** Link checker *)

Section Links.

Local Abbreviation ua := (fun _ : N => false).
Local Abbreviation T := (tries ua).

Lemma flat_map_singleton {A} (l : list A) : flat_map (fun e => [e]) l = l.
Proof. induction l as [|x l IH]; simpl; [done|]. by rewrite IH. Qed.

Lemma head_app_nonempty {A} (l l' : list A) : l ≠ [] → head (l ++ l') = head l.
Proof. by destruct l. Qed.

Lemma star_tries_nonempty step fuel i : star_tries step fuel i ≠ [].
Proof.
  destruct fuel; simpl; [done|]. intros H. apply app_eq_nil in H as [_ H]. done.
Qed.

Lemma tries_lit s w i :
  T s (lit w) i = if startswith w (drop i s) then [i + length w] else [].
Proof.
  revert i. induction w as [|a w IH]; intros i.
  - simpl. by rewrite Nat.add_0_r.
  - change (lit (a :: w)) with (Cat (Cls (Lit a)) (lit w)).
    cbn [tries].
    change (ends ua s (Cls (Lit a)) i)
      with (match s !! i with
            | Some c => if (a =? c)%N then [S i] else []
            | None => []
            end).
    destruct (s !! i) as [c|] eqn:Hc.
    + rewrite (drop_S s c i Hc). cbn [startswith].
      destruct (a =? c)%N; [|done]. cbn [flat_map andb]. rewrite IH, app_nil_r.
      replace (S i + length w) with (i + length (a :: w)) by (simpl; lia). done.
    + rewrite drop_ge by (by apply lookup_ge_None). done.
Qed.

Lemma ends_cls_eq s cl i :
  ends ua s (Cls cl) i =
  match s !! i with
  | Some c => if in_class ua cl c then [S i] else []
  | None => []
  end.
Proof. reflexivity. Qed.

(** The alternatives of the pattern at a position: nothing where the
    character is not a link character, else one character first. *)
Lemma url_alternatives_tries s i :
  if url_char_at s i
  then ∃ rest, T s url_alternatives i = S i :: rest
  else T s url_alternatives i = [].
Proof.
  unfold url_alternatives, url_char_at. rewrite cat_all_cons. cbn [tries].
  rewrite !ends_cls_eq. destruct (s !! i) as [c|]; [|done].
  unfold url_char, url_letters, url_digits, url_punctuation, url_reserved.
  cbn [in_class].
  destruct (mem c (code_range 97 122 ++ code_range 65 90)); [by eexists|].
  destruct (mem c (code_range 48 57)); [by eexists|].
  destruct (mem c (code_range 36 95 ++ [64%N; 46%N; 38%N; 43%N])) eqn:H3; [by eexists|].
  destruct (37 =? c)%N eqn:H37.
  { apply N.eqb_eq in H37 as <-. by vm_compute in H3. }
  destruct (mem c [33%N; 42%N; 92%N; 40%N; 92%N; 41%N; 44%N]); [by eexists|].
  done.
Qed.

Lemma star_url_head s fuel i :
  head (star_tries (T s url_alternatives) fuel i) = Some (url_run s fuel i).
Proof.
  revert i. induction fuel as [|fuel IH]; intros i; [done|].
  cbn [star_tries url_run]. pose proof (url_alternatives_tries s i) as H.
  destruct (url_char_at s i).
  - destruct H as [rest ->]. cbn [flat_map].
    destruct (Nat.ltb_spec i (S i)); [|lia].
    rewrite <- !app_assoc, head_app_nonempty by apply star_tries_nonempty.
    apply IH.
  - by rewrite H.
Qed.

Lemma plus_url_tries s i :
  if url_char_at s i
  then head (T s (Plus url_alternatives) i) = Some (url_run s (S (length s)) (S i))
  else T s (Plus url_alternatives) i = [].
Proof.
  unfold Plus. cbn [tries]. pose proof (url_alternatives_tries s i) as H.
  destruct (url_char_at s i).
  - destruct H as [rest ->]. cbn [flat_map].
    rewrite head_app_nonempty by apply star_tries_nonempty.
    apply star_url_head.
  - by rewrite H.
Qed.

Lemma url_rest_tries s k :
  head (T s (cat_all [lit (codes "://"); Plus url_alternatives]) k) = url_rest_end s k ∧
  (url_rest_end s k = None →
   T s (cat_all [lit (codes "://"); Plus url_alternatives]) k = []).
Proof.
  rewrite !cat_all_cons. cbn [tries cat_all foldr]. rewrite tries_lit.
  unfold url_rest_end. destruct (startswith (codes "://") (drop k s)); [|done].
  cbn [flat_map andb length codes]. rewrite app_nil_r.
  change (k + length (codes "://")) with (k + 3).
  change (ends ua s Eps) with (fun e : nat => [e]). rewrite flat_map_singleton.
  pose proof (plus_url_tries s (k + 3)) as H.
  destruct (url_char_at s (k + 3)).
  - replace (k + 4) with (S (k + 3)) by lia. done.
  - by rewrite H.
Qed.

(** The match the engine finds for the pattern at a position. *)
Lemma first_end_url s i : first_end ua url_pattern s i = url_end s i.
Proof.
  unfold first_end, url_pattern, url_end.
  rewrite cat_all_cons. cbn [tries]. rewrite tries_lit.
  destruct (startswith (codes "http") (drop i s)); [|done].
  cbn [flat_map]. rewrite app_nil_r. change (i + length (codes "http")) with (i + 4).
  rewrite cat_all_cons. unfold Opt. cbn [tries]. rewrite ends_cls_eq.
  change (ends ua s Eps (i + 4)) with [i + 4].
  destruct (url_rest_tries s (i + 4)) as [H4 H4'].
  destruct (url_rest_tries s (i + 5)) as [H5 H5'].
  destruct (s !! (i + 4)) as [c|] eqn:Hc.
  - cbn [in_class mem existsb]. rewrite orb_false_r.
    destruct (N.eqb_spec 115 c) as [<-|Hne].
    + rewrite bool_decide_eq_true_2 by done.
      cbn [app flat_map]. replace (S (i + 4)) with (i + 5) by lia.
      rewrite app_nil_r.
      destruct (url_rest_end s (i + 5)) as [e|] eqn:He.
      * rewrite head_app_nonempty; [done|]. intros Hnil. by rewrite Hnil in H5.
      * by rewrite (H5' eq_refl).
    + rewrite bool_decide_eq_false_2 by congruence.
      cbn [app flat_map]. by rewrite app_nil_r.
  - rewrite bool_decide_eq_false_2 by done.
    cbn [app flat_map]. by rewrite app_nil_r.
Qed.

Lemma url_run_spec s fuel i :
  i ≤ url_run s fuel i ∧
  (∀ k, i ≤ k < url_run s fuel i → url_char_at s k = true) ∧
  (length s < i + fuel → url_char_at s (url_run s fuel i) = false).
Proof.
  revert i. induction fuel as [|fuel IH]; intros i; cbn [url_run].
  - split; [lia|]. split; [intros; lia|]. intros H.
    unfold url_char_at. by rewrite lookup_ge_None_2 by lia.
  - destruct (url_char_at s i) eqn:Hi.
    + destruct (IH (S i)) as (Hle & Hall & Hstop). split; [lia|]. split.
      * intros k Hk. destruct (decide (k = i)) as [->|]; [done|]. apply Hall. lia.
      * intros H. apply Hstop. lia.
    + split; [lia|]. split; [intros; lia|done].
Qed.

Lemma startswith_drop w s i :
  startswith w (drop i s) = true → occurs_at s w i ∧ drop i s = w ++ drop (i + length w) s.
Proof.
  revert i. induction w as [|a w IH]; intros i H.
  - split; [intros k c; by rewrite lookup_nil|]. simpl. by rewrite Nat.add_0_r.
  - destruct (drop i s) as [|b t] eqn:Hd; [done|]. cbn [startswith] in H.
    apply andb_true_iff in H as [Hab H]. apply N.eqb_eq in Hab as <-.
    assert (Hi : s !! i = Some a).
    { rewrite <- (Nat.add_0_r i), <- lookup_drop, Hd. done. }
    assert (Ht : t = drop (S i) s).
    { rewrite (drop_S s a i Hi) in Hd. by injection Hd as <-. }
    rewrite Ht in H. destruct (IH (S i) H) as [Hocc Hdrop]. split.
    + intros [|k] c; simpl.
      * intros [= <-]. by rewrite Nat.add_0_r.
      * intros Hk. replace (i + S k) with (S i + k) by lia. by apply Hocc.
    + replace (i + length (a :: w)) with (S i + length w) by (simpl; lia).
      rewrite Ht. rewrite Hdrop at 1. done.
Qed.

Lemma url_rest_end_spec s k e :
  url_rest_end s k = Some e →
  startswith (codes "://") (drop k s) = true ∧ k + 3 < e ∧
  (∀ m, k + 3 ≤ m < e → url_char_at s m = true) ∧ url_char_at s e = false.
Proof.
  unfold url_rest_end.
  destruct (startswith (codes "://") (drop k s)); [|done].
  destruct (url_char_at s (k + 3)) eqn:H3; [|done]. cbn [andb]. intros He.
  apply (inj Some) in He. subst e.
  destruct (url_run_spec s (S (length s)) (k + 4)) as (Hle & Hall & Hstop).
  split; [done|]. split; [lia|]. split.
  - intros m Hm. destruct (decide (m = k + 3)) as [->|]; [done|]. apply Hall. lia.
  - apply Hstop. lia.
Qed.

Lemma startswith_app w1 w2 t :
  startswith w1 t = true → startswith w2 (drop (length w1) t) = true →
  startswith (w1 ++ w2) t = true.
Proof.
  revert t. induction w1 as [|a w1 IH]; intros t H1 H2; [done|].
  destruct t as [|b t]; [done|]. simpl in *.
  apply andb_true_iff in H1 as [-> H1]. simpl. by apply IH.
Qed.

(** What a match of the pattern looks like. *)
Lemma url_end_spec s i e :
  url_end s i = Some e →
  ∃ scheme,
    (scheme = codes "http://" ∨ scheme = codes "https://") ∧
    startswith scheme (drop i s) = true ∧ i + length scheme < e ∧
    (∀ m, i + length scheme ≤ m < e → url_char_at s m = true) ∧
    url_char_at s e = false.
Proof.
  unfold url_end. destruct (startswith (codes "http") (drop i s)) eqn:Hh; [|done].
  destruct (bool_decide (s !! (i + 4) = Some 115%N)) eqn:Hs.
  - apply bool_decide_eq_true in Hs.
    destruct (url_rest_end s (i + 5)) as [e5|] eqn:H5.
    + intros [= <-]. apply url_rest_end_spec in H5 as (Hr & Hlt & Hall & Hstop).
      exists (codes "https://"). split; [by right|]. split.
      * change (codes "https://") with (codes "http" ++ ([115%N] ++ codes "://")).
        apply startswith_app; [done|]. rewrite drop_drop.
        change (length (codes "http")) with 4.
        apply startswith_app.
        -- by rewrite (drop_S s 115%N (i + 4) Hs).
        -- rewrite drop_drop. change (length [115%N]) with 1.
           by replace (i + 4 + 1) with (i + 5) by lia.
      * simpl length. repeat split; [lia| |done]. intros m Hm. apply Hall. lia.
    + intros H4. apply url_rest_end_spec in H4 as (Hr & Hlt & Hall & Hstop).
      exists (codes "http://"). split; [by left|]. split.
      * change (codes "http://") with (codes "http" ++ codes "://").
        apply startswith_app; [done|]. by rewrite drop_drop.
      * simpl length. repeat split; [lia| |done]. intros m Hm. apply Hall. lia.
  - intros H4. apply url_rest_end_spec in H4 as (Hr & Hlt & Hall & Hstop).
    exists (codes "http://"). split; [by left|]. split.
    + change (codes "http://") with (codes "http" ++ codes "://").
      apply startswith_app; [done|]. by rewrite drop_drop.
    + simpl length. repeat split; [lia| |done]. intros m Hm. apply Hall. lia.
Qed.

Lemma in_findall_spans r s fuel pos i j :
  In (i, j) (findall_spans ua r s fuel pos) →
  pos ≤ i ≤ length s ∧ first_end ua r s i = Some j.
Proof.
  revert pos. induction fuel as [|fuel IH]; intros pos; simpl; [done|].
  destruct (Nat.ltb_spec (length s) pos) as [Hpos|Hpos]; [done|].
  destruct (first_end ua r s pos) as [e|] eqn:He.
  - intros [[= <- <-] | H]; [split; [lia|done]|].
    apply IH in H as [Hle Hf]. split; [|done].
    destruct (Nat.ltb_spec pos e); lia.
  - intros H. apply IH in H as [Hle Hf]. split; [lia|done].
Qed.

Lemma url_char_at_lt s k : url_char_at s k = true → k < length s.
Proof.
  unfold url_char_at. destruct (s !! k) eqn:Hk; [|done]. intros _.
  by eapply lookup_lt_Some.
Qed.

Lemma slice_lookup s i j k :
  k < j - i → slice s i j !! k = s !! (i + k).
Proof. intros H. unfold slice. by rewrite lookup_take_lt, lookup_drop. Qed.

Lemma slice_split s w i j :
  startswith w (drop i s) = true → i + length w ≤ j →
  slice s i j = w ++ slice s (i + length w) j.
Proof.
  intros Hw Hle. apply startswith_drop in Hw as [_ Hd]. unfold slice. rewrite Hd.
  rewrite take_app_ge by lia. f_equal. f_equal. lia.
Qed.

(** X21. A link found by [find_links] runs from [http://] or [https://] over
    at least one further character up to the first character that is
    neither a letter, a digit, one of the characters from [$] to [_], nor
    one of [@ . & + ! * ( ) ,] and the backslash, or up to the end of the
    text: a closing parenthesis, a comma or a full stop right after a URL
    is part of the link. *)
Theorem X21_link_extent (text : list N) i j :
  In (i, j) (link_spans text) →
  ∃ scheme,
    (scheme = codes "http://" ∨ scheme = codes "https://") ∧
    slice text i j = scheme ++ slice text (i + length scheme) j ∧
    i + length scheme < j ≤ length text ∧
    (∀ k, i + length scheme ≤ k < j → url_char_at text k = true) ∧
    url_char_at text j = false.
Proof.
  intros H. apply in_findall_spans in H as [_ H]. rewrite first_end_url in H.
  apply url_end_spec in H as (scheme & Hs & Hstart & Hlt & Hall & Hstop).
  exists scheme. split; [done|]. split; [apply slice_split; [done|lia]|].
  split; [|done]. split; [done|].
  assert (j - 1 < length text); [|lia]. apply url_char_at_lt, Hall. lia.
Qed.

(** X22. Every string returned by [find_links] is [http://] or [https://]
    followed by a non-empty run of link characters. *)
Theorem X22_link_shape (text link : list N) :
  In link (find_links text) →
  ∃ scheme body,
    link = scheme ++ body ∧
    (scheme = codes "http://" ∨ scheme = codes "https://") ∧
    body ≠ [] ∧ forallb url_char body = true.
Proof.
  unfold find_links, findall. intros H.
  apply in_map_iff in H as ([i j] & <- & H). cbn [fst snd].
  apply in_findall_spans in H as [_ H]. rewrite first_end_url in H.
  apply url_end_spec in H as (scheme & Hs & Hstart & Hlt & Hall & Hstop).
  exists scheme, (slice text (i + length scheme) j).
  split; [apply slice_split; [done|lia]|]. split; [done|].
  assert (Hj : j ≤ length text).
  { assert (j - 1 < length text); [|lia]. apply url_char_at_lt, Hall. lia. }
  split.
  - intros Hnil. apply (f_equal length) in Hnil. unfold slice in Hnil.
    rewrite length_take, length_drop in Hnil. simpl in Hnil. lia.
  - apply forallb_lookup. intros k c Hk.
    assert (Hklt : k < j - (i + length scheme)).
    { apply lookup_lt_Some in Hk. unfold slice in Hk.
      rewrite length_take in Hk. lia. }
    rewrite slice_lookup in Hk by done.
    specialize (Hall (i + length scheme + k)). unfold url_char_at in Hall.
    rewrite Hk in Hall. apply Hall. lia.
Qed.

Lemma findall_spans_none r s fuel pos :
  (∀ i, first_end ua r s i = None) → findall_spans ua r s fuel pos = [].
Proof.
  intros H. revert pos. induction fuel as [|fuel IH]; intros pos; simpl; [done|].
  destruct (length s <? pos); [done|]. by rewrite H, IH.
Qed.

(** X23. A text that does not contain [http] has no links. *)
Theorem X23_no_http_no_links (text : list N) :
  contains (codes "http") text = false → find_links text = [].
Proof.
  intros Hc. unfold find_links, findall.
  rewrite findall_spans_none; [done|]. intros i. rewrite first_end_url.
  unfold url_end. destruct (startswith (codes "http") (drop i text)) eqn:Hs; [|done].
  apply startswith_drop in Hs as [Hocc _].
  assert (contains (codes "http") text = true); [|congruence].
  apply contains_occurs. eauto.
Qed.

End Links.

Lemma X21_witness :
  ∃ scheme,
    (scheme = codes "http://" ∨ scheme = codes "https://") ∧
    slice (codes "see (http://a.b/c), ok") 5 19 =
      scheme ++ slice (codes "see (http://a.b/c), ok") (5 + length scheme) 19 ∧
    url_char_at (codes "see (http://a.b/c), ok") 19 = false.
Proof.
  destruct (X21_link_extent (codes "see (http://a.b/c), ok") 5 19)
    as (scheme & Hs & Hslice & _ & _ & Hstop).
  - left. reflexivity.
  - exists scheme. split; [exact Hs|]. split; [exact Hslice|exact Hstop].
Defined.

Lemma X22_witness :
  ∃ scheme body,
    codes "http://a.b/c)," = scheme ++ body ∧
    (scheme = codes "http://" ∨ scheme = codes "https://") ∧ body ≠ [].
Proof.
  destruct (X22_link_shape (codes "see (http://a.b/c), ok") (codes "http://a.b/c),"))
    as (scheme & body & Hl & Hs & Hb & _).
  - left. reflexivity.
  - exists scheme, body. split; [exact Hl|]. split; [exact Hs|exact Hb].
Defined.

Lemma X23_witness : find_links (codes "no link in this line") = [].
Proof. apply X23_no_http_no_links. reflexivity. Defined.
